(** * Smart face capture: pose estimation, quality gate, crop region, counter

    A shallow embedding of the two call sites of the repository:

    - [SmartCaptureCalculator] (smart_capture_calculator.cc), the MediaPipe
      calculator with the depth-based pose estimate, the doubled pitch
      threshold and the crop computation;
    - [SmartFaceProcessor] (smart_face_main_wasm.cc), the WASM processor with
      the ratio-based estimate, the undoubled thresholds and the capture
      counter exposed through setters.

    Numbers.  In the angle computations (the arctangents, the ratios and the
    threshold comparisons) C++ [float] and [double] values are idealised as
    real numbers ([R]): rounding, NaN and infinities are outside the model
    there, and [std::atan2] is the mathematical two-argument arctangent
    ([atan2]).  The pixel arithmetic of [CropAndSend] is carried out in
    IEEE 754 single precision ([Binary32]): a coordinate is read as the
    nearest [float], every difference, sum and product is rounded to
    nearest, ties to even, and the conversion to [int] truncates toward
    zero.  C++ [int] is [Z]; [int / int] is [Z.quot].  Where C++ leaves a
    result undefined in [CropAndSend] the model follows the x86-64 target:
    the conversion of a value outside the range of [int] yields INT_MIN
    (the result of cvttss2si), and the [int] subtraction wraps modulo
    2^32. *)

From Stdlib Require Import Reals Lra Lia ZArith List String Ascii Bool.
From Stdlib Require Import DecimalString.
Import ListNotations.

Local Open Scope R_scope.

(** ** Numeric layer *)

(** [M_PI] of <cmath>. *)
Definition M_PI : R := PI.

(** [std::atan2 (y, x)]: the angle of the point (x, y), in (-pi, pi].  At the
    origin the C library returns 0 for (+0, +0), the only zero pair that the
    subtractions of the program produce from equal operands. *)
Definition atan2 (y x : R) : R :=
  if Rlt_dec 0 x then atan (y / x)
  else if Rlt_dec x 0 then
    if Rle_dec 0 y then atan (y / x) + PI else atan (y / x) - PI
  else if Rlt_dec 0 y then PI / 2
  else if Rlt_dec y 0 then - PI / 2
  else 0.

(** Conversion of a floating value to [int]: the fractional part is
    discarded (truncation toward zero). *)
Definition to_int (r : R) : Z :=
  if Rle_dec 0 r then Int_part r else (- Int_part (- r))%Z.

(** [int] arithmetic that leaves the range of a 32-bit [int]: the result
    modulo 2^32, in [-2^31, 2^31). *)
Definition wrap_int (n : Z) : Z :=
  ((n + 2147483648) mod 4294967296 - 2147483648)%Z.

(** ** Single precision

    The values of a C++ [float] (binary32: 24 bits of precision, exponents
    of the last mantissa bit from -149 to 104) and the operations that
    [CropAndSend] applies to them.  A finite value is the real number it
    denotes; the sign of a zero is not recorded, no operation used here
    depends on it. *)

Module Binary32.

(** 2 to the power [e]. *)
Definition bpow (e : Z) : R :=
  match e with
  | Z0 => 1
  | Zpos p => IZR (Z.pow_pos 2 p)
  | Zneg p => / IZR (Z.pow_pos 2 p)
  end.

(** The integer nearest to [x], the even one of the two when [x] lies half
    way between them. *)
Definition rne (x : R) : Z :=
  let n := Int_part x in
  if Rlt_dec (x - IZR n) (1 / 2) then n
  else if Rlt_dec (1 / 2) (x - IZR n) then (n + 1)%Z
  else if Z.even n then n else (n + 1)%Z.

(** The exponent of the last mantissa bit for a magnitude [a]: the least
    [e], from -149 on, with a < 2^(e+24), and at most 104. *)
Fixpoint cexp_from (n : nat) (e : Z) (a : R) : Z :=
  match n with
  | O => e
  | S n' =>
      if Rlt_dec a (bpow (e + 24)) then e else cexp_from n' (e + 1)%Z a
  end.

Definition cexp (x : R) : Z := cexp_from 253 (-149) (Rabs x).

Inductive t : Type :=
| finite (r : R)
| infinity (negative : bool)
| nan.

(** Rounding of a real number to the nearest [float], ties to even; a
    result of magnitude 2^128 or more is an infinity. *)
Definition round (x : R) : t :=
  let e := cexp x in
  let m := rne (x / bpow e) in
  if ((e =? 104) && (2 ^ 24 <=? Z.abs m))%Z%bool
  then infinity (if Rlt_dec x 0 then true else false)
  else finite (IZR m * bpow e).

Definition opp (a : t) : t :=
  match a with
  | finite x => finite (- x)
  | infinity s => infinity (negb s)
  | nan => nan
  end.

(** [a + b], [a - b] and [a * b] on [float]. *)
Definition add (a b : t) : t :=
  match a, b with
  | finite x, finite y => round (x + y)
  | finite _, infinity s => infinity s
  | infinity s, finite _ => infinity s
  | infinity s, infinity s' => if Bool.eqb s s' then infinity s else nan
  | _, _ => nan
  end.

Definition sub (a b : t) : t := add a (opp b).

Definition mul (a b : t) : t :=
  match a, b with
  | finite x, finite y => round (x * y)
  | finite x, infinity s | infinity s, finite x =>
      if Rlt_dec x 0 then infinity (negb s)
      else if Rlt_dec 0 x then infinity s
      else nan
  | infinity s, infinity s' => infinity (xorb s s')
  | _, _ => nan
  end.

(** [a < b] on [float]: false when an operand is NaN. *)
Definition lt (a b : t) : bool :=
  match a, b with
  | finite x, finite y => if Rlt_dec x y then true else false
  | finite _, infinity s => negb s
  | infinity s, finite _ => s
  | infinity s, infinity s' => s && negb s'
  | _, _ => false
  end.

(** [std::min (a, b)] is [(b < a) ? b : a] and [std::max (a, b)] is
    [(a < b) ? b : a]. *)
Definition min (a b : t) : t := if lt b a then b else a.
Definition max (a b : t) : t := if lt a b then b else a.

(** Conversion of an [int] to [float]. *)
Definition of_int (n : Z) : t := round (IZR n).

Definition INT_MIN : Z := (-2147483648)%Z.
Definition INT_MAX : Z := 2147483647%Z.

(** Conversion of a [float] to [int]: truncation toward zero; INT_MIN for
    a value outside the range of [int], an infinity or NaN. *)
Definition to_int32 (a : t) : Z :=
  match a with
  | finite x =>
      let n := to_int x in
      if ((INT_MIN <=? n) && (n <=? INT_MAX))%Z%bool then n else INT_MIN
  | _ => INT_MIN
  end.

End Binary32.

(** [std::to_string (int)]. *)
Definition to_string (n : Z) : string := NilZero.string_of_int (Z.to_int n).

(** A computation that may index a container out of its range: the C++
    containers used here do not check, so the access has no defined result. *)
Inductive result (A : Type) : Type :=
| Ok (a : A)
| OutOfRange.
Arguments Ok {A} a.
Arguments OutOfRange {A}.

Definition bind {A B : Type} (m : result A) (k : A -> result B) : result B :=
  match m with
  | Ok a => k a
  | OutOfRange => OutOfRange
  end.

Notation "x <- m ;; k" := (bind m (fun x => k))
  (at level 61, m at next level, right associativity).

(** ** Landmarks *)

Module Landmark.
(** [struct Landmark] of the WASM module and the x/y/z fields of
    [NormalizedLandmark] read by the calculator. *)
Record t : Type := mk { x : R; y : R; z : R }.

(** [Landmark() : x(0), y(0), z(0)]. *)
Definition default : t := mk 0 0 0.
End Landmark.

Abbreviation Landmark := Landmark.t.

(** ** The calculator: smart_capture_calculator.cc *)

Module SmartCaptureCalculator.

(** Helper of the anonymous namespace. *)
Definition ToDegrees (radians : R) : R := radians * 180 / M_PI.

(** [NormalizedLandmarkList]: the repeated field [landmark]. *)
Definition NormalizedLandmarkList : Type := list Landmark.

(** [landmarks.landmark(i)]: protobuf's repeated-field accessor does not
    check [i] in a release build. *)
Definition landmark (landmarks : NormalizedLandmarkList) (i : nat)
  : result Landmark :=
  match nth_error landmarks i with
  | Some lm => Ok lm
  | None => OutOfRange
  end.

(** [SmartCaptureCalculatorOptions]. *)
Record Options : Type := mkOptions {
  max_captures : Z;
  max_yaw_degrees : R;
  max_pitch_degrees : R;
  padding : R
}.

(** The private members of the calculator. *)
Record state : Type := mkState {
  max_captures_ : Z;
  max_yaw_ : R;
  max_pitch_ : R;
  padding_ : R;
  current_count_ : Z
}.

(** What [CropAndSend] reads of the input [ImageFrame]: [src.cols] and
    [src.rows]. *)
Record ImageFrame : Type := mkImage { cols : Z; rows : Z }.

(** [cv::Rect roi (x, y, pad_w, pad_h)]. *)
Record Rect : Type := mkRect {
  rect_x : Z; rect_y : Z; rect_width : Z; rect_height : Z
}.

(** Packets added to the output streams by one [Process] call. *)
Inductive Packet : Type :=
| STATUS (message : string)
| CROPPED_FACE (roi : Rect).

(** The calculator context of one [Process] call: the two input packets
    (absent when the stream is empty at this timestamp) and whether the
    optional STATUS output is connected. *)
Record CalculatorContext : Type := mkContext {
  IMAGE : option ImageFrame;
  LANDMARKS : option (list NormalizedLandmarkList);
  HasTag_STATUS : bool
}.

Definition Open (options : Options) : state :=
  {| max_captures_ := max_captures options;
     max_yaw_ := max_yaw_degrees options;
     max_pitch_ := max_pitch_degrees options;
     padding_ := padding options;
     current_count_ := 0 |}.

Definition SendStatus (cc : CalculatorContext) (message : string)
  : list Packet :=
  if HasTag_STATUS cc then [STATUS message] else [].

(** The loop of [CropAndSend]: running minimum and maximum of x and y,
    started from 1.0f, 0.0f, 1.0f, 0.0f.  [lm.x()] and [lm.y()] are the
    [float] fields of the landmark. *)
Definition bounds_step
           (acc : Binary32.t * Binary32.t * Binary32.t * Binary32.t)
           (lm : Landmark)
  : Binary32.t * Binary32.t * Binary32.t * Binary32.t :=
  let '(min_x, max_x, min_y, max_y) := acc in
  let x := Binary32.round (Landmark.x lm) in
  let y := Binary32.round (Landmark.y lm) in
  (Binary32.min min_x x, Binary32.max max_x x,
   Binary32.min min_y y, Binary32.max max_y y).

Definition bounds (landmarks : NormalizedLandmarkList)
  : Binary32.t * Binary32.t * Binary32.t * Binary32.t :=
  fold_left bounds_step landmarks
    (Binary32.finite 1, Binary32.finite 0,
     Binary32.finite 1, Binary32.finite 0).

(** The rectangle computed by [CropAndSend], when one is emitted.  The
    products and sums are [float] operations (an [int] operand is converted
    to [float] first), each converted to [int] when it is stored. *)
Definition crop_rect (padding_ : R) (input_img : ImageFrame)
           (landmarks : NormalizedLandmarkList) : option Rect :=
  let img_w := cols input_img in
  let img_h := rows input_img in
  let '(min_x, max_x, min_y, max_y) := bounds landmarks in
  let w := Binary32.to_int32
             (Binary32.mul (Binary32.sub max_x min_x)
                           (Binary32.of_int img_w)) in
  let h := Binary32.to_int32
             (Binary32.mul (Binary32.sub max_y min_y)
                           (Binary32.of_int img_h)) in
  let cx := Binary32.to_int32
              (Binary32.add (Binary32.mul min_x (Binary32.of_int img_w))
                            (Binary32.of_int (Z.quot w 2))) in
  let cy := Binary32.to_int32
              (Binary32.add (Binary32.mul min_y (Binary32.of_int img_h))
                            (Binary32.of_int (Z.quot h 2))) in
  let pad_w := Binary32.to_int32
                 (Binary32.mul (Binary32.of_int w)
                    (Binary32.add (Binary32.finite 1)
                                  (Binary32.round padding_))) in
  let pad_h := Binary32.to_int32
                 (Binary32.mul (Binary32.of_int h)
                    (Binary32.add (Binary32.finite 1)
                                  (Binary32.round padding_))) in
  let x := wrap_int (cx - Z.quot pad_w 2) in
  let y := wrap_int (cy - Z.quot pad_h 2) in
  let x := Z.max 0 x in
  let y := Z.max 0 y in
  let pad_w := Z.min pad_w (img_w - x) in
  let pad_h := Z.min pad_h (img_h - y) in
  if ((0 <? pad_w) && (0 <? pad_h))%Z%bool
  then Some (mkRect x y pad_w pad_h)
  else None.

Definition CropAndSend (s : state) (input_img : ImageFrame)
           (landmarks : NormalizedLandmarkList) : list Packet :=
  match crop_rect (padding_ s) input_img landmarks with
  | Some roi => [CROPPED_FACE roi]
  | None => []
  end.

(** Lines 61-70 of [Process]: the three landmark reads and the depth-based
    yaw and pitch. *)
Definition pose (landmarks : NormalizedLandmarkList) : result (R * R) :=
  nose <- landmark landmarks 1 ;;
  left_ear <- landmark landmarks 234 ;;
  right_ear <- landmark landmarks 454 ;;
  let yaw :=
    ToDegrees (atan2 (Landmark.z left_ear - Landmark.z right_ear)
                     (Landmark.x left_ear - Landmark.x right_ear)) in
  let ear_mid_y := (Landmark.y left_ear + Landmark.y right_ear) / 2 in
  let pitch :=
    ToDegrees (atan2 (Landmark.y nose - ear_mid_y) (Landmark.z nose)) in
  Ok (yaw, pitch).

(** Lines 74-87 of [Process]: the two threshold checks, then the capture. *)
Definition gate (s : state) (cc : CalculatorContext)
           (input_img : ImageFrame) (landmarks : NormalizedLandmarkList)
           (yaw pitch : R) : state * list Packet :=
  if Rgt_dec (Rabs yaw) (max_yaw_ s) then
    (s, SendStatus cc "Face turned too much (Yaw)")
  else if Rgt_dec (Rabs pitch) (max_pitch_ s * 2) then
    (s, SendStatus cc "Face tilted up/down too much (Pitch)")
  else
    ({| max_captures_ := max_captures_ s;
        max_yaw_ := max_yaw_ s;
        max_pitch_ := max_pitch_ s;
        padding_ := padding_ s;
        current_count_ := current_count_ s + 1 |},
     SendStatus cc "Captured!" ++ CropAndSend s input_img landmarks).

Definition Process (s : state) (cc : CalculatorContext)
  : result (state * list Packet) :=
  if (current_count_ s >=? max_captures_ s)%Z then Ok (s, [])
  else
    match IMAGE cc, LANDMARKS cc with
    | Some input_img, Some multi_landmarks =>
        match multi_landmarks with
        | [] => Ok (s, SendStatus cc "No face detected")
        | landmarks :: _ =>
            p <- pose landmarks ;;
            Ok (gate s cc input_img landmarks (fst p) (snd p))
        end
    | _, _ => Ok (s, [])
    end.

(** A sequence of [Process] calls on one calculator instance. *)
Fixpoint run (s : state) (ccs : list CalculatorContext)
  : result (state * list Packet) :=
  match ccs with
  | [] => Ok (s, [])
  | cc :: ccs' =>
      r <- Process s cc ;;
      r' <- run (fst r) ccs' ;;
      Ok (fst r', snd r ++ snd r')
  end.

End SmartCaptureCalculator.

(** ** The WASM processor: smart_face_main_wasm.cc *)

Module SmartFaceProcessor.

(** [struct FaceResult]. *)
Record FaceResult : Type := mkFaceResult {
  detected : bool;
  landmark_count : Z;
  message : string;
  yaw : R;
  pitch : R;
  roll : R;
  quality_good : bool;
  landmarks : list Landmark
}.

(** [landmarks[i]] on a [std::vector]: unchecked. *)
Definition at_ (landmarks : list Landmark) (i : nat) : result Landmark :=
  match nth_error landmarks i with
  | Some lm => Ok lm
  | None => OutOfRange
  end.

Definition EstimateYaw (landmarks : list Landmark) : result R :=
  if (List.length landmarks <? 468)%nat then Ok 0
  else
    left_eye <- at_ landmarks 33 ;;
    right_eye <- at_ landmarks 263 ;;
    nose <- at_ landmarks 1 ;;
    let left_dist := Rabs (Landmark.x nose - Landmark.x left_eye) in
    let right_dist := Rabs (Landmark.x right_eye - Landmark.x nose) in
    let ratio :=
      (left_dist - right_dist) / (left_dist + right_dist + 0.001) in
    Ok (ratio * 45).

Definition EstimatePitch (landmarks : list Landmark) : result R :=
  if (List.length landmarks <? 468)%nat then Ok 0
  else
    nose_bridge <- at_ landmarks 168 ;;
    chin <- at_ landmarks 152 ;;
    forehead <- at_ landmarks 10 ;;
    let upper := Rabs (Landmark.y forehead - Landmark.y nose_bridge) in
    let lower := Rabs (Landmark.y chin - Landmark.y nose_bridge) in
    let ratio := (upper - lower) / (upper + lower + 0.001) in
    Ok (ratio * 30).

Definition EstimateRoll (landmarks : list Landmark) : result R :=
  if (List.length landmarks <? 468)%nat then Ok 0
  else
    left_eye <- at_ landmarks 33 ;;
    right_eye <- at_ landmarks 263 ;;
    let dx := Landmark.x right_eye - Landmark.x left_eye in
    let dy := Landmark.y right_eye - Landmark.y left_eye in
    Ok (atan2 dy dx * 180 / M_PI).

(** The private members of the processor. *)
Record state : Type := mkState {
  initialized_ : bool;
  max_yaw_ : R;
  max_pitch_ : R;
  capture_count_ : Z;
  max_captures_ : Z;
  last_landmarks_ : list Landmark
}.

(** The constructor. *)
Definition new : state :=
  {| initialized_ := false;
     max_yaw_ := 15;
     max_pitch_ := 15;
     capture_count_ := 0;
     max_captures_ := 5;
     last_landmarks_ := [] |}.

Definition initialize (s : state) : bool * state :=
  (true,
   {| initialized_ := true;
      max_yaw_ := max_yaw_ s;
      max_pitch_ := max_pitch_ s;
      capture_count_ := 0;
      max_captures_ := max_captures_ s;
      last_landmarks_ := last_landmarks_ s |}).

Definition isInitialized (s : state) : bool := initialized_ s.

Definition setMaxYaw (s : state) (degrees : R) : state :=
  {| initialized_ := initialized_ s;
     max_yaw_ := degrees;
     max_pitch_ := max_pitch_ s;
     capture_count_ := capture_count_ s;
     max_captures_ := max_captures_ s;
     last_landmarks_ := last_landmarks_ s |}.

Definition setMaxPitch (s : state) (degrees : R) : state :=
  {| initialized_ := initialized_ s;
     max_yaw_ := max_yaw_ s;
     max_pitch_ := degrees;
     capture_count_ := capture_count_ s;
     max_captures_ := max_captures_ s;
     last_landmarks_ := last_landmarks_ s |}.

Definition setMaxCaptures (s : state) (count : Z) : state :=
  {| initialized_ := initialized_ s;
     max_yaw_ := max_yaw_ s;
     max_pitch_ := max_pitch_ s;
     capture_count_ := capture_count_ s;
     max_captures_ := count;
     last_landmarks_ := last_landmarks_ s |}.

Definition getCaptureCount (s : state) : Z := capture_count_ s.

Definition resetCaptures (s : state) : state :=
  {| initialized_ := initialized_ s;
     max_yaw_ := max_yaw_ s;
     max_pitch_ := max_pitch_ s;
     capture_count_ := 0;
     max_captures_ := max_captures_ s;
     last_landmarks_ := last_landmarks_ s |}.

(** One simulated landmark of [processImageData] (the body of its loop). *)
Definition simulated (yaw_offset pitch_offset : R) (i : nat) : Landmark :=
  let center_x := 0.5 in
  let center_y := 0.5 in
  let face_width := 0.3 in
  let face_height := 0.4 in
  let angle := (INR i * 2 * M_PI) / 468 in
  let radius := if (i <? 234)%nat then face_width else face_width * 0.8 in
  Landmark.mk (center_x + radius * cos angle + yaw_offset)
              (center_y + face_height * sin angle + pitch_offset)
              (-0.05 + IZR (Z.rem (Z.of_nat i) 10) * 0.001).

(** [processImageData]: returns the landmarks and stores them in
    [last_landmarks_]. *)
Definition processImageData (s : state) (width height : Z)
  : list Landmark * state :=
  let landmarks :=
    if ((320 <=? width) && (240 <=? height))%Z%bool then
      let yaw_offset := (IZR (Z.rem width 30) - 15) / 1000 in
      let pitch_offset := (IZR (Z.rem height 20) - 10) / 1000 in
      map (simulated yaw_offset pitch_offset) (seq 0 468)
    else [] in
  (landmarks,
   {| initialized_ := initialized_ s;
      max_yaw_ := max_yaw_ s;
      max_pitch_ := max_pitch_ s;
      capture_count_ := capture_count_ s;
      max_captures_ := max_captures_ s;
      last_landmarks_ := landmarks |}).

(** The three bytes that follow the number in the two reject messages of
    [detectFace], as they stand in the source file. *)
Definition degree_bytes : string :=
  String (ascii_of_nat 236) (String (ascii_of_nat 167)
    (String (ascii_of_nat 184) EmptyString)).

(** The two threshold checks of [detectFace]. *)
Definition yaw_ok (s : state) (yaw : R) : bool :=
  if Rle_dec (Rabs yaw) (max_yaw_ s) then true else false.

Definition pitch_ok (s : state) (pitch : R) : bool :=
  if Rle_dec (Rabs pitch) (max_pitch_ s) then true else false.

(** The message of [detectFace] for a face of 468 landmarks. *)
Definition quality_message (s : state) (yaw pitch : R) : string :=
  if yaw_ok s yaw && pitch_ok s pitch then "Good quality face detected!"
  else if negb (yaw_ok s yaw) then
    "Face turned too much (Yaw: " ++ to_string (to_int yaw)
      ++ degree_bytes ++ ")"
  else if negb (pitch_ok s pitch) then
    "Face tilted too much (Pitch: " ++ to_string (to_int pitch)
      ++ degree_bytes ++ ")"
  else "".

(** The part of [detectFace] that follows [processImageData]: the size
    check, the three estimates, the threshold checks and the message. *)
Definition assess (s : state) (landmarks : list Landmark)
  : result FaceResult :=
  if (List.length landmarks =? 0)%nat || (List.length landmarks <? 468)%nat then
    Ok (mkFaceResult false 0 "No face detected" 0 0 0 false [])
  else
    yaw <- EstimateYaw landmarks ;;
    pitch <- EstimatePitch landmarks ;;
    roll <- EstimateRoll landmarks ;;
    let quality_good := yaw_ok s yaw && pitch_ok s pitch in
    let msg := quality_message s yaw pitch in
    Ok (mkFaceResult true (Z.of_nat (List.length landmarks)) msg
                     yaw pitch roll quality_good landmarks).

Definition detectFace (s : state) (width height : Z)
  : result (FaceResult * state) :=
  if negb (initialized_ s) then
    Ok (mkFaceResult false 0 "Error: Not initialized" 0 0 0 false [], s)
  else if ((width <? 100) || (height <? 100))%Z%bool then
    Ok (mkFaceResult false 0 "Image too small" 0 0 0 false [], s)
  else
    let '(landmarks, s') := processImageData s width height in
    r <- assess s' landmarks ;;
    Ok (r, s').

Definition getLandmark (s : state) (index : Z) : result Landmark :=
  if ((0 <=? index) && (index <? Z.of_nat (List.length (last_landmarks_ s))))%Z%bool
  then at_ (last_landmarks_ s) (Z.to_nat index)
  else Ok Landmark.default.

Definition captureFrame (s : state) (width height : Z)
  : result (bool * state) :=
  if (capture_count_ s >=? max_captures_ s)%Z then Ok (false, s)
  else
    rs <- detectFace s width height ;;
    let '(result, s') := rs in
    if detected result && quality_good result then
      Ok (true,
          {| initialized_ := initialized_ s';
             max_yaw_ := max_yaw_ s';
             max_pitch_ := max_pitch_ s';
             capture_count_ := capture_count_ s' + 1;
             max_captures_ := max_captures_ s';
             last_landmarks_ := last_landmarks_ s' |})
    else Ok (false, s').

Definition getStatus (s : state) : string :=
  if negb (initialized_ s) then "Not initialized"
  else ("Ready - Captured: " ++ to_string (capture_count_ s) ++ "/"
          ++ to_string (max_captures_ s))%string.

(** The operations bound for JavaScript that act on the processor. *)
Inductive Call : Type :=
| Initialize
| SetMaxYaw (degrees : R)
| SetMaxPitch (degrees : R)
| SetMaxCaptures (count : Z)
| DetectFace (width height : Z)
| CaptureFrame (width height : Z)
| ResetCaptures
| Query.  (* isInitialized, getVersion, getCaptureCount, getStatus,
             getConfig, getLandmark, getLandmarks: const methods *)

Definition call (c : Call) (s : state) : result state :=
  match c with
  | Initialize => Ok (snd (initialize s))
  | SetMaxYaw degrees => Ok (setMaxYaw s degrees)
  | SetMaxPitch degrees => Ok (setMaxPitch s degrees)
  | SetMaxCaptures count => Ok (setMaxCaptures s count)
  | DetectFace width height =>
      rs <- detectFace s width height ;; Ok (snd rs)
  | CaptureFrame width height =>
      rs <- captureFrame s width height ;; Ok (snd rs)
  | ResetCaptures => Ok (resetCaptures s)
  | Query => Ok s
  end.

Fixpoint calls (cs : list Call) (s : state) : result state :=
  match cs with
  | [] => Ok s
  | c :: cs' => s' <- call c s ;; calls cs' s'
  end.

(** A sequence of [captureFrame] calls: the returned booleans, in order,
    and the final state. *)
Fixpoint captures (s : state) (frames : list (Z * Z))
  : result (list bool * state) :=
  match frames with
  | [] => Ok ([], s)
  | (width, height) :: frames' =>
      r <- captureFrame s width height ;;
      r' <- captures (snd r) frames' ;;
      Ok (fst r :: fst r', snd r')
  end.

(** The loop of [getLandmarks]: one object with the fields x, y and z is
    pushed per index, read with the unchecked [last_landmarks_[i]]. *)
Fixpoint push_landmarks (v : list Landmark) (indices : list nat)
         (landmarks_array : list (R * R * R)) : result (list (R * R * R)) :=
  match indices with
  | [] => Ok landmarks_array
  | i :: indices' =>
      lm <- at_ v i ;;
      push_landmarks v indices'
        (landmarks_array
           ++ [(Landmark.x lm, Landmark.y lm, Landmark.z lm)])
  end.

Definition getLandmarks (s : state) : result (list (R * R * R)) :=
  push_landmarks (last_landmarks_ s)
    (seq 0 (List.length (last_landmarks_ s))) [].

End SmartFaceProcessor.

(** ** The specification's formulas

    Definitions that follow the words of the specification, to be compared
    with the functions above. *)

Module Spec.

Definition degrees (radians : R) : R := radians * (180 / PI).

(** "atan2(leftEar.z - rightEar.z, leftEar.x - rightEar.x) converted to
    degrees". *)
Definition depth_yaw (leftEar rightEar : Landmark) : R :=
  degrees (atan2 (Landmark.z leftEar - Landmark.z rightEar)
                 (Landmark.x leftEar - Landmark.x rightEar)).

(** "atan2(nose.y - earMidY, nose.z) in degrees, where earMidY is the
    average y of the two ear landmarks". *)
Definition depth_pitch (nose leftEar rightEar : Landmark) : R :=
  let earMidY := (Landmark.y leftEar + Landmark.y rightEar) / 2 in
  degrees (atan2 (Landmark.y nose - earMidY) (Landmark.z nose)).

Definition epsilon : R := 0.001.

(** "((leftDist - rightDist) / (leftDist + rightDist + epsilon)) x 45". *)
Definition ratio (a b : R) : R := (a - b) / (a + b + epsilon).

Definition ratio_yaw (nose leftEye rightEye : Landmark) : R :=
  let leftDist := Rabs (Landmark.x nose - Landmark.x leftEye) in
  let rightDist := Rabs (Landmark.x rightEye - Landmark.x nose) in
  ratio leftDist rightDist * 45.

Definition ratio_pitch (forehead noseBridge chin : Landmark) : R :=
  let upper := Rabs (Landmark.y forehead - Landmark.y noseBridge) in
  let lower := Rabs (Landmark.y chin - Landmark.y noseBridge) in
  ratio upper lower * 30.

(** "roll = atan2(dy, dx) between the two eye-outer-corner landmarks, in
    degrees". *)
Definition ratio_roll (leftEye rightEye : Landmark) : R :=
  degrees (atan2 (Landmark.y rightEye - Landmark.y leftEye)
                 (Landmark.x rightEye - Landmark.x leftEye)).

(** Minimum and maximum of a list of coordinates (of its first element
    and the rest). *)
Definition minimum (l : list Binary32.t) : Binary32.t :=
  match l with
  | [] => Binary32.finite 0
  | a :: l' => fold_left Binary32.min l' a
  end.

Definition maximum (l : list Binary32.t) : Binary32.t :=
  match l with
  | [] => Binary32.finite 0
  | a :: l' => fold_left Binary32.max l' a
  end.

(** The x and the y coordinates of the landmarks, as the [float] values
    they are. *)
Definition xs (landmarks : list Landmark) : list Binary32.t :=
  map (fun lm => Binary32.round (Landmark.x lm)) landmarks.

Definition ys (landmarks : list Landmark) : list Binary32.t :=
  map (fun lm => Binary32.round (Landmark.y lm)) landmarks.

(** The five steps of the RegionCropper contract, in the number types of
    the data model (coordinates and padding are floats, pixel counts are
    ints). *)
Definition RegionCropper (landmarks : list Landmark) (imgW imgH : Z)
           (padding : R) : option SmartCaptureCalculator.Rect :=
  (* 1 *)
  let min_x := minimum (xs landmarks) in
  let max_x := maximum (xs landmarks) in
  let min_y := minimum (ys landmarks) in
  let max_y := maximum (ys landmarks) in
  (* 2 *)
  let w := Binary32.to_int32
             (Binary32.mul (Binary32.sub max_x min_x)
                           (Binary32.of_int imgW)) in
  let h := Binary32.to_int32
             (Binary32.mul (Binary32.sub max_y min_y)
                           (Binary32.of_int imgH)) in
  let cx := Binary32.to_int32
              (Binary32.add (Binary32.mul min_x (Binary32.of_int imgW))
                            (Binary32.of_int (Z.quot w 2))) in
  let cy := Binary32.to_int32
              (Binary32.add (Binary32.mul min_y (Binary32.of_int imgH))
                            (Binary32.of_int (Z.quot h 2))) in
  (* 3 *)
  let padW := Binary32.to_int32
                (Binary32.mul (Binary32.of_int w)
                   (Binary32.add (Binary32.finite 1)
                                 (Binary32.round padding))) in
  let padH := Binary32.to_int32
                (Binary32.mul (Binary32.of_int h)
                   (Binary32.add (Binary32.finite 1)
                                 (Binary32.round padding))) in
  let x := wrap_int (cx - Z.quot padW 2) in
  let y := wrap_int (cy - Z.quot padH 2) in
  (* 4 *)
  let x := Z.max 0 x in
  let y := Z.max 0 y in
  let padW := Z.min padW (imgW - x) in
  let padH := Z.min padH (imgH - y) in
  (* 5 *)
  if ((0 <? padW) && (0 <? padH))%Z%bool
  then Some (SmartCaptureCalculator.mkRect x y padW padH)
  else None.

(** "x, y normalized to [0,1]". *)
Definition normalized (lm : Landmark) : Prop :=
  0 <= Landmark.x lm <= 1 /\ 0 <= Landmark.y lm <= 1.

(** The four reason strings of the QualityGate. *)
Definition reasons : list string :=
  ["No face detected"; "Face turned too much (Yaw)";
   "Face tilted up/down too much (Pitch)"; "Captured!"]%string.

(** The outcomes of the QualityGate and its decision order: "no-face check
    first, then yaw magnitude vs max_yaw_degrees, then pitch magnitude vs an
    effective pitch threshold". *)
Inductive Decision : Type := Accept | RejectYaw | RejectPitch | RejectNoFace.

Definition QualityGate (no_face : bool) (max_yaw pitch_threshold : R)
           (yaw pitch : R) : Decision :=
  if no_face then RejectNoFace
  else if Rgt_dec (Rabs yaw) max_yaw then RejectYaw
  else if Rgt_dec (Rabs pitch) pitch_threshold then RejectPitch
  else Accept.

(** The reason string carried by each outcome. *)
Definition reason (d : Decision) : string :=
  match d with
  | RejectNoFace => "No face detected"
  | RejectYaw => "Face turned too much (Yaw)"
  | RejectPitch => "Face tilted up/down too much (Pitch)"
  | Accept => "Captured!"
  end.

End Spec.

(** ** Gate decisions and the counter invariant *)

(** The calculator's gate accepts the frame: both inputs are present, the
    three landmarks of the first face can be read, and both angles are
    within the thresholds. *)
Definition calculator_accepts (s : SmartCaptureCalculator.state)
           (cc : SmartCaptureCalculator.CalculatorContext) : Prop :=
  exists img l rest yaw pitch,
    SmartCaptureCalculator.IMAGE cc = Some img
    /\ SmartCaptureCalculator.LANDMARKS cc = Some (l :: rest)
    /\ SmartCaptureCalculator.pose l = Ok (yaw, pitch)
    /\ Rabs yaw <= SmartCaptureCalculator.max_yaw_ s
    /\ Rabs pitch <= SmartCaptureCalculator.max_pitch_ s * 2.

(** [detectFace] on a frame of the given size reports a detected face of
    good quality. *)
Definition processor_accepts (s : SmartFaceProcessor.state)
           (frame : Z * Z) : Prop :=
  exists r s',
    SmartFaceProcessor.detectFace s (fst frame) (snd frame) = Ok (r, s')
    /\ SmartFaceProcessor.detected r = true
    /\ SmartFaceProcessor.quality_good r = true.

(** 0 <= current_count <= max_captures, at each call site. *)
Definition calculator_invariant (s : SmartCaptureCalculator.state) : Prop :=
  (0 <= SmartCaptureCalculator.current_count_ s
     <= SmartCaptureCalculator.max_captures_ s)%Z.

Definition processor_invariant (s : SmartFaceProcessor.state) : Prop :=
  (0 <= SmartFaceProcessor.capture_count_ s
     <= SmartFaceProcessor.max_captures_ s)%Z.

(** The configuration fields of the processor, which [captureFrame] and
    [detectFace] leave alone. *)
Definition same_config (s s' : SmartFaceProcessor.state) : Prop :=
  SmartFaceProcessor.initialized_ s' = SmartFaceProcessor.initialized_ s
  /\ SmartFaceProcessor.max_yaw_ s' = SmartFaceProcessor.max_yaw_ s
  /\ SmartFaceProcessor.max_pitch_ s' = SmartFaceProcessor.max_pitch_ s
  /\ SmartFaceProcessor.max_captures_ s' = SmartFaceProcessor.max_captures_ s.

(** A call that keeps the counter below the limit: any call but a
    [setMaxCaptures] below the current count. *)
Definition keeps_limit (c : SmartFaceProcessor.Call)
           (s : SmartFaceProcessor.state) : Prop :=
  match c with
  | SmartFaceProcessor.SetMaxCaptures count =>
      (SmartFaceProcessor.capture_count_ s <= count)%Z
  | _ => True
  end.

(** A sequence of calls, from state [s], in which every call keeps the
    limit when it is made. *)
Fixpoint keep_limit (cs : list SmartFaceProcessor.Call)
         (s : SmartFaceProcessor.state) : Prop :=
  match cs with
  | [] => True
  | c :: cs' =>
      keeps_limit c s
      /\ forall s', SmartFaceProcessor.call c s = Ok s' -> keep_limit cs' s'
  end.

(** The first face of the frame, if there is one, has the landmarks that
    [Process] reads (indices 1, 234 and 454). *)
Definition readable (cc : SmartCaptureCalculator.CalculatorContext) : Prop :=
  forall l rest,
    SmartCaptureCalculator.LANDMARKS cc = Some (l :: rest) ->
    (454 < List.length l)%nat.

(** A call that resets the counter. *)
Definition resets (c : SmartFaceProcessor.Call) : bool :=
  match c with
  | SmartFaceProcessor.Initialize | SmartFaceProcessor.ResetCaptures => true
  | _ => false
  end.

(** A processor that accepts every frame the simulated landmarks are
    produced for: initialized, with thresholds of 45 and 30 degrees. *)
Definition lenient_processor : SmartFaceProcessor.state :=
  SmartFaceProcessor.setMaxPitch
    (SmartFaceProcessor.setMaxYaw
       (snd (SmartFaceProcessor.initialize SmartFaceProcessor.new)) 45) 30.

(** The message that the WASM processor attaches to each outcome: the two
    reject messages carry the truncated angle. *)
Definition processor_reason (d : Spec.Decision) (yaw pitch : R) : string :=
  match d with
  | Spec.RejectNoFace => "No face detected"
  | Spec.RejectYaw =>
      "Face turned too much (Yaw: " ++ to_string (to_int yaw)
        ++ SmartFaceProcessor.degree_bytes ++ ")"
  | Spec.RejectPitch =>
      "Face tilted too much (Pitch: " ++ to_string (to_int pitch)
        ++ SmartFaceProcessor.degree_bytes ++ ")"
  | Spec.Accept => "Good quality face detected!"
  end.

(** ** Example inputs *)

(** A face of [n] landmarks, all at the origin. *)
Definition blank (n : nat) : list Landmark := repeat Landmark.default n.

(** 468 landmarks, all zero except the two ear landmarks 234 and 454. *)
Definition ears_example : list Landmark :=
  blank 234 ++ [Landmark.mk (-0.3) 0 0.1]
    ++ blank 219 ++ [Landmark.mk 0.3 0 (-0.1)] ++ blank 13.

(** 468 landmarks, all zero except the eye corners 33 and 263, which have
    the same y, with landmark 263 to the left of landmark 33. *)
Definition crossed_eyes : list Landmark :=
  blank 33 ++ [Landmark.mk 0.6 0.5 0]
    ++ blank 229 ++ [Landmark.mk 0.4 0.5 0] ++ blank 204.

(** 468 landmarks, all zero except the nose (1) and the eye corners 33 and
    263, which are level and symmetric about the nose in x. *)
Definition level_eyes : list Landmark :=
  [Landmark.default; Landmark.mk 0.5 0.5 0] ++ blank 31
    ++ [Landmark.mk 0.3 0.4 0] ++ blank 229
    ++ [Landmark.mk 0.7 0.4 0] ++ blank 204.

(** 468 landmarks for which the depth-based pitch is 18 degrees: the nose
    at height tan(pi/10) and depth 1, the ears at the origin. *)
Definition pitch18_face : list Landmark :=
  [Landmark.default; Landmark.mk 0 (tan (PI / 10)) 1] ++ blank 466.

(** 468 landmarks for which the ratio-based pitch is 18 degrees: the
    forehead (10) 0.0015 above the nose bridge and the chin. *)
Definition pitch18_mesh : list Landmark :=
  blank 10 ++ [Landmark.mk 0 0.0015 0] ++ blank 457.

(** 468 landmarks that span the normalized box [0.2,0.2]-[0.6,0.7]. *)
Definition box_example : list Landmark :=
  Landmark.mk 0.2 0.2 0 :: Landmark.mk 0.6 0.7 0
    :: repeat (Landmark.mk 0.4 0.45 0) 466.

(** 468 landmarks that span the normalized box [0.2,0.2]-[0.5996,0.7]. *)
Definition narrow_box_example : list Landmark :=
  Landmark.mk 0.2 0.2 0 :: Landmark.mk 0.5996 0.7 0
    :: repeat (Landmark.mk 0.4 0.45 0) 466.

(** 468 landmarks that span the box [0,0]-[0.01,0.5]. *)
Definition tiny_box_example : list Landmark :=
  Landmark.default :: Landmark.mk 0.01 0.5 0 :: blank 466.

(** 468 landmarks to the right of the image: x between 1.25 and 1.5, y
    between 0.25 and 0.75. *)
Definition off_image_example : list Landmark :=
  Landmark.mk 1.25 0.25 0 :: Landmark.mk 1.5 0.75 0
    :: repeat (Landmark.mk 1.375 0.5 0) 466.

(** Options of the calculator used in the examples. *)
Definition example_options : SmartCaptureCalculator.Options :=
  SmartCaptureCalculator.mkOptions 5 15 15 0.2.

(** A frame of 1000x1000 pixels with one face, STATUS connected. *)
Definition frame_of (face : list Landmark)
  : SmartCaptureCalculator.CalculatorContext :=
  SmartCaptureCalculator.mkContext
    (Some (SmartCaptureCalculator.mkImage 1000 1000)) (Some [face]) true.

(** The calculator and the processor configured with a maximal pitch of
    10 degrees (and a maximal yaw of 15 degrees). *)
Definition pitch10_options : SmartCaptureCalculator.Options :=
  SmartCaptureCalculator.mkOptions 5 15 10 0.2.

Definition pitch10_processor : SmartFaceProcessor.state :=
  SmartFaceProcessor.setMaxPitch
    (snd (SmartFaceProcessor.initialize SmartFaceProcessor.new)) 10.

(** A processor that holds three stored landmarks. *)
Definition three_landmarks : SmartFaceProcessor.state :=
  SmartFaceProcessor.mkState true 15 15 0 5
    [Landmark.mk 0.1 0.2 0.3; Landmark.mk 0.4 0.5 0.6; Landmark.mk 0.7 0.8 0.9].

(** ** Auxiliary notions for the further properties *)

(** A landmark moved by (dx, dy, dz). *)
Definition shift (dx dy dz : R) (lm : Landmark) : Landmark :=
  Landmark.mk (Landmark.x lm + dx) (Landmark.y lm + dy) (Landmark.z lm + dz).

(** The object that [getLandmarks] pushes for a landmark. *)
Definition as_object (lm : Landmark) : R * R * R :=
  (Landmark.x lm, Landmark.y lm, Landmark.z lm).

(** The number of CROPPED_FACE packets in an output. *)
Definition is_crop (p : SmartCaptureCalculator.Packet) : bool :=
  match p with
  | SmartCaptureCalculator.CROPPED_FACE _ => true
  | SmartCaptureCalculator.STATUS _ => false
  end.

Definition crops (out : list SmartCaptureCalculator.Packet) : nat :=
  List.length (filter is_crop out).

(** The number of successful captures among the results of [captureFrame]. *)
Definition successes (results : list bool) : nat :=
  List.length (filter (fun b : bool => b) results).

(** The configuration of the calculator, which [Process] leaves alone. *)
Definition same_options (s s' : SmartCaptureCalculator.state) : Prop :=
  SmartCaptureCalculator.max_captures_ s'
  = SmartCaptureCalculator.max_captures_ s
  /\ SmartCaptureCalculator.max_yaw_ s' = SmartCaptureCalculator.max_yaw_ s
  /\ SmartCaptureCalculator.max_pitch_ s'
     = SmartCaptureCalculator.max_pitch_ s
  /\ SmartCaptureCalculator.padding_ s' = SmartCaptureCalculator.padding_ s.

(** A rectangle that is not empty and lies inside the image. *)
Definition inside (roi : SmartCaptureCalculator.Rect)
           (img : SmartCaptureCalculator.ImageFrame) : Prop :=
  (0 <= SmartCaptureCalculator.rect_x roi
   /\ 0 <= SmartCaptureCalculator.rect_y roi
   /\ 0 < SmartCaptureCalculator.rect_width roi
   /\ 0 < SmartCaptureCalculator.rect_height roi
   /\ SmartCaptureCalculator.rect_x roi
        + SmartCaptureCalculator.rect_width roi
      <= SmartCaptureCalculator.cols img
   /\ SmartCaptureCalculator.rect_y roi
        + SmartCaptureCalculator.rect_height roi
      <= SmartCaptureCalculator.rows img)%Z.

(** An initialized processor with the thresholds of the constructor. *)
Definition default_processor : SmartFaceProcessor.state :=
  snd (SmartFaceProcessor.initialize SmartFaceProcessor.new).

(** A processor that has reached its limit of five captures, with
    thresholds of 45 and 30 degrees. *)
Definition full_processor : SmartFaceProcessor.state :=
  SmartFaceProcessor.mkState true 45 30 5 5 [].

(** 468 landmarks on one vertical line. *)
Definition line_face : list Landmark := repeat (Landmark.mk 0.5 0.5 0) 468.

(** 468 landmarks that span the box [0,0]-[0.75,0.75], with the nose and
    the ears at the origin. *)
Definition framed_face : list Landmark :=
  [Landmark.default; Landmark.default; Landmark.mk 0.75 0.75 0] ++ blank 465.

(** What [Process] sends for a captured face that is cropped to [roi]. *)
Definition captured (roi : SmartCaptureCalculator.Rect)
  : list SmartCaptureCalculator.Packet :=
  [SmartCaptureCalculator.STATUS "Captured!";
   SmartCaptureCalculator.CROPPED_FACE roi].

(** What a result of [detectFace] always satisfies. *)
Definition well_formed_result (s : SmartFaceProcessor.state)
           (r : SmartFaceProcessor.FaceResult) : Prop :=
  SmartFaceProcessor.landmark_count r
  = Z.of_nat (List.length (SmartFaceProcessor.landmarks r))
  /\ (SmartFaceProcessor.detected r = true
      <-> List.length (SmartFaceProcessor.landmarks r) = 468%nat)
  /\ (SmartFaceProcessor.detected r = false ->
      SmartFaceProcessor.landmarks r = []
      /\ SmartFaceProcessor.yaw r = 0 /\ SmartFaceProcessor.pitch r = 0
      /\ SmartFaceProcessor.roll r = 0
      /\ SmartFaceProcessor.quality_good r = false)
  /\ (SmartFaceProcessor.quality_good r = true ->
      SmartFaceProcessor.detected r = true
      /\ Rabs (SmartFaceProcessor.yaw r) <= SmartFaceProcessor.max_yaw_ s
      /\ Rabs (SmartFaceProcessor.pitch r) <= SmartFaceProcessor.max_pitch_ s)
  /\ Rabs (SmartFaceProcessor.yaw r) < 45
  /\ Rabs (SmartFaceProcessor.pitch r) < 30
  /\ -180 < SmartFaceProcessor.roll r <= 180.

(** Two results of [detectFace] that agree on everything but the attached
    landmarks. *)
Definition same_assessment (r r' : SmartFaceProcessor.FaceResult) : Prop :=
  SmartFaceProcessor.detected r' = SmartFaceProcessor.detected r
  /\ SmartFaceProcessor.landmark_count r'
     = SmartFaceProcessor.landmark_count r
  /\ SmartFaceProcessor.message r' = SmartFaceProcessor.message r
  /\ SmartFaceProcessor.yaw r' = SmartFaceProcessor.yaw r
  /\ SmartFaceProcessor.pitch r' = SmartFaceProcessor.pitch r
  /\ SmartFaceProcessor.roll r' = SmartFaceProcessor.roll r
  /\ SmartFaceProcessor.quality_good r' = SmartFaceProcessor.quality_good r.

(** The simulated landmarks without the offsets. *)
Definition centered_face : list Landmark :=
  map (SmartFaceProcessor.simulated 0 0) (seq 0 468).

(** ** Numeric lemmas *)

Lemma to_int_IZR (n : Z) : to_int (IZR n) = n.
Proof.
  unfold to_int.
  destruct (Rle_dec 0 (IZR n)) as [_ | _].
  - symmetry. apply Int_part_spec. lra.
  - rewrite <- opp_IZR.
    replace (Int_part (IZR (- n))) with (- n)%Z; [lia |].
    apply Int_part_spec. lra.
Qed.

(** Truncation of a non-negative value: the integer just below it. *)
Lemma to_int_floor (n : Z) (r : R) :
  0 <= r -> IZR n <= r < IZR n + 1 -> to_int r = n.
Proof.
  intros H0 [Hl Hu]. unfold to_int.
  destruct (Rle_dec 0 r) as [_ | N]; [| contradiction].
  symmetry. apply Int_part_spec. lra.
Qed.

(** Truncation of a negative value goes up, toward zero. *)
Lemma to_int_ceil (n : Z) (r : R) :
  r < 0 -> IZR n - 1 < r <= IZR n -> to_int r = n.
Proof.
  intros H0 [Hl Hu]. unfold to_int.
  destruct (Rle_dec 0 r) as [P | _]; [lra |].
  replace (Int_part (- r)) with (- n)%Z; [lia |].
  apply Int_part_spec. rewrite opp_IZR. lra.
Qed.

(** ** Single precision: powers of two, rounding to an integer, the exponent,
    rounding to a float *)

Section Binary32Facts.
Import Binary32.

Lemma bpow_powerRZ (e : Z) : bpow e = powerRZ 2 e.
Proof.
  destruct e as [| p | p]; cbn [bpow].
  - reflexivity.
  - apply Zpower_pos_powerRZ.
  - rewrite Zpower_pos_powerRZ. reflexivity.
Qed.

Lemma bpow_gt_0 (e : Z) : 0 < bpow e.
Proof. rewrite bpow_powerRZ. apply powerRZ_lt. lra. Qed.

Lemma bpow_add (a b : Z) : bpow (a + b) = bpow a * bpow b.
Proof. rewrite !bpow_powerRZ. apply powerRZ_add. lra. Qed.

Lemma bpow_nonneg (n : Z) : (0 <= n)%Z -> bpow n = IZR (2 ^ n).
Proof.
  intros H. destruct n as [| p | p]; [reflexivity | reflexivity | lia].
Qed.

Lemma bpow_ge_1 (n : Z) : (0 <= n)%Z -> 1 <= bpow n.
Proof.
  intros H. rewrite bpow_nonneg by exact H.
  apply IZR_le. pose proof (Z.pow_pos_nonneg 2 n). lia.
Qed.

Lemma bpow_le (a b : Z) : (a <= b)%Z -> bpow a <= bpow b.
Proof.
  intros H. replace b with (a + (b - a))%Z by lia. rewrite bpow_add.
  pose proof (bpow_gt_0 a). pose proof (bpow_ge_1 (b - a) ltac:(lia)). nra.
Qed.

Lemma bpow_opp (e : Z) : bpow (- e) = / bpow e.
Proof. rewrite !bpow_powerRZ. apply powerRZ_neg'. Qed.

(** ** Rounding to the nearest integer *)

Lemma Int_part_bounds (x : R) : IZR (Int_part x) <= x < IZR (Int_part x) + 1.
Proof. destruct (base_Int_part x). lra. Qed.

Lemma rne_nearest (x : R) (m : Z) : Rabs (x - IZR m) < 1 / 2 -> rne x = m.
Proof.
  intros H. apply Rabs_def2 in H. destruct H as [Hu Hl].
  pose proof (Int_part_bounds x) as [Hn0 Hn1]. unfold rne.
  set (n := Int_part x) in *.
  assert (Hm : (m = n \/ m = n + 1)%Z).
  { assert (H1 : (m < n + 2)%Z)
      by (apply lt_IZR; rewrite plus_IZR; lra).
    assert (H2 : (n - 1 < m)%Z)
      by (apply lt_IZR; rewrite minus_IZR; lra).
    lia. }
  destruct (Rlt_dec (x - IZR n) (1 / 2)) as [Hlo | Hlo].
  - destruct Hm as [-> | ->]; [reflexivity |].
    rewrite plus_IZR in Hl. lra.
  - destruct (Rlt_dec (1 / 2) (x - IZR n)) as [Hhi | Hhi].
    + destruct Hm as [-> | ->]; [lra | reflexivity].
    + destruct Hm as [-> | ->]; [lra |]. rewrite plus_IZR in Hl. lra.
Qed.

Lemma rne_tie (x : R) (m : Z) :
  Rabs (x - IZR m) = 1 / 2 -> Z.even m = true -> rne x = m.
Proof.
  intros H He.
  pose proof (Int_part_bounds x) as [Hn0 Hn1]. unfold rne.
  set (n := Int_part x) in *.
  assert (Hm : (m = n /\ x - IZR n = 1 / 2)
               \/ (m = (n + 1)%Z /\ x - IZR n = 1 / 2)).
  { destruct (Rcase_abs (x - IZR m)) as [Hneg | Hpos].
    - rewrite Rabs_left in H by exact Hneg. right.
      assert (H1 : (m < n + 2)%Z) by (apply lt_IZR; rewrite plus_IZR; lra).
      assert (H2 : (n < m)%Z) by (apply lt_IZR; lra).
      assert (E : m = (n + 1)%Z) by lia.
      split; [exact E |]. rewrite E, plus_IZR in H. lra.
    - rewrite Rabs_right in H by exact Hpos. left.
      assert (H1 : (m < n + 1)%Z) by (apply lt_IZR; rewrite plus_IZR; lra).
      assert (H2 : (n - 1 < m)%Z) by (apply lt_IZR; rewrite minus_IZR; lra).
      assert (E : m = n) by lia.
      split; [exact E |]. rewrite E in H. lra. }
  destruct (Rlt_dec (x - IZR n) (1 / 2)) as [Hlo | _]; [lra |].
  destruct (Rlt_dec (1 / 2) (x - IZR n)) as [Hhi | _]; [lra |].
  destruct Hm as [[-> _] | [-> _]].
  - rewrite He. reflexivity.
  - destruct (Z.even n) eqn:En; [| reflexivity].
    rewrite Z.add_1_r, Z.even_succ, <- Z.negb_even, En in He. discriminate He.
Qed.

Lemma rne_IZR (n : Z) : rne (IZR n) = n.
Proof.
  apply rne_nearest. replace (IZR n - IZR n) with 0 by ring.
  rewrite Rabs_R0. lra.
Qed.

Lemma rne_le (x : R) (n : Z) : x <= IZR n -> (rne x <= n)%Z.
Proof.
  intros H. pose proof (Int_part_bounds x) as [Hn0 Hn1]. unfold rne.
  set (k := Int_part x) in *.
  assert (Hk : (k <= n)%Z) by (apply le_IZR; lra).
  destruct (Rlt_dec (x - IZR k) (1 / 2)) as [Hlo | Hlo]; [exact Hk |].
  assert (Hk' : (k < n)%Z) by (apply lt_IZR; lra).
  destruct (Rlt_dec (1 / 2) (x - IZR k)); [lia |].
  destruct (Z.even k); lia.
Qed.

Lemma rne_ge (x : R) (n : Z) : IZR n <= x -> (n <= rne x)%Z.
Proof.
  intros H. pose proof (Int_part_bounds x) as [Hn0 Hn1]. unfold rne.
  set (k := Int_part x) in *.
  assert (Hk : (n < k + 1)%Z) by (apply lt_IZR; rewrite plus_IZR; lra).
  destruct (Rlt_dec (x - IZR k) (1 / 2)); [lia |].
  destruct (Rlt_dec (1 / 2) (x - IZR k)); [lia |].
  destruct (Z.even k); lia.
Qed.

(** ** The exponent *)

Lemma cexp_from_spec (n : nat) :
  forall (e : Z) (a : R),
    let c := cexp_from n e a in
    (e <= c <= e + Z.of_nat n)%Z
    /\ (a < bpow (c + 24) \/ c = (e + Z.of_nat n)%Z)
    /\ (c = e \/ bpow (c + 23) <= a).
Proof.
  induction n as [| n IH]; intros e a; cbn [cexp_from].
  - cbv zeta. split; [cbn; lia |]. split; [right; cbn; lia | left; reflexivity].
  - destruct (Rlt_dec a (bpow (e + 24))) as [Hlt | Hge].
    + cbv zeta. split; [lia |]. split; [left; exact Hlt | left; reflexivity].
    + specialize (IH (e + 1)%Z a). cbv zeta in IH |- *.
      destruct IH as (Hr & Hu & Hl).
      split; [lia |]. split.
      * destruct Hu as [Hu | Hu]; [left; exact Hu | right; lia].
      * right. destruct Hl as [-> | Hl]; [| exact Hl].
        replace (e + 1 + 23)%Z with (e + 24)%Z by lia. lra.
Qed.

Lemma cexp_range (x : R) : (-149 <= cexp x <= 104)%Z.
Proof.
  destruct (cexp_from_spec 253 (-149) (Rabs x)) as (H & _).
  unfold cexp. cbv zeta in H. lia.
Qed.

Lemma cexp_upper (x : R) : Rabs x < bpow (cexp x + 24) \/ cexp x = 104%Z.
Proof.
  destruct (cexp_from_spec 253 (-149) (Rabs x)) as (_ & H & _).
  unfold cexp. cbv zeta in H. destruct H as [H | H]; [left; exact H |].
  right. rewrite H. reflexivity.
Qed.

Lemma cexp_lower (x : R) :
  cexp x = (-149)%Z \/ bpow (cexp x + 23) <= Rabs x.
Proof.
  destruct (cexp_from_spec 253 (-149) (Rabs x)) as (_ & _ & H).
  exact H.
Qed.

Lemma cexp_eq (x : R) (e : Z) :
  (-149 <= e <= 104)%Z ->
  Rabs x < bpow (e + 24) \/ e = 104%Z ->
  e = (-149)%Z \/ bpow (e + 23) <= Rabs x ->
  cexp x = e.
Proof.
  intros He Hu Hl.
  pose proof (cexp_range x) as Hc.
  pose proof (cexp_upper x) as Hcu. pose proof (cexp_lower x) as Hcl.
  destruct (Z.lt_trichotomy (cexp x) e) as [Hlt | [Heq | Hgt]];
    [exfalso | exact Heq | exfalso].
  - destruct Hcu as [Hcu | Hcu]; [| lia].
    destruct Hl as [Hl | Hl]; [lia |].
    pose proof (bpow_le (cexp x + 24) (e + 23) ltac:(lia)). lra.
  - destruct Hu as [Hu | Hu]; [| lia].
    destruct Hcl as [Hcl | Hcl]; [lia |].
    pose proof (bpow_le (e + 24) (cexp x + 23) ltac:(lia)). lra.
Qed.

Lemma cexp_le (x : R) (e : Z) :
  (-149 <= e)%Z -> Rabs x < bpow (e + 24) -> (cexp x <= e)%Z.
Proof.
  intros He Hu. pose proof (cexp_lower x) as Hcl.
  destruct (Z_le_gt_dec (cexp x) e) as [H | H]; [exact H | exfalso].
  destruct Hcl as [Hcl | Hcl]; [lia |].
  pose proof (bpow_le (e + 24) (cexp x + 23) ltac:(lia)). lra.
Qed.

(** ** Rounding to single precision *)

Lemma round_finite_eq (x : R) :
  (cexp x < 104 \/ Z.abs (rne (x / bpow (cexp x))) < 2 ^ 24)%Z ->
  round x = finite (IZR (rne (x / bpow (cexp x))) * bpow (cexp x)).
Proof.
  intros H. unfold round. cbv zeta.
  destruct (Z.eqb_spec (cexp x) 104) as [E | N]; cbn [andb]; [| reflexivity].
  destruct (Z.leb_spec (2 ^ 24) (Z.abs (rne (x / bpow (cexp x)))));
    [lia | reflexivity].
Qed.

(** The value of a rounding, from the exponent [e] and the mantissa [m] of
    the result. *)
Lemma round_intro (x v : R) (e m : Z) :
  (-149 <= e <= 104)%Z ->
  Rabs x < bpow (e + 24) ->
  e = (-149)%Z \/ bpow (e + 23) <= Rabs x ->
  Rabs (x - IZR m * bpow e) < bpow e / 2
  \/ (Rabs (x - IZR m * bpow e) = bpow e / 2 /\ Z.even m = true) ->
  (e < 104 \/ Z.abs m < 2 ^ 24)%Z ->
  v = IZR m * bpow e ->
  round x = finite v.
Proof.
  intros He Hu Hl Hm Hov ->.
  assert (Hc : cexp x = e) by (apply cexp_eq; [exact He | left; exact Hu | exact Hl]).
  pose proof (bpow_gt_0 e) as Hp.
  assert (Hr : rne (x / bpow e) = m).
  { assert (E : x / bpow e - IZR m = (x - IZR m * bpow e) / bpow e)
      by (field; lra).
    assert (A : Rabs (x / bpow e - IZR m)
                = Rabs (x - IZR m * bpow e) / bpow e).
    { rewrite E. unfold Rdiv. rewrite Rabs_mult.
      rewrite (Rabs_pos_eq (/ bpow e)); [reflexivity |].
      left. apply Rinv_0_lt_compat. exact Hp. }
    destruct Hm as [Hm | [Hm Hev]].
    - apply rne_nearest. rewrite A.
      apply Rmult_lt_reg_r with (bpow e); [exact Hp |].
      unfold Rdiv. rewrite Rmult_assoc, Rinv_l by lra. lra.
    - apply rne_tie; [| exact Hev]. rewrite A, Hm. field. lra. }
  rewrite round_finite_eq; rewrite Hc, Hr; [reflexivity | exact Hov].
Qed.

(** A value with a mantissa below 2^24 is not changed. *)
Lemma round_exact (x : R) (m e : Z) :
  (Z.abs m < 2 ^ 24)%Z -> (-149 <= e <= 104)%Z ->
  x = IZR m * bpow e ->
  round x = finite x.
Proof.
  intros Hm He Hx.
  pose proof (bpow_gt_0 e) as Hp.
  assert (Habs : Rabs x = IZR (Z.abs m) * bpow e).
  { rewrite Hx, Rabs_mult, (Rabs_pos_eq (bpow e)) by lra.
    rewrite <- abs_IZR. reflexivity. }
  assert (Hlt : Rabs x < bpow (e + 24)).
  { rewrite Habs, bpow_add, (bpow_nonneg 24) by lia.
    apply IZR_lt in Hm. rewrite Rmult_comm. nra. }
  pose proof (cexp_range x) as Hcr.
  pose proof (cexp_le x e (proj1 He) Hlt) as Hce.
  set (c := cexp x) in *.
  pose proof (bpow_gt_0 c) as Hpc.
  assert (Hsplit : bpow e = IZR (2 ^ (e - c)) * bpow c).
  { rewrite <- (bpow_nonneg (e - c)) by lia. rewrite <- bpow_add.
    f_equal. lia. }
  assert (Hq : x / bpow c = IZR (m * 2 ^ (e - c))).
  { rewrite Hx, Hsplit, mult_IZR. field. lra. }
  rewrite round_finite_eq; fold c; rewrite Hq, rne_IZR.
  - f_equal. rewrite mult_IZR, Hx, Hsplit. ring.
  - destruct (Z.eqb_spec c 104) as [E | N]; [right | left; lia].
    assert (e = c) by lia. subst e. rewrite Z.sub_diag. cbn. lia.
Qed.

Lemma round_0 : round 0 = finite 0.
Proof. apply (round_exact 0 0 0); [cbn; lia | lia | cbn; ring]. Qed.

Lemma round_IZR (n : Z) : (Z.abs n < 2 ^ 24)%Z -> round (IZR n) = finite (IZR n).
Proof.
  intros H. apply (round_exact (IZR n) n 0); [exact H | lia | cbn; ring].
Qed.

(** Values of magnitude below 2^127 round to finite values. *)
Lemma round_finite_small (x : R) :
  Rabs x < bpow 127 -> exists r, round x = finite r.
Proof.
  intros H. eexists. apply round_finite_eq. left.
  assert (Hc : (cexp x <= 103)%Z) by (apply cexp_le; [lia | exact H]).
  lia.
Qed.

(** A value in [0,1] rounds into [0,1]. *)
Lemma round_unit (x : R) :
  0 <= x <= 1 -> exists r, round x = finite r /\ 0 <= r <= 1.
Proof.
  intros [H0 H1].
  assert (Hlt : Rabs x < bpow (-23 + 24)).
  { rewrite Rabs_pos_eq by exact H0. cbn. lra. }
  pose proof (cexp_range x) as Hcr.
  pose proof (cexp_le x (-23) ltac:(lia) Hlt) as Hc.
  eexists. split; [apply round_finite_eq; left; lia |].
  set (c := cexp x) in *.
  pose proof (bpow_gt_0 c) as Hp.
  assert (Hinv : / bpow c = IZR (2 ^ (- c))).
  { rewrite <- bpow_opp. apply bpow_nonneg. lia. }
  assert (Hq0 : IZR 0 <= x / bpow c).
  { unfold Rdiv. apply Rmult_le_pos; [exact H0 |].
    left. apply Rinv_0_lt_compat. exact Hp. }
  assert (Hq1 : x / bpow c <= IZR (2 ^ (- c))).
  { rewrite <- Hinv. unfold Rdiv.
    assert (0 < / bpow c) by (apply Rinv_0_lt_compat; exact Hp). nra. }
  apply rne_ge in Hq0. apply rne_le in Hq1.
  apply IZR_le in Hq0, Hq1. rewrite <- Hinv in Hq1.
  split.
  - apply Rmult_le_pos; lra.
  - apply Rmult_le_reg_r with (/ bpow c);
      [apply Rinv_0_lt_compat; exact Hp |].
    rewrite Rmult_assoc, Rinv_r by lra. lra.
Qed.

End Binary32Facts.

(** Evaluation of a rounding on given numbers: [round_to e m] proves
    [Binary32.round x = Binary32.finite v] from the exponent [e] and the
    mantissa [m] of [v]. *)
Ltac bpow_literal :=
  repeat match goal with
  | |- context [Binary32.bpow ?e] =>
      let e' := eval vm_compute in e in
      lazymatch e' with
      | Z0 => change (Binary32.bpow e) with 1
      | Zpos ?p =>
          let v := eval vm_compute in (Z.pow_pos 2 p) in
          change (Binary32.bpow e) with (IZR v)
      | Zneg ?p =>
          let v := eval vm_compute in (Z.pow_pos 2 p) in
          change (Binary32.bpow e) with (/ IZR v)
      end
  end.

Ltac abs_lra := unfold Rabs; destruct (Rcase_abs _); lra.

Ltac round_to e m :=
  apply (round_intro _ _ e m);
  [ lia
  | bpow_literal; abs_lra
  | first [ left; reflexivity | right; bpow_literal; abs_lra ]
  | bpow_literal;
    first [ left; abs_lra | right; split; [abs_lra | reflexivity] ]
  | first [ left; lia | right; cbn; lia ]
  | bpow_literal; lra ].

(** [f32 e m v] replaces the rounding that is left in the goal by its value
    [v] and lets the operation around it proceed. *)
Ltac f32 e m v :=
  match goal with
  | |- context [Binary32.round ?x] =>
      let E := fresh "E" in
      assert (E : Binary32.round x = Binary32.finite v) by (round_to e m);
      rewrite E; clear E;
      cbn [Binary32.add Binary32.sub Binary32.opp Binary32.mul]
  end.

Lemma of_int_small (n : Z) :
  (Z.abs n < 2 ^ 24)%Z -> Binary32.of_int n = Binary32.finite (IZR n).
Proof. apply round_IZR. Qed.

(** Conversion of a non-negative value in the range of [int]. *)
Lemma to_int32_floor (n : Z) (r : R) :
  (0 <= n <= Binary32.INT_MAX)%Z -> IZR n <= r < IZR n + 1 ->
  Binary32.to_int32 (Binary32.finite r) = n.
Proof.
  intros Hn Hr. unfold Binary32.to_int32.
  assert (H0 : 0 <= r).
  { destruct Hn as [Hn _]. apply IZR_le in Hn. lra. }
  rewrite (to_int_floor n r H0 Hr).
  unfold Binary32.INT_MIN, Binary32.INT_MAX in *.
  destruct (Z.leb_spec (-2147483648) n); [| lia].
  destruct (Z.leb_spec n 2147483647); [| lia]. reflexivity.
Qed.

Lemma to_int32_IZR (n : Z) :
  (0 <= n <= Binary32.INT_MAX)%Z ->
  Binary32.to_int32 (Binary32.finite (IZR n)) = n.
Proof. intros H. apply to_int32_floor; [exact H | lra]. Qed.


Lemma atan2_0_0 : atan2 0 0 = 0.
Proof.
  unfold atan2.
  destruct (Rlt_dec 0 0) as [H | _]; [lra | reflexivity].
Qed.

Lemma atan2_0_pos (x : R) : 0 < x -> atan2 0 x = 0.
Proof.
  intros H. unfold atan2.
  destruct (Rlt_dec 0 x) as [_ | N]; [| contradiction].
  unfold Rdiv. rewrite Rmult_0_l. apply atan_0.
Qed.

Lemma atan2_0_neg (x : R) : x < 0 -> atan2 0 x = PI.
Proof.
  intros H. unfold atan2.
  destruct (Rlt_dec 0 x) as [P | _]; [lra |].
  destruct (Rlt_dec x 0) as [_ | N]; [| contradiction].
  destruct (Rle_dec 0 0) as [_ | N]; [| lra].
  unfold Rdiv. rewrite Rmult_0_l, atan_0. ring.
Qed.

Lemma atan2_pos (y x : R) : 0 < x -> atan2 y x = atan (y / x).
Proof.
  intros H. unfold atan2.
  destruct (Rlt_dec 0 x) as [_ | N]; [reflexivity | contradiction].
Qed.

Lemma atan2_quadrant2 (y x : R) :
  x < 0 -> 0 <= y -> atan2 y x = PI - atan (y / - x).
Proof.
  intros Hx Hy. unfold atan2.
  destruct (Rlt_dec 0 x) as [P | _]; [lra |].
  destruct (Rlt_dec x 0) as [_ | N]; [| contradiction].
  destruct (Rle_dec 0 y) as [_ | N]; [| contradiction].
  replace (y / x) with (- (y / - x)) by (field; lra).
  rewrite atan_opp. ring.
Qed.

Lemma degrees_ToDegrees (r : R) :
  SmartCaptureCalculator.ToDegrees r = Spec.degrees r.
Proof.
  unfold SmartCaptureCalculator.ToDegrees, Spec.degrees, M_PI.
  field. apply PI_neq0.
Qed.

Lemma degrees_0 : Spec.degrees 0 = 0.
Proof. unfold Spec.degrees. ring. Qed.

Lemma degrees_PI : Spec.degrees PI = 180.
Proof. unfold Spec.degrees. field. apply PI_neq0. Qed.

(** *** Bounds on arctangent and pi, from the alternating power series *)

Lemma atan_series_bounds (x : R) (N : nat) :
  0 < x < 1 ->
  sum_f_R0 (tg_alt (Ratan_seq x)) (S (2 * N)) <= atan x
    <= sum_f_R0 (tg_alt (Ratan_seq x)) (2 * N).
Proof.
  intros Hx.
  assert (H01 : 0 <= x <= 1) by lra.
  rewrite (atan_eq_ps_atan _ Hx). unfold ps_atan.
  destruct (Ratan.in_int x) as [Hin | Hout]; [| exfalso; apply Hout; lra].
  destruct (ps_atan_exists_1 x Hin) as [v Hv].
  apply alternated_series_ineq.
  - apply Ratan_seq_decreasing, H01.
  - apply Ratan_seq_converging, H01.
  - exact Hv.
Qed.

Lemma atan_third_bounds : 0.32175 < atan (/ 3) < 0.321752.
Proof.
  assert (H : 0 < / 3 < 1) by lra.
  destruct (atan_series_bounds (/ 3) 2 H) as [Hl Hu].
  unfold sum_f_R0, tg_alt, Ratan_seq in Hl, Hu. simpl in Hl, Hu.
  lra.
Qed.

Lemma atan_seventh_bounds : 0.14189 < atan (/ 7) < 0.14190.
Proof.
  assert (H : 0 < / 7 < 1) by lra.
  destruct (atan_series_bounds (/ 7) 1 H) as [Hl Hu].
  unfold sum_f_R0, tg_alt, Ratan_seq in Hl, Hu. simpl in Hl, Hu.
  lra.
Qed.

Lemma PI_bounds : 3.1415 < PI < 3.1417.
Proof.
  pose proof Machin_2_3_7 as M.
  pose proof atan_third_bounds. pose proof atan_seventh_bounds.
  lra.
Qed.

Lemma quotient_bounds (a p q lo hi : R) :
  0 < p -> q = a / p -> lo * p < a -> a < hi * p -> lo < q < hi.
Proof.
  intros Hp -> Hl Hu. split.
  - apply Rmult_lt_reg_r with p; [exact Hp |].
    replace (a / p * p) with a by (field; lra). exact Hl.
  - apply Rmult_lt_reg_r with p; [exact Hp |].
    replace (a / p * p) with a by (field; lra). exact Hu.
Qed.

(** The yaw of the ear example, in degrees. *)
Lemma yaw_example_value :
  161.56 < Spec.degrees (atan2 0.2 (-0.6)) < 161.58.
Proof.
  rewrite atan2_quadrant2 by lra.
  replace 0.2 with (2 / 10) by lra. replace (-0.6) with (- (6 / 10)) by lra.
  replace (2 / 10 / - - (6 / 10)) with (/ 3) by field.
  pose proof atan_third_bounds as [A1 A2].
  pose proof PI_bounds as [P1 P2].
  unfold Spec.degrees.
  apply (quotient_bounds ((PI - atan (/ 3)) * 180) PI).
  - lra.
  - field. lra.
  - lra.
  - lra.
Qed.

(** ** Landmark lookups *)

Lemma landmark_in_range (l : list Landmark) (i : nat) :
  (i < List.length l)%nat ->
  SmartCaptureCalculator.landmark l i = Ok (nth i l Landmark.default).
Proof.
  intros H. unfold SmartCaptureCalculator.landmark.
  rewrite (nth_error_nth' l Landmark.default H). reflexivity.
Qed.

Lemma landmark_out_of_range (l : list Landmark) (i : nat) :
  (List.length l <= i)%nat -> SmartCaptureCalculator.landmark l i = OutOfRange.
Proof.
  intros H. unfold SmartCaptureCalculator.landmark.
  apply nth_error_None in H. rewrite H. reflexivity.
Qed.

Lemma at_in_range (l : list Landmark) (i : nat) :
  (i < List.length l)%nat ->
  SmartFaceProcessor.at_ l i = Ok (nth i l Landmark.default).
Proof.
  intros H. unfold SmartFaceProcessor.at_.
  rewrite (nth_error_nth' l Landmark.default H). reflexivity.
Qed.

Lemma blank_length (n : nat) : List.length (blank n) = n.
Proof. apply repeat_length. Qed.

Lemma nth_blank (i n : nat) : nth i (blank n) Landmark.default = Landmark.default.
Proof. apply nth_repeat. Qed.

(** ** The calculator's pose and gate *)

Lemma pose_in_range (l : list Landmark) :
  (454 < List.length l)%nat ->
  SmartCaptureCalculator.pose l =
    Ok (Spec.depth_yaw (nth 234 l Landmark.default) (nth 454 l Landmark.default),
        Spec.depth_pitch (nth 1 l Landmark.default)
          (nth 234 l Landmark.default) (nth 454 l Landmark.default)).
Proof.
  intros H. unfold SmartCaptureCalculator.pose.
  rewrite !landmark_in_range by lia. cbn [bind].
  rewrite !degrees_ToDegrees. reflexivity.
Qed.

Lemma pose_short (l : list Landmark) :
  (List.length l <= 454)%nat -> SmartCaptureCalculator.pose l = OutOfRange.
Proof.
  intros H. unfold SmartCaptureCalculator.pose.
  destruct (SmartCaptureCalculator.landmark l 1); cbn [bind]; [| reflexivity].
  destruct (SmartCaptureCalculator.landmark l 234); cbn [bind]; [| reflexivity].
  rewrite landmark_out_of_range by exact H. reflexivity.
Qed.

Lemma pose_blank (n : nat) :
  (454 < n)%nat -> SmartCaptureCalculator.pose (blank n) = Ok (0, 0).
Proof.
  intros H. rewrite pose_in_range by (rewrite blank_length; exact H).
  rewrite !nth_blank.
  unfold Spec.depth_yaw, Spec.depth_pitch, Landmark.default; cbn.
  replace (0 - 0) with 0 by ring.
  replace (0 - (0 + 0) / 2) with 0 by field.
  rewrite atan2_0_0, degrees_0. reflexivity.
Qed.

Section Process.
Import SmartCaptureCalculator.
Variables (s : state) (cc : CalculatorContext).

Lemma Process_limit :
  (max_captures_ s <= current_count_ s)%Z -> Process s cc = Ok (s, []).
Proof.
  intros H. unfold Process.
  destruct (Z.geb_spec (current_count_ s) (max_captures_ s)); [reflexivity | lia].
Qed.

Hypothesis below : (current_count_ s < max_captures_ s)%Z.

Lemma Process_below :
  Process s cc =
    match IMAGE cc, LANDMARKS cc with
    | Some input_img, Some [] => Ok (s, SendStatus cc "No face detected")
    | Some input_img, Some (landmarks :: _) =>
        p <- pose landmarks ;;
        Ok (gate s cc input_img landmarks (fst p) (snd p))
    | _, _ => Ok (s, [])
    end.
Proof.
  unfold Process.
  destruct (Z.geb_spec (current_count_ s) (max_captures_ s)); [lia |].
  destruct (IMAGE cc), (LANDMARKS cc) as [[| ? ?] |]; reflexivity.
Qed.

Lemma Process_short_face img l rest :
  IMAGE cc = Some img -> LANDMARKS cc = Some (l :: rest) ->
  (List.length l <= 454)%nat -> Process s cc = OutOfRange.
Proof.
  intros Hi Hl Hs. rewrite Process_below, Hi, Hl, pose_short by exact Hs.
  reflexivity.
Qed.

End Process.

Section Gate.
Import SmartCaptureCalculator.
Variables (s : state) (cc : CalculatorContext) (img : ImageFrame)
          (l : NormalizedLandmarkList) (yaw pitch : R).


Lemma gate_pitch :
  Rabs yaw <= max_yaw_ s -> Rabs pitch > max_pitch_ s * 2 ->
  gate s cc img l yaw pitch =
    (s, SendStatus cc "Face tilted up/down too much (Pitch)").
Proof.
  intros Hy Hp. unfold gate.
  destruct (Rgt_dec (Rabs yaw) (max_yaw_ s)); [lra |].
  destruct (Rgt_dec (Rabs pitch) (max_pitch_ s * 2));
    [reflexivity | contradiction].
Qed.

Lemma gate_accept :
  Rabs yaw <= max_yaw_ s -> Rabs pitch <= max_pitch_ s * 2 ->
  gate s cc img l yaw pitch =
    (mkState (max_captures_ s) (max_yaw_ s) (max_pitch_ s) (padding_ s)
             (current_count_ s + 1),
     SendStatus cc "Captured!" ++ CropAndSend s img l).
Proof.
  intros Hy Hp. unfold gate.
  destruct (Rgt_dec (Rabs yaw) (max_yaw_ s)); [lra |].
  destruct (Rgt_dec (Rabs pitch) (max_pitch_ s * 2)); [lra | reflexivity].
Qed.
End Gate.

(** A face of [n] landmarks at the origin has yaw and pitch 0 and is
    captured by the calculator whenever landmark 454 exists. *)
Lemma Process_blank (s : SmartCaptureCalculator.state) (n : nat) :
  (SmartCaptureCalculator.current_count_ s
     < SmartCaptureCalculator.max_captures_ s)%Z ->
  0 <= SmartCaptureCalculator.max_yaw_ s ->
  0 <= SmartCaptureCalculator.max_pitch_ s ->
  (454 < n)%nat ->
  exists s' out,
    SmartCaptureCalculator.Process s (frame_of (blank n)) = Ok (s', out)
    /\ SmartCaptureCalculator.current_count_ s'
       = (SmartCaptureCalculator.current_count_ s + 1)%Z
    /\ In (SmartCaptureCalculator.STATUS "Captured!") out.
Proof.
  intros Hc Hy Hp Hn.
  rewrite (Process_below s _ Hc). cbn [frame_of SmartCaptureCalculator.IMAGE
    SmartCaptureCalculator.LANDMARKS].
  rewrite pose_blank by exact Hn. cbn [bind fst snd].
  rewrite gate_accept by (rewrite Rabs_R0; lra).
  eexists _, _. split; [reflexivity |]. split; [reflexivity |].
  left. reflexivity.
Qed.

(** ** The WASM estimators are guarded *)

Section Estimators.
Import SmartFaceProcessor.
Variable l : list Landmark.

Lemma EstimateYaw_short :
  (List.length l < 468)%nat -> EstimateYaw l = Ok 0.
Proof.
  intros H. unfold EstimateYaw.
  destruct (Nat.ltb_spec (List.length l) 468); [reflexivity | lia].
Qed.

Lemma EstimatePitch_short :
  (List.length l < 468)%nat -> EstimatePitch l = Ok 0.
Proof.
  intros H. unfold EstimatePitch.
  destruct (Nat.ltb_spec (List.length l) 468); [reflexivity | lia].
Qed.

Lemma EstimateRoll_short :
  (List.length l < 468)%nat -> EstimateRoll l = Ok 0.
Proof.
  intros H. unfold EstimateRoll.
  destruct (Nat.ltb_spec (List.length l) 468); [reflexivity | lia].
Qed.

Lemma assess_short (s : state) :
  (List.length l < 468)%nat ->
  assess s l = Ok (mkFaceResult false 0 "No face detected" 0 0 0 false []).
Proof.
  intros H. unfold assess.
  destruct (Nat.ltb_spec (List.length l) 468); [| lia].
  rewrite orb_true_r. reflexivity.
Qed.

Lemma EstimateYaw_full :
  (468 <= List.length l)%nat ->
  EstimateYaw l =
  Ok (Spec.ratio_yaw (nth 1 l Landmark.default) (nth 33 l Landmark.default)
        (nth 263 l Landmark.default)).
Proof.
  intros H. unfold EstimateYaw.
  destruct (Nat.ltb_spec (List.length l) 468); [lia |].
  rewrite !at_in_range by lia. reflexivity.
Qed.

Lemma EstimatePitch_full :
  (468 <= List.length l)%nat ->
  EstimatePitch l =
  Ok (Spec.ratio_pitch (nth 10 l Landmark.default)
        (nth 168 l Landmark.default) (nth 152 l Landmark.default)).
Proof.
  intros H. unfold EstimatePitch.
  destruct (Nat.ltb_spec (List.length l) 468); [lia |].
  rewrite !at_in_range by lia. reflexivity.
Qed.

Lemma EstimateRoll_full :
  (468 <= List.length l)%nat ->
  EstimateRoll l =
  Ok (Spec.ratio_roll (nth 33 l Landmark.default)
        (nth 263 l Landmark.default)).
Proof.
  intros H. unfold EstimateRoll.
  destruct (Nat.ltb_spec (List.length l) 468); [lia |].
  rewrite !at_in_range by lia. cbn [bind].
  unfold Spec.ratio_roll, Spec.degrees, M_PI.
  apply (f_equal Ok). field. apply PI_neq0.
Qed.
End Estimators.

(** ** Claims *)

(** C1.  Landmark sets with fewer than 468 points.  The WASM call site is
    guarded (see [EstimateYaw_short], [EstimatePitch_short],
    [EstimateRoll_short], [assess_short]).  The calculator call site is not:
    with one face of 0 or of 100 landmarks, [Process] reads landmarks 1, 234
    and 454 outside the list instead of reporting that no face was detected,
    and a face of 467 landmarks is captured as if it were complete. *)
Theorem calculator_short_face_unchecked :
  let s := SmartCaptureCalculator.Open example_options in
  SmartCaptureCalculator.Process s (frame_of (blank 0)) = OutOfRange
  /\ SmartCaptureCalculator.Process s (frame_of (blank 100)) = OutOfRange
  /\ exists s' out,
       SmartCaptureCalculator.Process s (frame_of (blank 467)) = Ok (s', out)
       /\ SmartCaptureCalculator.current_count_ s' = 1%Z
       /\ In (SmartCaptureCalculator.STATUS "Captured!") out.
Proof.
  intros s.
  assert (Hc : (SmartCaptureCalculator.current_count_ s
                < SmartCaptureCalculator.max_captures_ s)%Z) by (cbn; lia).
  split; [| split].
  - apply (Process_short_face s (frame_of (blank 0)) Hc
             (SmartCaptureCalculator.mkImage 1000 1000) (blank 0) []);
      [reflexivity | reflexivity | rewrite blank_length; lia].
  - apply (Process_short_face s (frame_of (blank 100)) Hc
             (SmartCaptureCalculator.mkImage 1000 1000) (blank 100) []);
      [reflexivity | reflexivity | rewrite blank_length; lia].
  - destruct (Process_blank s 467 Hc) as (s' & out & HP & Hcount & Hin).
    + cbn. lra.
    + cbn. lra.
    + lia.
    + exists s', out. split; [exact HP |]. split; [exact Hcount | exact Hin].
Qed.

(** C2.  For a 468-element landmark set the calculator's estimate is
    yaw = atan2 (leftEar.z - rightEar.z, leftEar.x - rightEar.x) in degrees
    with the ears at landmarks 234 and 454, and
    pitch = atan2 (nose.y - earMidY, nose.z) in degrees with the nose at
    landmark 1; for the ear example the yaw is atan2 (0.2, -0.6) in degrees,
    within 0.01 of 161.57. *)
Theorem depth_estimator_formula (landmarks : list Landmark) :
  List.length landmarks = 468%nat ->
  (let nose := nth 1 landmarks Landmark.default in
   let leftEar := nth 234 landmarks Landmark.default in
   let rightEar := nth 454 landmarks Landmark.default in
   SmartCaptureCalculator.pose landmarks =
     Ok (Spec.depth_yaw leftEar rightEar,
         Spec.depth_pitch nose leftEar rightEar))
  /\ exists yaw pitch,
       SmartCaptureCalculator.pose ears_example = Ok (yaw, pitch)
       /\ yaw = Spec.degrees (atan2 0.2 (-0.6))
       /\ Rabs (yaw - 161.57) < 0.01.
Proof.
  intros Hlen. split.
  - cbv zeta. apply pose_in_range. lia.
  - eexists _, _. split; [apply pose_in_range; cbn; lia |].
    assert (E : Spec.depth_yaw (nth 234 ears_example Landmark.default)
                  (nth 454 ears_example Landmark.default)
                = Spec.degrees (atan2 0.2 (-0.6))).
    { change (nth 234 ears_example Landmark.default)
        with (Landmark.mk (-0.3) 0 0.1).
      change (nth 454 ears_example Landmark.default)
        with (Landmark.mk 0.3 0 (-0.1)).
      unfold Spec.depth_yaw. cbn [Landmark.x Landmark.z].
      f_equal. f_equal; lra. }
    split; [exact E |]. rewrite E.
    pose proof yaw_example_value as [Hl Hu].
    apply Rabs_def1; lra.
Qed.

Lemma depth_estimator_formula_witness :
  List.length ears_example = 468%nat
  /\ exists yaw pitch,
       SmartCaptureCalculator.pose ears_example = Ok (yaw, pitch)
       /\ yaw = Spec.degrees (atan2 0.2 (-0.6))
       /\ Rabs (yaw - 161.57) < 0.01.
Proof.
  split; [reflexivity |].
  apply (depth_estimator_formula ears_example). reflexivity.
Defined.

(** ** The ratio of the WASM estimators *)

Lemma ratio_same (a : R) : Spec.ratio a a = 0.
Proof.
  unfold Spec.ratio, Rdiv. replace (a - a) with 0 by ring. ring.
Qed.

Lemma ratio_abs_lt_1 (a b : R) :
  0 <= a -> 0 <= b -> Rabs (Spec.ratio a b) < 1.
Proof.
  intros Ha Hb. unfold Spec.ratio, Spec.epsilon.
  assert (Hd : 0 < a + b + 0.001) by lra.
  apply Rabs_def1.
  - apply Rmult_lt_reg_r with (a + b + 0.001); [exact Hd |].
    unfold Rdiv. rewrite Rmult_assoc, Rinv_l by lra. lra.
  - apply Rmult_lt_reg_r with (a + b + 0.001); [exact Hd |].
    unfold Rdiv. rewrite Rmult_assoc, Rinv_l by lra. lra.
Qed.

Lemma ratio_yaw_bound (nose leftEye rightEye : Landmark) :
  Rabs (Spec.ratio_yaw nose leftEye rightEye) < 45.
Proof.
  unfold Spec.ratio_yaw. cbv zeta.
  rewrite Rabs_mult, (Rabs_pos_eq 45) by lra.
  pose proof (ratio_abs_lt_1 _ _
                (Rabs_pos (Landmark.x nose - Landmark.x leftEye))
                (Rabs_pos (Landmark.x rightEye - Landmark.x nose))).
  lra.
Qed.

Lemma ratio_pitch_bound (forehead noseBridge chin : Landmark) :
  Rabs (Spec.ratio_pitch forehead noseBridge chin) < 30.
Proof.
  unfold Spec.ratio_pitch. cbv zeta.
  rewrite Rabs_mult, (Rabs_pos_eq 30) by lra.
  pose proof (ratio_abs_lt_1 _ _
                (Rabs_pos (Landmark.y forehead - Landmark.y noseBridge))
                (Rabs_pos (Landmark.y chin - Landmark.y noseBridge))).
  lra.
Qed.

(** C3, as amended.  For a 468-element landmark set the WASM estimators
    return yaw = ((leftDist - rightDist) / (leftDist + rightDist + 0.001)) * 45
    from landmarks 1, 33 and 263, pitch = the same ratio of the vertical
    distances forehead (10) - nose bridge (168) and chin (152) - nose bridge,
    times 30, and roll = atan2 (dy, dx) from landmark 33 to landmark 263 in
    degrees.  When 33 and 263 are symmetric about the nose in x the yaw is 0.
    When they have equal y the roll is 0 if landmark 263 is not to the left
    of landmark 33, and 180 degrees if it is. *)
Theorem ratio_estimator_formula (landmarks : list Landmark) :
  List.length landmarks = 468%nat ->
  let nose := nth 1 landmarks Landmark.default in
  let leftEye := nth 33 landmarks Landmark.default in
  let rightEye := nth 263 landmarks Landmark.default in
  let forehead := nth 10 landmarks Landmark.default in
  let noseBridge := nth 168 landmarks Landmark.default in
  let chin := nth 152 landmarks Landmark.default in
  SmartFaceProcessor.EstimateYaw landmarks
    = Ok (Spec.ratio_yaw nose leftEye rightEye)
  /\ SmartFaceProcessor.EstimatePitch landmarks
     = Ok (Spec.ratio_pitch forehead noseBridge chin)
  /\ SmartFaceProcessor.EstimateRoll landmarks
     = Ok (Spec.ratio_roll leftEye rightEye)
  /\ (Landmark.x nose - Landmark.x leftEye
        = Landmark.x rightEye - Landmark.x nose ->
      SmartFaceProcessor.EstimateYaw landmarks = Ok 0)
  /\ (Landmark.y leftEye = Landmark.y rightEye ->
      Landmark.x leftEye <= Landmark.x rightEye ->
      SmartFaceProcessor.EstimateRoll landmarks = Ok 0)
  /\ (Landmark.y leftEye = Landmark.y rightEye ->
      Landmark.x rightEye < Landmark.x leftEye ->
      SmartFaceProcessor.EstimateRoll landmarks = Ok 180).
Proof.
  intros Hlen nose leftEye rightEye forehead noseBridge chin.
  assert (Hge : (468 <= List.length landmarks)%nat) by lia.
  pose proof (EstimateYaw_full landmarks Hge) as Hyaw.
  pose proof (EstimatePitch_full landmarks Hge) as Hpitch.
  pose proof (EstimateRoll_full landmarks Hge) as Hroll.
  fold nose leftEye rightEye in Hyaw, Hroll.
  fold forehead noseBridge chin in Hpitch.
  repeat split; try assumption.
  - intros Hsym. rewrite Hyaw. apply (f_equal Ok).
    unfold Spec.ratio_yaw. cbv zeta.
    rewrite Hsym, ratio_same. ring.
  - intros Hy Hx. rewrite Hroll. apply (f_equal Ok).
    unfold Spec.ratio_roll. rewrite Hy.
    replace (Landmark.y rightEye - Landmark.y rightEye) with 0 by ring.
    destruct Hx as [Hlt | Heq].
    + rewrite atan2_0_pos by lra. apply degrees_0.
    + rewrite Heq.
      replace (Landmark.x rightEye - Landmark.x rightEye) with 0 by ring.
      rewrite atan2_0_0. apply degrees_0.
  - intros Hy Hx. rewrite Hroll. apply (f_equal Ok).
    unfold Spec.ratio_roll. rewrite Hy.
    replace (Landmark.y rightEye - Landmark.y rightEye) with 0 by ring.
    rewrite atan2_0_neg by lra. apply degrees_PI.
Qed.

Lemma ratio_estimator_formula_witness :
  List.length level_eyes = 468%nat
  /\ SmartFaceProcessor.EstimateYaw level_eyes = Ok 0
  /\ SmartFaceProcessor.EstimateRoll level_eyes = Ok 0.
Proof.
  pose proof (ratio_estimator_formula level_eyes eq_refl)
    as (_ & _ & _ & Hyaw & Hroll & _).
  split; [reflexivity |]. split.
  - apply Hyaw.
    change (0.5 - 0.3 = 0.7 - 0.5). lra.
  - apply Hroll.
    + change (0.4 = 0.4). reflexivity.
    + change (0.3 <= 0.7). lra.
Defined.

(** C3, as stated, fails: landmarks 33 and 263 of [crossed_eyes] have the
    same y, and the roll is 180 degrees, not 0. *)
Lemma roll_equal_y_counterexample :
  List.length crossed_eyes = 468%nat
  /\ Landmark.y (nth 33 crossed_eyes Landmark.default)
     = Landmark.y (nth 263 crossed_eyes Landmark.default)
  /\ SmartFaceProcessor.EstimateRoll crossed_eyes = Ok 180
  /\ SmartFaceProcessor.EstimateRoll crossed_eyes <> Ok 0.
Proof.
  assert (H : SmartFaceProcessor.EstimateRoll crossed_eyes = Ok 180).
  { rewrite EstimateRoll_full by (cbn; lia).
    change (nth 33 crossed_eyes Landmark.default) with (Landmark.mk 0.6 0.5 0).
    change (nth 263 crossed_eyes Landmark.default) with (Landmark.mk 0.4 0.5 0).
    unfold Spec.ratio_roll. cbn [Landmark.x Landmark.y].
    replace (0.5 - 0.5) with 0 by ring.
    rewrite atan2_0_neg by lra. rewrite degrees_PI. reflexivity. }
  split; [reflexivity |]. split; [reflexivity |]. split; [exact H |].
  rewrite H. intros E. injection E as E. lra.
Qed.

(** ** The two pitch policies *)

Lemma pose_pitch18_face :
  SmartCaptureCalculator.pose pitch18_face = Ok (0, 18).
Proof.
  rewrite pose_in_range by (cbn; lia).
  change (nth 234 pitch18_face Landmark.default) with Landmark.default.
  change (nth 454 pitch18_face Landmark.default) with Landmark.default.
  change (nth 1 pitch18_face Landmark.default)
    with (Landmark.mk 0 (tan (PI / 10)) 1).
  unfold Spec.depth_yaw, Spec.depth_pitch, Landmark.default.
  cbn [Landmark.x Landmark.y Landmark.z].
  replace (0 - 0) with 0 by ring.
  replace (tan (PI / 10) - (0 + 0) / 2) with (tan (PI / 10)) by field.
  rewrite atan2_0_0, degrees_0.
  rewrite atan2_pos by lra.
  replace (tan (PI / 10) / 1) with (tan (PI / 10)) by field.
  pose proof PI_RGT_0 as Hpi.
  rewrite atan_tan by lra.
  apply (f_equal Ok). apply f_equal.
  unfold Spec.degrees. field. lra.
Qed.

Lemma estimates_pitch18_mesh :
  SmartFaceProcessor.EstimateYaw pitch18_mesh = Ok 0
  /\ SmartFaceProcessor.EstimatePitch pitch18_mesh = Ok 18
  /\ SmartFaceProcessor.EstimateRoll pitch18_mesh = Ok 0.
Proof.
  assert (Hlen : (468 <= List.length pitch18_mesh)%nat) by (cbn; lia).
  rewrite EstimateYaw_full, EstimatePitch_full, EstimateRoll_full by exact Hlen.
  change (nth 1 pitch18_mesh Landmark.default) with Landmark.default.
  change (nth 33 pitch18_mesh Landmark.default) with Landmark.default.
  change (nth 263 pitch18_mesh Landmark.default) with Landmark.default.
  change (nth 168 pitch18_mesh Landmark.default) with Landmark.default.
  change (nth 152 pitch18_mesh Landmark.default) with Landmark.default.
  change (nth 10 pitch18_mesh Landmark.default)
    with (Landmark.mk 0 0.0015 0).
  unfold Spec.ratio_yaw, Spec.ratio_pitch, Spec.ratio_roll, Landmark.default.
  cbn [Landmark.x Landmark.y Landmark.z].
  replace (0 - 0) with 0 by ring.
  rewrite ratio_same, atan2_0_0, degrees_0.
  replace (0.0015 - 0) with (15 / 10000) by lra.
  rewrite Rabs_R0, (Rabs_pos_eq (15 / 10000)) by lra.
  unfold Spec.ratio, Spec.epsilon.
  replace (15 / 10000 + 0 + 0.001) with (25 / 10000) by lra.
  repeat split; apply (f_equal Ok); field.
Qed.

Lemma to_string_18 :
  to_string 18 = String "1" (String "8" EmptyString).
Proof. reflexivity. Qed.

Lemma yaw_ok_iff (s : SmartFaceProcessor.state) (yaw : R) :
  SmartFaceProcessor.yaw_ok s yaw = true
  <-> Rabs yaw <= SmartFaceProcessor.max_yaw_ s.
Proof.
  unfold SmartFaceProcessor.yaw_ok.
  destruct (Rle_dec (Rabs yaw) (SmartFaceProcessor.max_yaw_ s)) as [P | N];
    split; intros H; [exact P | reflexivity | discriminate H | contradiction].
Qed.

Lemma pitch_ok_iff (s : SmartFaceProcessor.state) (pitch : R) :
  SmartFaceProcessor.pitch_ok s pitch = true
  <-> Rabs pitch <= SmartFaceProcessor.max_pitch_ s.
Proof.
  unfold SmartFaceProcessor.pitch_ok.
  destruct (Rle_dec (Rabs pitch) (SmartFaceProcessor.max_pitch_ s))
    as [P | N];
    split; intros H; [exact P | reflexivity | discriminate H | contradiction].
Qed.

(** The checks of [detectFace] on a list of at least 468 landmarks: the
    angles are those of the three estimators, the quality flag is set
    exactly when |yaw| <= max_yaw and |pitch| <= max_pitch, and a face whose
    yaw passes and whose pitch exceeds max_pitch gets the pitch message. *)
Lemma assess_checks (s : SmartFaceProcessor.state) (l : list Landmark) :
  (468 <= List.length l)%nat ->
  exists r yaw pitch,
    SmartFaceProcessor.assess s l = Ok r
    /\ SmartFaceProcessor.detected r = true
    /\ SmartFaceProcessor.landmarks r = l
    /\ SmartFaceProcessor.EstimateYaw l = Ok yaw
    /\ SmartFaceProcessor.EstimatePitch l = Ok pitch
    /\ SmartFaceProcessor.yaw r = yaw
    /\ SmartFaceProcessor.pitch r = pitch
    /\ (SmartFaceProcessor.quality_good r = true
        <-> Rabs yaw <= SmartFaceProcessor.max_yaw_ s
            /\ Rabs pitch <= SmartFaceProcessor.max_pitch_ s)
    /\ (Rabs yaw <= SmartFaceProcessor.max_yaw_ s ->
        Rabs pitch > SmartFaceProcessor.max_pitch_ s ->
        SmartFaceProcessor.message r
        = ("Face tilted too much (Pitch: " ++ to_string (to_int pitch)
             ++ SmartFaceProcessor.degree_bytes ++ ")")%string).
Proof.
  intros Hlen.
  unfold SmartFaceProcessor.assess.
  destruct (Nat.eqb_spec (List.length l) 0); [lia |].
  destruct (Nat.ltb_spec (List.length l) 468); [lia |].
  cbn [orb].
  rewrite (EstimateYaw_full l Hlen), (EstimatePitch_full l Hlen),
    (EstimateRoll_full l Hlen).
  cbn [bind]. eexists _, _, _.
  split; [reflexivity |]. split; [reflexivity |]. split; [reflexivity |].
  split; [reflexivity |]. split; [reflexivity |]. split; [reflexivity |].
  split; [reflexivity |].
  cbn [SmartFaceProcessor.quality_good SmartFaceProcessor.message].
  split.
  - rewrite andb_true_iff, yaw_ok_iff, pitch_ok_iff. reflexivity.
  - intros Hy Hp. unfold SmartFaceProcessor.quality_message.
    apply yaw_ok_iff in Hy. rewrite Hy.
    destruct (SmartFaceProcessor.pitch_ok s _) eqn:E;
      [apply pitch_ok_iff in E; lra | reflexivity].
Qed.

(** C4.  At the calculator call site, a frame whose yaw passes is rejected
    by [Process] with the pitch message exactly when
    |pitch| > max_pitch_degrees * 2, and is captured otherwise.  At the WASM
    call site, [detectFace] sets the quality flag of a detected face exactly
    when |yaw| <= max_yaw and |pitch| <= max_pitch_degrees, with no
    doubling, and reports a pitch beyond max_pitch_degrees with the pitch
    message; the same holds of its checks on any list of 468 landmarks.
    With max_pitch_degrees = 10 a face whose estimated pitch is 18 degrees
    is captured by the calculator; the WASM processor, with the same
    setting and a face whose estimate is 18 degrees, rejects it. *)
Theorem pitch_threshold_policies :
  (forall (s : SmartCaptureCalculator.state)
          (cc : SmartCaptureCalculator.CalculatorContext)
          (img : SmartCaptureCalculator.ImageFrame)
          (l : list Landmark) (rest : list (list Landmark)) (yaw pitch : R),
      (SmartCaptureCalculator.current_count_ s
       < SmartCaptureCalculator.max_captures_ s)%Z ->
      SmartCaptureCalculator.IMAGE cc = Some img ->
      SmartCaptureCalculator.LANDMARKS cc = Some (l :: rest) ->
      SmartCaptureCalculator.pose l = Ok (yaw, pitch) ->
      Rabs yaw <= SmartCaptureCalculator.max_yaw_ s ->
      (Rabs pitch > SmartCaptureCalculator.max_pitch_ s * 2 ->
       SmartCaptureCalculator.Process s cc
       = Ok (s, SmartCaptureCalculator.SendStatus cc
                  "Face tilted up/down too much (Pitch)"))
      /\ (Rabs pitch <= SmartCaptureCalculator.max_pitch_ s * 2 ->
          exists s',
            SmartCaptureCalculator.Process s cc
            = Ok (s', SmartCaptureCalculator.SendStatus cc "Captured!"
                        ++ SmartCaptureCalculator.CropAndSend s img l)
            /\ SmartCaptureCalculator.current_count_ s'
               = (SmartCaptureCalculator.current_count_ s + 1)%Z))
  /\ (forall (s : SmartFaceProcessor.state) (width height : Z),
         SmartFaceProcessor.initialized_ s = true ->
         (320 <= width)%Z -> (240 <= height)%Z ->
         exists r s' yaw pitch,
           SmartFaceProcessor.detectFace s width height = Ok (r, s')
           /\ SmartFaceProcessor.detected r = true
           /\ List.length (SmartFaceProcessor.landmarks r) = 468%nat
           /\ SmartFaceProcessor.EstimateYaw (SmartFaceProcessor.landmarks r)
              = Ok yaw
           /\ SmartFaceProcessor.EstimatePitch
                (SmartFaceProcessor.landmarks r) = Ok pitch
           /\ SmartFaceProcessor.yaw r = yaw
           /\ SmartFaceProcessor.pitch r = pitch
           /\ (SmartFaceProcessor.quality_good r = true
               <-> Rabs yaw <= SmartFaceProcessor.max_yaw_ s
                   /\ Rabs pitch <= SmartFaceProcessor.max_pitch_ s)
           /\ (Rabs yaw <= SmartFaceProcessor.max_yaw_ s ->
               Rabs pitch > SmartFaceProcessor.max_pitch_ s ->
               SmartFaceProcessor.message r
               = ("Face tilted too much (Pitch: " ++ to_string (to_int pitch)
                    ++ SmartFaceProcessor.degree_bytes ++ ")")%string))
  /\ (forall (s : SmartFaceProcessor.state) (l : list Landmark),
         List.length l = 468%nat ->
         exists r yaw pitch,
           SmartFaceProcessor.assess s l = Ok r
           /\ SmartFaceProcessor.EstimateYaw l = Ok yaw
           /\ SmartFaceProcessor.EstimatePitch l = Ok pitch
           /\ SmartFaceProcessor.pitch r = pitch
           /\ (SmartFaceProcessor.quality_good r = true
               <-> Rabs yaw <= SmartFaceProcessor.max_yaw_ s
                   /\ Rabs pitch <= SmartFaceProcessor.max_pitch_ s))
  /\ (SmartCaptureCalculator.pose pitch18_face = Ok (0, 18)
      /\ exists s' out,
           SmartCaptureCalculator.Process
             (SmartCaptureCalculator.Open pitch10_options)
             (frame_of pitch18_face) = Ok (s', out)
           /\ SmartCaptureCalculator.current_count_ s' = 1%Z
           /\ In (SmartCaptureCalculator.STATUS "Captured!") out)
  /\ (exists r,
        SmartFaceProcessor.assess pitch10_processor pitch18_mesh = Ok r
        /\ SmartFaceProcessor.pitch r = 18
        /\ SmartFaceProcessor.quality_good r = false
        /\ SmartFaceProcessor.message r
           = ("Face tilted too much (Pitch: 18"
                ++ SmartFaceProcessor.degree_bytes ++ ")")%string).
Proof.
  split; [| split; [| split; [| split]]].
  - intros s cc img l rest yaw pitch Hlt Hi Hl Hp Hyaw.
    rewrite (Process_below s cc Hlt), Hi, Hl, Hp. cbn [bind fst snd].
    split.
    + intros Hgt. rewrite gate_pitch by assumption. reflexivity.
    + intros Hle. rewrite gate_accept by assumption.
      eexists. split; reflexivity.
  - intros s width height Hi Hw Hh.
    unfold SmartFaceProcessor.detectFace. rewrite Hi. cbn [negb].
    destruct (Z.ltb_spec width 100); [lia |].
    destruct (Z.ltb_spec height 100); [lia |]. cbn [orb].
    assert (Hlen : List.length
                     (fst (SmartFaceProcessor.processImageData s width height))
                   = 468%nat).
    { unfold SmartFaceProcessor.processImageData. cbn [fst].
      destruct (Z.leb_spec 320 width); [| lia].
      destruct (Z.leb_spec 240 height); [| lia].
      cbn [andb]. rewrite length_map, length_seq. reflexivity. }
    assert (Hcfg : SmartFaceProcessor.max_yaw_
                     (snd (SmartFaceProcessor.processImageData s width height))
                   = SmartFaceProcessor.max_yaw_ s
                   /\ SmartFaceProcessor.max_pitch_
                        (snd (SmartFaceProcessor.processImageData
                                s width height))
                      = SmartFaceProcessor.max_pitch_ s)
      by (split; reflexivity).
    destruct (SmartFaceProcessor.processImageData s width height) as [l s'].
    cbn [fst snd] in Hlen, Hcfg. destruct Hcfg as [Ey Ep].
    destruct (assess_checks s' l) as
      (r & yaw & pitch & Hr & Hdet & Hlm & Hyaw & Hpitch & Ry & Rp & Hq & Hm);
      [lia |].
    rewrite Hr. cbn [bind]. exists r, s', yaw, pitch.
    rewrite Ey, Ep in Hq, Hm. rewrite Hlm.
    split; [reflexivity |]. split; [exact Hdet |]. split; [exact Hlen |].
    split; [exact Hyaw |]. split; [exact Hpitch |]. split; [exact Ry |].
    split; [exact Rp |]. split; [exact Hq | exact Hm].
  - intros s l Hlen.
    destruct (assess_checks s l) as
      (r & yaw & pitch & Hr & _ & _ & Hyaw & Hpitch & _ & Rp & Hq & _);
      [lia |].
    exists r, yaw, pitch.
    split; [exact Hr |]. split; [exact Hyaw |]. split; [exact Hpitch |].
    split; [exact Rp | exact Hq].
  - split; [exact pose_pitch18_face |].
    set (s := SmartCaptureCalculator.Open pitch10_options).
    assert (Hc : (SmartCaptureCalculator.current_count_ s
                  < SmartCaptureCalculator.max_captures_ s)%Z) by (cbn; lia).
    rewrite (Process_below s _ Hc).
    cbn [frame_of SmartCaptureCalculator.IMAGE SmartCaptureCalculator.LANDMARKS].
    rewrite pose_pitch18_face. cbn [bind fst snd].
    rewrite gate_accept.
    + eexists _, _. split; [reflexivity |]. split; [reflexivity |].
      left. reflexivity.
    + rewrite Rabs_R0. cbn. lra.
    + rewrite Rabs_pos_eq by lra. cbn. lra.
  - destruct estimates_pitch18_mesh as (Ey & Ep & Er).
    unfold SmartFaceProcessor.assess.
    change ((List.length pitch18_mesh =? 0)%nat
            || (List.length pitch18_mesh <? 468)%nat) with false.
    cbv iota. rewrite Ey, Ep, Er. cbn [bind].
    assert (Hy : SmartFaceProcessor.yaw_ok pitch10_processor 0 = true).
    { apply yaw_ok_iff. rewrite Rabs_R0. cbn. lra. }
    assert (Hp : SmartFaceProcessor.pitch_ok pitch10_processor 18 = false).
    { destruct (SmartFaceProcessor.pitch_ok pitch10_processor 18) eqn:E;
        [| reflexivity].
      apply pitch_ok_iff in E. rewrite Rabs_pos_eq in E by lra.
      cbn in E. lra. }
    unfold SmartFaceProcessor.quality_message.
    rewrite Hy, Hp. cbn [andb negb].
    eexists. split; [reflexivity |]. cbn [SmartFaceProcessor.pitch
      SmartFaceProcessor.quality_good SmartFaceProcessor.message].
    split; [reflexivity |]. split; [reflexivity |].
    rewrite (to_int_IZR 18), to_string_18. reflexivity.
Qed.

Lemma pitch_threshold_policies_witness :
  (exists s',
      SmartCaptureCalculator.Process
        (SmartCaptureCalculator.Open pitch10_options) (frame_of pitch18_face)
      = Ok (s', SmartCaptureCalculator.SendStatus (frame_of pitch18_face)
                  "Captured!"
                ++ SmartCaptureCalculator.CropAndSend
                     (SmartCaptureCalculator.Open pitch10_options)
                     (SmartCaptureCalculator.mkImage 1000 1000) pitch18_face)
      /\ SmartCaptureCalculator.current_count_ s' = 1%Z)
  /\ (exists r yaw pitch,
         SmartFaceProcessor.assess pitch10_processor pitch18_mesh = Ok r
         /\ SmartFaceProcessor.EstimateYaw pitch18_mesh = Ok yaw
         /\ SmartFaceProcessor.EstimatePitch pitch18_mesh = Ok pitch
         /\ SmartFaceProcessor.pitch r = pitch
         /\ (SmartFaceProcessor.quality_good r = true
             <-> Rabs yaw <= 15 /\ Rabs pitch <= 10)).
Proof.
  destruct pitch_threshold_policies as (Hcalc & _ & Hwasm & _).
  split.
  - assert (Hc : (SmartCaptureCalculator.current_count_
                    (SmartCaptureCalculator.Open pitch10_options)
                  < SmartCaptureCalculator.max_captures_
                      (SmartCaptureCalculator.Open pitch10_options))%Z)
      by (cbn; lia).
    assert (Hy : Rabs 0 <= SmartCaptureCalculator.max_yaw_
                             (SmartCaptureCalculator.Open pitch10_options))
      by (rewrite Rabs_R0; cbn; lra).
    assert (Hp : Rabs 18 <= SmartCaptureCalculator.max_pitch_
                              (SmartCaptureCalculator.Open pitch10_options)
                            * 2)
      by (rewrite Rabs_pos_eq by lra; cbn; lra).
    exact (proj2 (Hcalc (SmartCaptureCalculator.Open pitch10_options)
                    (frame_of pitch18_face)
                    (SmartCaptureCalculator.mkImage 1000 1000)
                    pitch18_face [] 0 18 Hc eq_refl eq_refl
                    pose_pitch18_face Hy) Hp).
  - exact (Hwasm pitch10_processor pitch18_mesh eq_refl).
Defined.

(** ** The WASM processor: detection and capture *)

Section Processor.
Import SmartFaceProcessor.

Lemma assess_full (s : state) (l : list Landmark) :
  (468 <= List.length l)%nat ->
  let yaw := Spec.ratio_yaw (nth 1 l Landmark.default)
               (nth 33 l Landmark.default) (nth 263 l Landmark.default) in
  let pitch := Spec.ratio_pitch (nth 10 l Landmark.default)
                 (nth 168 l Landmark.default) (nth 152 l Landmark.default) in
  let roll := Spec.ratio_roll (nth 33 l Landmark.default)
                (nth 263 l Landmark.default) in
  assess s l =
    Ok (mkFaceResult true (Z.of_nat (List.length l))
          (quality_message s yaw pitch) yaw pitch roll
          (yaw_ok s yaw && pitch_ok s pitch) l).
Proof.
  intros H. cbv zeta. unfold assess.
  destruct (Nat.eqb_spec (List.length l) 0); [lia |].
  destruct (Nat.ltb_spec (List.length l) 468); [lia |].
  cbn [orb].
  rewrite EstimateYaw_full, EstimatePitch_full, EstimateRoll_full by exact H.
  reflexivity.
Qed.

Lemma assess_total (s : state) (l : list Landmark) :
  exists r, assess s l = Ok r.
Proof.
  destruct (Nat.ltb_spec (List.length l) 468) as [Hs | Hf].
  - eexists. apply assess_short. exact Hs.
  - eexists. apply assess_full. exact Hf.
Qed.

Lemma same_config_refl (s : state) : same_config s s.
Proof. repeat split. Qed.

Lemma same_config_trans (s1 s2 s3 : state) :
  same_config s1 s2 -> same_config s2 s3 -> same_config s1 s3.
Proof.
  unfold same_config. intros (A & B & C & D) (A' & B' & C' & D').
  repeat split; congruence.
Qed.

Lemma processImageData_state (s : state) (width height : Z) :
  same_config s (snd (processImageData s width height))
  /\ capture_count_ (snd (processImageData s width height)) = capture_count_ s.
Proof. repeat split. Qed.

Lemma processImageData_large (s : state) (width height : Z) :
  (320 <= width)%Z -> (240 <= height)%Z ->
  List.length (fst (processImageData s width height)) = 468%nat.
Proof.
  intros Hw Hh. unfold processImageData. cbn [fst].
  destruct (Z.leb_spec 320 width); [| lia].
  destruct (Z.leb_spec 240 height); [| lia].
  cbn [andb]. rewrite length_map, length_seq. reflexivity.
Qed.

Lemma processImageData_small (s : state) (width height : Z) :
  (width < 320 \/ height < 240)%Z ->
  fst (processImageData s width height) = [].
Proof.
  intros H. unfold processImageData. cbn [fst].
  destruct (Z.leb_spec 320 width); destruct (Z.leb_spec 240 height);
    cbn [andb]; try reflexivity; lia.
Qed.

(** [detectFace] always returns, and changes [last_landmarks_] at most. *)
Lemma detectFace_total (s : state) (width height : Z) :
  exists r s',
    detectFace s width height = Ok (r, s')
    /\ same_config s s' /\ capture_count_ s' = capture_count_ s.
Proof.
  unfold detectFace.
  destruct (initialized_ s); cbn [negb].
  - destruct ((width <? 100) || (height <? 100))%Z%bool.
    + eexists _, _. split; [reflexivity |]. split;
        [apply same_config_refl | reflexivity].
    + destruct (processImageData s width height) as [l s'] eqn:E.
      destruct (assess_total s' l) as [r Hr]. rewrite Hr. cbn [bind].
      exists r, s'. split; [reflexivity |].
      replace s' with (snd (processImageData s width height))
        by (rewrite E; reflexivity).
      apply processImageData_state.
  - eexists _, _. split; [reflexivity |]. split;
      [apply same_config_refl | reflexivity].
Qed.

(** With thresholds of at least 45 and 30 degrees, every frame of at least
    320x240 pixels is accepted. *)
Lemma detectFace_lenient (s : state) (width height : Z) :
  initialized_ s = true -> 45 <= max_yaw_ s -> 30 <= max_pitch_ s ->
  (320 <= width)%Z -> (240 <= height)%Z ->
  exists r s',
    detectFace s width height = Ok (r, s')
    /\ detected r = true /\ quality_good r = true
    /\ message r = "Good quality face detected!"%string.
Proof.
  intros Hi Hy Hp Hw Hh. unfold detectFace. rewrite Hi. cbn [negb].
  destruct (Z.ltb_spec width 100); [lia |].
  destruct (Z.ltb_spec height 100); [lia |]. cbn [orb].
  pose proof (processImageData_large s width height Hw Hh) as Hlen.
  pose proof (processImageData_state s width height) as [(_ & Ey & Ep & _) _].
  destruct (processImageData s width height) as [l s'].
  cbn [fst snd] in Hlen, Ey, Ep.
  rewrite assess_full by lia. cbn [bind].
  eexists _, _. split; [reflexivity |].
  cbn [detected quality_good message].
  assert (Hyaw : forall a b c, yaw_ok s' (Spec.ratio_yaw a b c) = true).
  { intros a b c. unfold yaw_ok.
    destruct (Rle_dec (Rabs (Spec.ratio_yaw a b c)) (max_yaw_ s'))
      as [_ | N]; [reflexivity |].
    exfalso. apply N. pose proof (ratio_yaw_bound a b c). lra. }
  assert (Hpitch : forall a b c, pitch_ok s' (Spec.ratio_pitch a b c) = true).
  { intros a b c. unfold pitch_ok.
    destruct (Rle_dec (Rabs (Spec.ratio_pitch a b c)) (max_pitch_ s'))
      as [_ | N]; [reflexivity |].
    exfalso. apply N. pose proof (ratio_pitch_bound a b c). lra. }
  unfold quality_message. rewrite Hyaw, Hpitch.
  repeat split.
Qed.

(** The effect of [captureFrame] on the processor. *)
Lemma captureFrame_effect (s : state) (width height : Z) :
  exists b s',
    captureFrame s width height = Ok (b, s')
    /\ same_config s s'
    /\ capture_count_ s' = (if b then capture_count_ s + 1 else capture_count_ s)%Z
    /\ (b = true -> (capture_count_ s < max_captures_ s)%Z)
    /\ (b = true -> exists r s1,
          detectFace s width height = Ok (r, s1)
          /\ detected r = true /\ quality_good r = true).
Proof.
  unfold captureFrame.
  destruct (Z.geb_spec (capture_count_ s) (max_captures_ s)) as [Hge | Hlt].
  - exists false, s. split; [reflexivity |].
    split; [apply same_config_refl |]. split; [reflexivity |].
    split; discriminate.
  - destruct (detectFace_total s width height) as (r & s1 & Hd & Hcfg & Hcnt).
    rewrite Hd. cbn [bind].
    destruct (detected r && quality_good r) eqn:Hq.
    + eexists _, _. split; [reflexivity |].
      split; [exact Hcfg |]. cbn [capture_count_].
      split; [rewrite Hcnt; reflexivity |].
      split; [intros _; exact Hlt |].
      intros _. exists r, s1. apply andb_true_iff in Hq. tauto.
    + exists false, s1. split; [reflexivity |].
      split; [exact Hcfg |]. split; [exact Hcnt |].
      split; discriminate.
Qed.

Lemma captureFrame_limit (s : state) (width height : Z) :
  (max_captures_ s <= capture_count_ s)%Z ->
  captureFrame s width height = Ok (false, s).
Proof.
  intros H. unfold captureFrame.
  destruct (Z.geb_spec (capture_count_ s) (max_captures_ s)); [reflexivity | lia].
Qed.

End Processor.

(** C9.  [getLandmark] returns for every integer index, and for an index
    that is negative or not below the number of stored landmarks it returns
    the default landmark (0, 0, 0); the vector is only read in its range. *)
Theorem getLandmark_total (s : SmartFaceProcessor.state) (index : Z) :
  (index < 0 \/ Z.of_nat (List.length (SmartFaceProcessor.last_landmarks_ s))
                 <= index)%Z ->
  SmartFaceProcessor.getLandmark s index = Ok (Landmark.mk 0 0 0)
  /\ forall i : Z, exists lm, SmartFaceProcessor.getLandmark s i = Ok lm.
Proof.
  intros Hout. split.
  - unfold SmartFaceProcessor.getLandmark.
    destruct (Z.leb_spec 0 index); cbn [andb]; [| reflexivity].
    destruct (Z.ltb_spec index
                (Z.of_nat (List.length (SmartFaceProcessor.last_landmarks_ s))));
      [lia | reflexivity].
  - intros i. unfold SmartFaceProcessor.getLandmark.
    destruct (Z.leb_spec 0 i); cbn [andb]; [| eexists; reflexivity].
    destruct (Z.ltb_spec i
                (Z.of_nat (List.length (SmartFaceProcessor.last_landmarks_ s))));
      [| eexists; reflexivity].
    rewrite at_in_range by lia. eexists. reflexivity.
Qed.

Lemma getLandmark_total_witness :
  SmartFaceProcessor.getLandmark three_landmarks 3 = Ok (Landmark.mk 0 0 0)
  /\ SmartFaceProcessor.getLandmark three_landmarks (-1)
     = Ok (Landmark.mk 0 0 0).
Proof.
  split.
  - apply (getLandmark_total three_landmarks 3). right. cbn. lia.
  - apply (getLandmark_total three_landmarks (-1)). left. lia.
Defined.

(** In its range, [getLandmark] returns the stored landmark. *)
Lemma getLandmark_in_range (s : SmartFaceProcessor.state) (index : Z) :
  (0 <= index
   < Z.of_nat (List.length (SmartFaceProcessor.last_landmarks_ s)))%Z ->
  SmartFaceProcessor.getLandmark s index
  = Ok (nth (Z.to_nat index) (SmartFaceProcessor.last_landmarks_ s)
            Landmark.default).
Proof.
  intros [H0 H1]. unfold SmartFaceProcessor.getLandmark.
  destruct (Z.leb_spec 0 index); [| lia].
  destruct (Z.ltb_spec index
              (Z.of_nat (List.length (SmartFaceProcessor.last_landmarks_ s))));
    [| lia].
  cbn [andb]. apply at_in_range. lia.
Qed.

(** C10.  [captureFrame] always returns; when it returns false the capture
    count is unchanged, when it returns true the count has grown by exactly
    1, and in both cases [initialized_], [max_yaw_], [max_pitch_] and
    [max_captures_] are unchanged. *)
Theorem captureFrame_frame (s : SmartFaceProcessor.state) (width height : Z) :
  exists b s',
    SmartFaceProcessor.captureFrame s width height = Ok (b, s')
    /\ SmartFaceProcessor.capture_count_ s'
       = (if b then SmartFaceProcessor.capture_count_ s + 1
          else SmartFaceProcessor.capture_count_ s)%Z
    /\ SmartFaceProcessor.initialized_ s' = SmartFaceProcessor.initialized_ s
    /\ SmartFaceProcessor.max_yaw_ s' = SmartFaceProcessor.max_yaw_ s
    /\ SmartFaceProcessor.max_pitch_ s' = SmartFaceProcessor.max_pitch_ s
    /\ SmartFaceProcessor.max_captures_ s' = SmartFaceProcessor.max_captures_ s.
Proof.
  destruct (captureFrame_effect s width height)
    as (b & s' & Hc & Hcfg & Hcount & _).
  exists b, s'. split; [exact Hc |]. split; [exact Hcount | exact Hcfg].
Qed.

(** ** Sequences of captures *)

Section ProcessorCaptures.
Import SmartFaceProcessor.

Lemma assess_config (s s' : state) (l : list Landmark) :
  same_config s s' -> assess s' l = assess s l.
Proof.
  intros (_ & Hy & Hp & _).
  unfold assess, quality_message, yaw_ok, pitch_ok.
  rewrite Hy, Hp. reflexivity.
Qed.

Lemma processor_accepts_config (s s' : state) (frame : Z * Z) :
  same_config s s' -> processor_accepts s frame -> processor_accepts s' frame.
Proof.
  intros Hcfg (r & s1 & Hd & Hdet & Hq).
  pose proof Hcfg as (Hi & _).
  unfold processor_accepts, detectFace in *. rewrite Hi.
  destruct (initialized_ s); cbn [negb] in *.
  - destruct ((fst frame <? 100) || (snd frame <? 100))%Z%bool.
    + injection Hd as <- _. discriminate Hdet.
    + pose proof (processImageData_state s (fst frame) (snd frame))
        as [Hs _].
      pose proof (processImageData_state s' (fst frame) (snd frame))
        as [Hs' _].
      assert (Hl : fst (processImageData s' (fst frame) (snd frame))
                   = fst (processImageData s (fst frame) (snd frame)))
        by reflexivity.
      destruct (processImageData s (fst frame) (snd frame)) as [l t].
      destruct (processImageData s' (fst frame) (snd frame)) as [l' t'].
      cbn [fst snd] in *. subst l'.
      assert (Htt : same_config t t').
      { destruct Hcfg as (A & B & C & D), Hs as (A1 & B1 & C1 & D1),
          Hs' as (A2 & B2 & C2 & D2).
        repeat split; congruence. }
      rewrite (assess_config t t' l Htt).
      destruct (assess t l) as [r' |]; cbn [bind] in *; [| discriminate].
      injection Hd as -> _. eexists _, _. split; [reflexivity |].
      split; assumption.
  - injection Hd as <- _. discriminate Hdet.
Qed.

Lemma captureFrame_accept (s : state) (frame : Z * Z) :
  processor_accepts s frame ->
  (capture_count_ s < max_captures_ s)%Z ->
  exists s',
    captureFrame s (fst frame) (snd frame) = Ok (true, s')
    /\ same_config s s'
    /\ capture_count_ s' = (capture_count_ s + 1)%Z.
Proof.
  intros (r & s1 & Hd & Hdet & Hq) Hlt.
  destruct (detectFace_total s (fst frame) (snd frame))
    as (r' & s1' & Hd' & Hcfg & Hcnt).
  rewrite Hd in Hd'. injection Hd' as <- <-.
  unfold captureFrame.
  destruct (Z.geb_spec (capture_count_ s) (max_captures_ s)); [lia |].
  rewrite Hd. cbn [bind]. rewrite Hdet, Hq. cbn [andb].
  eexists. split; [reflexivity |]. split; [exact Hcfg |].
  cbn [capture_count_]. rewrite Hcnt. reflexivity.
Qed.

Lemma captures_accepted (frames : list (Z * Z)) :
  forall s : state,
    (forall f, In f frames -> processor_accepts s f) ->
    (capture_count_ s + Z.of_nat (List.length frames) <= max_captures_ s)%Z ->
    exists s',
      captures s frames = Ok (repeat true (List.length frames), s')
      /\ same_config s s'
      /\ capture_count_ s'
         = (capture_count_ s + Z.of_nat (List.length frames))%Z.
Proof.
  induction frames as [| [w h] frames IH]; intros s Hacc Hroom.
  - exists s. split; [reflexivity |]. split; [apply same_config_refl |].
    cbn. lia.
  - cbn [List.length] in Hroom.
    destruct (captureFrame_accept s (w, h)) as (s1 & Hc & Hcfg & Hcnt).
    + apply Hacc. left. reflexivity.
    + lia.
    + pose proof Hcfg as (_ & _ & _ & Hmax).
      destruct (IH s1) as (s2 & Hrest & Hcfg2 & Hcnt2).
      * intros f Hf. apply (processor_accepts_config s s1); [exact Hcfg |].
        apply Hacc. right. exact Hf.
      * lia.
      * exists s2. cbn [captures fst snd] in *. rewrite Hc. cbn [bind snd fst].
        rewrite Hrest. cbn [bind fst snd repeat List.length].
        split; [reflexivity |].
        split; [apply (same_config_trans s s1 s2); assumption |]. lia.
Qed.

Lemma captures_saturated (frames : list (Z * Z)) (s : state) :
  (max_captures_ s <= capture_count_ s)%Z ->
  captures s frames = Ok (repeat false (List.length frames), s).
Proof.
  intros H. induction frames as [| [w h] frames IH]; [reflexivity |].
  cbn [captures]. rewrite captureFrame_limit by exact H. cbn [bind snd fst].
  rewrite IH. reflexivity.
Qed.

Lemma captures_app (f1 f2 : list (Z * Z)) :
  forall (s s1 : state) (r1 : list bool),
    captures s f1 = Ok (r1, s1) ->
    captures s (f1 ++ f2)
    = (r2 <- captures s1 f2 ;; Ok (r1 ++ fst r2, snd r2)).
Proof.
  induction f1 as [| [w h] f1 IH]; intros s s1 r1 H.
  - injection H as <- <-. cbn [app captures].
    destruct (captures s f2) as [[r2 s2] |]; reflexivity.
  - cbn [app captures] in *.
    destruct (captureFrame s w h) as [[b sa] |]; cbn [bind fst snd] in *;
      [| discriminate].
    destruct (captures sa f1) as [[ra sb] |] eqn:E; cbn [bind fst snd] in *;
      [| discriminate].
    injection H as <- <-.
    rewrite (IH sa sb ra E).
    destruct (captures sb f2) as [[r2 s2] |]; reflexivity.
Qed.

End ProcessorCaptures.

Section CalculatorCaptures.
Import SmartCaptureCalculator.

Lemma Process_accept (s : state) (cc : CalculatorContext) :
  calculator_accepts s cc ->
  (current_count_ s < max_captures_ s)%Z ->
  exists s' out,
    Process s cc = Ok (s', out)
    /\ current_count_ s' = (current_count_ s + 1)%Z
    /\ max_captures_ s' = max_captures_ s
    /\ max_yaw_ s' = max_yaw_ s /\ max_pitch_ s' = max_pitch_ s.
Proof.
  intros (img & l & rest & yaw & pitch & Hi & Hl & Hp & Hy & Hpi) Hlt.
  rewrite (Process_below s cc Hlt), Hi, Hl, Hp. cbn [bind fst snd].
  rewrite gate_accept by assumption.
  eexists _, _. split; [reflexivity |]. repeat split.
Qed.

Lemma calculator_accepts_config (s s' : state) (cc : CalculatorContext) :
  max_yaw_ s' = max_yaw_ s -> max_pitch_ s' = max_pitch_ s ->
  calculator_accepts s cc -> calculator_accepts s' cc.
Proof.
  intros Hy Hp (img & l & rest & yaw & pitch & H).
  exists img, l, rest, yaw, pitch. rewrite Hy, Hp. exact H.
Qed.

Lemma run_accepted (ccs : list CalculatorContext) :
  forall s : state,
    (forall cc, In cc ccs -> calculator_accepts s cc) ->
    (current_count_ s + Z.of_nat (List.length ccs) <= max_captures_ s)%Z ->
    exists s' out,
      run s ccs = Ok (s', out)
      /\ current_count_ s' = (current_count_ s + Z.of_nat (List.length ccs))%Z
      /\ max_captures_ s' = max_captures_ s.
Proof.
  induction ccs as [| cc ccs IH]; intros s Hacc Hroom.
  - exists s, []. split; [reflexivity |]. cbn. split; [lia | reflexivity].
  - cbn [List.length] in Hroom.
    destruct (Process_accept s cc) as (s1 & o1 & HP & Hcnt & Hmax & Hy & Hp).
    + apply Hacc. left. reflexivity.
    + lia.
    + destruct (IH s1) as (s2 & o2 & Hrun & Hcnt2 & Hmax2).
      * intros c Hc. apply (calculator_accepts_config s s1); try assumption.
        apply Hacc. right. exact Hc.
      * lia.
      * exists s2, (o1 ++ o2). cbn [run]. rewrite HP. cbn [bind fst snd].
        rewrite Hrun. cbn [bind fst snd List.length].
        split; [reflexivity |]. split; [lia | congruence].
Qed.

Lemma run_app (c1 c2 : list CalculatorContext) :
  forall (s s1 : state) (o1 : list Packet),
    run s c1 = Ok (s1, o1) ->
    run s (c1 ++ c2) = (r2 <- run s1 c2 ;; Ok (fst r2, o1 ++ snd r2)).
Proof.
  induction c1 as [| cc c1 IH]; intros s s1 o1 H.
  - injection H as <- <-. cbn [app run].
    destruct (run s c2) as [[s2 o2] |]; reflexivity.
  - cbn [app run] in *.
    destruct (Process s cc) as [[sa oa] |]; cbn [bind fst snd] in *;
      [| discriminate].
    destruct (run sa c1) as [[sb ob] |] eqn:E; cbn [bind fst snd] in *;
      [| discriminate].
    injection H as <- <-.
    rewrite (IH sa sb ob E).
    destruct (run sb c2) as [[s2 o2] |]; cbn [bind fst snd];
      [rewrite app_assoc |]; reflexivity.
Qed.

End CalculatorCaptures.

Lemma split_last {A : Type} (l : list A) (n : nat) :
  List.length l = S n ->
  exists l1 a, l = l1 ++ [a] /\ List.length l1 = n.
Proof.
  intros H.
  destruct (exists_last (l := l)) as (l1 & a & E).
  - intros ->. discriminate H.
  - exists l1, a. split; [exact E |].
    rewrite E, length_app in H. cbn in H. lia.
Qed.

(** C7.  Starting from a count of 0 with max_captures >= 0,
    max_captures + 1 calls on frames that the gate accepts give exactly
    max_captures captures: at the WASM call site [captureFrame] returns true
    max_captures times and false the last time, at the calculator
    call site the count ends at max_captures.  A call made when the count
    has reached max_captures returns at once: [captureFrame] returns false
    and leaves the processor as it was (no detection, [last_landmarks_]
    untouched), and [Process] returns with the state unchanged and no packet
    sent, whatever the inputs are. *)
Theorem capture_limit :
  (forall (s : SmartFaceProcessor.state) (frames : list (Z * Z)),
      SmartFaceProcessor.capture_count_ s = 0%Z ->
      (0 <= SmartFaceProcessor.max_captures_ s)%Z ->
      List.length frames = S (Z.to_nat (SmartFaceProcessor.max_captures_ s)) ->
      (forall f, In f frames -> processor_accepts s f) ->
      exists s',
        SmartFaceProcessor.captures s frames
        = Ok (repeat true (Z.to_nat (SmartFaceProcessor.max_captures_ s))
                ++ [false], s')
        /\ SmartFaceProcessor.capture_count_ s'
           = SmartFaceProcessor.max_captures_ s)
  /\ (forall (s : SmartFaceProcessor.state) (width height : Z),
         (SmartFaceProcessor.max_captures_ s
            <= SmartFaceProcessor.capture_count_ s)%Z ->
         SmartFaceProcessor.captureFrame s width height = Ok (false, s))
  /\ (forall (s : SmartCaptureCalculator.state)
             (ccs : list SmartCaptureCalculator.CalculatorContext),
         SmartCaptureCalculator.current_count_ s = 0%Z ->
         (0 <= SmartCaptureCalculator.max_captures_ s)%Z ->
         List.length ccs
         = S (Z.to_nat (SmartCaptureCalculator.max_captures_ s)) ->
         (forall cc, In cc ccs -> calculator_accepts s cc) ->
         exists s' out,
           SmartCaptureCalculator.run s ccs = Ok (s', out)
           /\ SmartCaptureCalculator.current_count_ s'
              = SmartCaptureCalculator.max_captures_ s)
  /\ (forall (s : SmartCaptureCalculator.state)
             (cc : SmartCaptureCalculator.CalculatorContext),
         (SmartCaptureCalculator.max_captures_ s
            <= SmartCaptureCalculator.current_count_ s)%Z ->
         SmartCaptureCalculator.Process s cc = Ok (s, [])).
Proof.
  split; [| split; [| split]].
  - intros s frames H0 Hmax Hlen Hacc.
    destruct (split_last frames _ Hlen) as (f1 & [w h] & -> & Hl1).
    destruct (captures_accepted f1 s) as (s1 & Hc & Hcfg & Hcnt).
    + intros f Hf. apply Hacc. apply in_or_app. left. exact Hf.
    + rewrite Hl1. lia.
    + destruct Hcfg as (_ & _ & _ & Hm).
      assert (Hfull : (SmartFaceProcessor.max_captures_ s1
                       <= SmartFaceProcessor.capture_count_ s1)%Z)
        by (rewrite Hl1 in Hcnt; lia).
      exists s1. rewrite (captures_app f1 [(w, h)] s s1 _ Hc).
      rewrite (captures_saturated [(w, h)] s1 Hfull). cbn [bind fst snd].
      rewrite Hl1 in *. split; [reflexivity | lia].
  - intros s width height H. apply captureFrame_limit. exact H.
  - intros s ccs H0 Hmax Hlen Hacc.
    destruct (split_last ccs _ Hlen) as (c1 & cc & -> & Hl1).
    destruct (run_accepted c1 s) as (s1 & o1 & Hr & Hcnt & Hm).
    + intros c Hc. apply Hacc. apply in_or_app. left. exact Hc.
    + rewrite Hl1. lia.
    + assert (Hfull : (SmartCaptureCalculator.max_captures_ s1
                       <= SmartCaptureCalculator.current_count_ s1)%Z)
        by (rewrite Hl1 in Hcnt; lia).
      rewrite (run_app c1 [cc] s s1 o1 Hr). cbn [SmartCaptureCalculator.run].
      rewrite (Process_limit s1 cc Hfull). cbn [bind fst snd].
      eexists _, _. split; [reflexivity |]. rewrite Hl1 in Hcnt. lia.
  - intros s cc H. apply Process_limit. exact H.
Qed.

Lemma lenient_processor_accepts (f : Z * Z) :
  In f (repeat (640, 480)%Z 6) -> processor_accepts lenient_processor f.
Proof.
  intros Hf. apply repeat_spec in Hf. subst f.
  assert (Hy : 45 <= SmartFaceProcessor.max_yaw_ lenient_processor)
    by (cbn; lra).
  assert (Hp : 30 <= SmartFaceProcessor.max_pitch_ lenient_processor)
    by (cbn; lra).
  destruct (detectFace_lenient lenient_processor 640 480 eq_refl Hy Hp)
    as (r & s' & Hd & Hdet & Hq & _); [lia | lia |].
  exists r, s'. split; [exact Hd |]. split; assumption.
Qed.

Lemma example_calculator_accepts (cc : SmartCaptureCalculator.CalculatorContext) :
  In cc (repeat (frame_of (blank 468)) 6) ->
  calculator_accepts (SmartCaptureCalculator.Open example_options) cc.
Proof.
  intros Hc. apply repeat_spec in Hc. subst cc.
  exists (SmartCaptureCalculator.mkImage 1000 1000), (blank 468), [], 0, 0.
  split; [reflexivity |]. split; [reflexivity |].
  split; [apply pose_blank; lia |].
  rewrite Rabs_R0. cbn. split; lra.
Qed.

Lemma capture_limit_witness :
  (exists s',
      SmartFaceProcessor.captures lenient_processor (repeat (640, 480)%Z 6)
      = Ok ([true; true; true; true; true; false], s')
      /\ SmartFaceProcessor.capture_count_ s' = 5%Z)
  /\ (exists s' out,
         SmartCaptureCalculator.run
           (SmartCaptureCalculator.Open example_options)
           (repeat (frame_of (blank 468)) 6) = Ok (s', out)
         /\ SmartCaptureCalculator.current_count_ s' = 5%Z).
Proof.
  destruct capture_limit as (Hw & _ & Hc & _).
  split.
  - apply (Hw lenient_processor (repeat (640, 480)%Z 6));
      [reflexivity | cbn; lia | reflexivity | exact lenient_processor_accepts].
  - apply (Hc (SmartCaptureCalculator.Open example_options)
              (repeat (frame_of (blank 468)) 6));
      [reflexivity | cbn; lia | reflexivity | exact example_calculator_accepts].
Defined.

(** ** The counter invariant *)

Section ProcessorInvariant.
Import SmartFaceProcessor.

Lemma call_total (c : Call) (s : state) : exists s', call c s = Ok s'.
Proof.
  destruct c; cbn [call]; try (eexists; reflexivity).
  - destruct (detectFace_total s width height) as (r & s' & H & _).
    rewrite H. eexists. reflexivity.
  - destruct (captureFrame_effect s width height) as (b & s' & H & _).
    rewrite H. eexists. reflexivity.
Qed.

(** What each call does to the counter and to the limit. *)
Lemma call_counter (c : Call) (s s' : state) :
  call c s = Ok s' ->
  match c with
  | Initialize | ResetCaptures =>
      capture_count_ s' = 0%Z /\ max_captures_ s' = max_captures_ s
  | SetMaxCaptures count =>
      capture_count_ s' = capture_count_ s /\ max_captures_ s' = count
  | CaptureFrame _ _ =>
      max_captures_ s' = max_captures_ s
      /\ (capture_count_ s' = capture_count_ s
          \/ (capture_count_ s' = capture_count_ s + 1
              /\ capture_count_ s < max_captures_ s))%Z
  | _ => capture_count_ s' = capture_count_ s
         /\ max_captures_ s' = max_captures_ s
  end.
Proof.
  destruct c; cbn [call]; intros H;
    try (injection H as <-; split; reflexivity).
  - destruct (detectFace_total s width height)
      as (r & s1 & Hd & (_ & _ & _ & Hm) & Hc).
    rewrite Hd in H. injection H as <-. split; assumption.
  - destruct (captureFrame_effect s width height)
      as (b & s1 & Hd & (_ & _ & _ & Hm) & Hc & Hlt & _).
    rewrite Hd in H. injection H as <-. split; [exact Hm |].
    destruct b; [right | left].
    + split; [exact Hc | apply Hlt; reflexivity].
    + exact Hc.
Qed.

Lemma call_invariant (c : Call) (s : state) :
  processor_invariant s -> keeps_limit c s ->
  exists s', call c s = Ok s' /\ processor_invariant s'.
Proof.
  intros [H0 H1] Hk. destruct (call_total c s) as [s' Hs].
  exists s'. split; [exact Hs |].
  apply call_counter in Hs. unfold processor_invariant.
  destruct c; cbn [keeps_limit] in Hk; lia.
Qed.

Lemma call_nonnegative (c : Call) (s s' : state) :
  (0 <= capture_count_ s)%Z -> call c s = Ok s' ->
  (0 <= capture_count_ s')%Z.
Proof.
  intros H0 Hs. apply call_counter in Hs. destruct c; lia.
Qed.

Lemma call_monotone (c : Call) (s s' : state) :
  resets c = false -> call c s = Ok s' ->
  (capture_count_ s <= capture_count_ s' <= capture_count_ s + 1)%Z.
Proof.
  intros Hr Hs. apply call_counter in Hs.
  destruct c; try discriminate Hr; lia.
Qed.

Lemma calls_nonnegative (cs : list Call) :
  forall s, (0 <= capture_count_ s)%Z ->
            exists s', calls cs s = Ok s' /\ (0 <= capture_count_ s')%Z.
Proof.
  induction cs as [| c cs IH]; intros s H0.
  - exists s. split; [reflexivity | exact H0].
  - destruct (call_total c s) as [s1 H1]. cbn [calls]. rewrite H1.
    cbn [bind]. apply IH. apply (call_nonnegative c s s1 H0 H1).
Qed.

Lemma calls_invariant (cs : list Call) :
  forall s, processor_invariant s -> keep_limit cs s ->
            exists s', calls cs s = Ok s' /\ processor_invariant s'.
Proof.
  induction cs as [| c cs IH]; intros s Hinv Hk.
  - exists s. split; [reflexivity | exact Hinv].
  - destruct Hk as [Hk Hrest].
    destruct (call_invariant c s Hinv Hk) as (s1 & H1 & Hinv1).
    cbn [calls]. rewrite H1. cbn [bind]. apply IH; [exact Hinv1 |].
    apply Hrest. exact H1.
Qed.

End ProcessorInvariant.

Lemma Process_counter (s s' : SmartCaptureCalculator.state)
      (cc : SmartCaptureCalculator.CalculatorContext)
      (out : list SmartCaptureCalculator.Packet) :
  SmartCaptureCalculator.Process s cc = Ok (s', out) ->
  SmartCaptureCalculator.max_captures_ s'
  = SmartCaptureCalculator.max_captures_ s
  /\ (SmartCaptureCalculator.current_count_ s'
      = SmartCaptureCalculator.current_count_ s
      \/ (SmartCaptureCalculator.current_count_ s'
          = SmartCaptureCalculator.current_count_ s + 1
          /\ SmartCaptureCalculator.current_count_ s
             < SmartCaptureCalculator.max_captures_ s))%Z.
Proof.
  intros H.
  destruct (Z_lt_le_dec (SmartCaptureCalculator.current_count_ s)
                        (SmartCaptureCalculator.max_captures_ s))
    as [Hlt | Hge].
  - rewrite (Process_below s cc Hlt) in H.
    destruct (SmartCaptureCalculator.IMAGE cc) as [img |];
      [| injection H as <- _; split; [reflexivity | left; reflexivity]].
    destruct (SmartCaptureCalculator.LANDMARKS cc) as [[| l rest] |];
      try (injection H as <- _; split; [reflexivity | left; reflexivity]).
    destruct (SmartCaptureCalculator.pose l) as [[yaw pitch] |];
      cbn [bind fst snd] in H; [| discriminate].
    unfold SmartCaptureCalculator.gate in H.
    destruct (Rgt_dec _ _);
      [injection H as <- _; split; [reflexivity | left; reflexivity] |].
    destruct (Rgt_dec _ _);
      [injection H as <- _; split; [reflexivity | left; reflexivity] |].
    injection H as <- _. split; [reflexivity |]. right.
    split; [reflexivity | exact Hlt].
  - rewrite (Process_limit s cc Hge) in H. injection H as <- _.
    split; [reflexivity | left; reflexivity].
Qed.

Lemma run_invariant (ccs : list SmartCaptureCalculator.CalculatorContext) :
  forall (s s' : SmartCaptureCalculator.state)
         (out : list SmartCaptureCalculator.Packet),
    calculator_invariant s ->
    SmartCaptureCalculator.run s ccs = Ok (s', out) ->
    calculator_invariant s'
    /\ (SmartCaptureCalculator.current_count_ s
        <= SmartCaptureCalculator.current_count_ s')%Z.
Proof.
  induction ccs as [| cc ccs IH]; intros s s' out Hinv H.
  - injection H as <- _. split; [exact Hinv | lia].
  - cbn [SmartCaptureCalculator.run] in H.
    destruct (SmartCaptureCalculator.Process s cc) as [[s1 o1] |] eqn:HP;
      cbn [bind fst snd] in H; [| discriminate].
    destruct (SmartCaptureCalculator.run s1 ccs) as [[s2 o2] |] eqn:HR;
      cbn [bind fst snd] in H; [| discriminate].
    injection H as <- _.
    apply Process_counter in HP. destruct HP as [Hm Hc].
    assert (Hinv1 : calculator_invariant s1)
      by (unfold calculator_invariant in *; lia).
    destruct (IH s1 s2 o2 Hinv1 HR) as [Hinv2 Hle].
    split; [exact Hinv2 | lia].
Qed.

(** [captureFrame] raises the count exactly for an accepted frame below the
    limit; the other calls that do not reset leave the count alone. *)
Lemma call_raises (c : SmartFaceProcessor.Call)
      (s s' : SmartFaceProcessor.state) :
  SmartFaceProcessor.call c s = Ok s' -> resets c = false ->
  (SmartFaceProcessor.capture_count_ s'
   = (SmartFaceProcessor.capture_count_ s + 1)%Z
   /\ exists width height,
        c = SmartFaceProcessor.CaptureFrame width height
        /\ (SmartFaceProcessor.capture_count_ s
            < SmartFaceProcessor.max_captures_ s)%Z
        /\ processor_accepts s (width, height))
  \/ (SmartFaceProcessor.capture_count_ s'
      = SmartFaceProcessor.capture_count_ s
      /\ forall width height,
           c = SmartFaceProcessor.CaptureFrame width height ->
           ~ ((SmartFaceProcessor.capture_count_ s
               < SmartFaceProcessor.max_captures_ s)%Z
              /\ processor_accepts s (width, height))).
Proof.
  intros H Hr.
  destruct c; try discriminate Hr; cbn [SmartFaceProcessor.call] in H;
    try (injection H as <-; right; split; [reflexivity | discriminate]).
  - destruct (detectFace_total s width height) as (r & s1 & Hd & _ & Hc).
    rewrite Hd in H. injection H as <-.
    right. split; [exact Hc | discriminate].
  - destruct (captureFrame_effect s width height)
      as (b & s1 & Hd & _ & Hc & Hlt & Hacc).
    rewrite Hd in H. injection H as <-. destruct b.
    + left. split; [exact Hc |]. exists width, height.
      split; [reflexivity |]. split; [apply Hlt; reflexivity |].
      destruct (Hacc eq_refl) as (r & s2 & Hdet & Hface & Hq).
      exists r, s2. split; [exact Hdet |]. split; assumption.
    + right. split; [exact Hc |].
      intros w h E [Hbelow Ha]. injection E as <- <-.
      destruct (captureFrame_accept s (width, height) Ha Hbelow)
        as (s2 & Hcap & _).
      cbn [fst snd] in Hcap. rewrite Hd in Hcap. discriminate Hcap.
Qed.

Lemma call_resets (c : SmartFaceProcessor.Call)
      (s s' : SmartFaceProcessor.state) :
  SmartFaceProcessor.call c s = Ok s' -> resets c = true ->
  SmartFaceProcessor.capture_count_ s' = 0%Z.
Proof.
  intros H Hr. apply call_counter in H.
  destruct c; try discriminate Hr; tauto.
Qed.

Lemma pose_deterministic (l : list Landmark) (p q : R * R) :
  SmartCaptureCalculator.pose l = Ok p ->
  SmartCaptureCalculator.pose l = Ok q -> p = q.
Proof. intros Hp Hq. rewrite Hp in Hq. injection Hq as <-. reflexivity. Qed.

(** [Process] raises the count exactly for an accepted frame below the
    limit. *)
Lemma Process_raises (s s' : SmartCaptureCalculator.state)
      (cc : SmartCaptureCalculator.CalculatorContext)
      (out : list SmartCaptureCalculator.Packet) :
  SmartCaptureCalculator.Process s cc = Ok (s', out) ->
  (SmartCaptureCalculator.current_count_ s'
   = (SmartCaptureCalculator.current_count_ s + 1)%Z
   /\ (SmartCaptureCalculator.current_count_ s
       < SmartCaptureCalculator.max_captures_ s)%Z
   /\ calculator_accepts s cc)
  \/ (SmartCaptureCalculator.current_count_ s'
      = SmartCaptureCalculator.current_count_ s
      /\ ~ ((SmartCaptureCalculator.current_count_ s
             < SmartCaptureCalculator.max_captures_ s)%Z
            /\ calculator_accepts s cc)).
Proof.
  intros H.
  destruct (Z_lt_le_dec (SmartCaptureCalculator.current_count_ s)
                        (SmartCaptureCalculator.max_captures_ s))
    as [Hlt | Hge].
  - rewrite (Process_below s cc Hlt) in H.
    destruct (SmartCaptureCalculator.IMAGE cc) as [img |] eqn:Hi.
    2:{ injection H as <- _. right. split; [reflexivity |].
        intros [_ (img & l & rest & yaw & pitch & E & _)]. congruence. }
    destruct (SmartCaptureCalculator.LANDMARKS cc) as [[| l rest] |] eqn:Hl.
    + injection H as <- _. right. split; [reflexivity |].
      intros [_ (img' & l & rest & yaw & pitch & _ & E & _)]. congruence.
    + destruct (SmartCaptureCalculator.pose l) as [[yaw pitch] |] eqn:Hp;
        cbn [bind fst snd] in H; [| discriminate].
      unfold SmartCaptureCalculator.gate in H.
      destruct (Rgt_dec (Rabs yaw) (SmartCaptureCalculator.max_yaw_ s))
        as [Hy | Hy].
      { injection H as <- _. right. split; [reflexivity |].
        intros [_ (img' & l' & rest' & yaw' & pitch' & _ & E & Hp' & Hy' & _)].
        rewrite Hl in E. injection E as <- <-.
        pose proof (pose_deterministic l _ _ Hp Hp') as E.
        injection E as <- <-. lra. }
      destruct (Rgt_dec (Rabs pitch) (SmartCaptureCalculator.max_pitch_ s * 2))
        as [Hpi | Hpi].
      { injection H as <- _. right. split; [reflexivity |].
        intros [_ (img' & l' & rest' & yaw' & pitch' & _ & E & Hp' & _ & Hpi')].
        rewrite Hl in E. injection E as <- <-.
        pose proof (pose_deterministic l _ _ Hp Hp') as E.
        injection E as <- <-. lra. }
      injection H as <- _. left. split; [reflexivity |].
      split; [exact Hlt |].
      exists img, l, rest, yaw, pitch.
      split; [exact Hi |]. split; [exact Hl |]. split; [exact Hp |].
      split; lra.
    + injection H as <- _. right. split; [reflexivity |].
      intros [_ (img' & l & rest & yaw & pitch & _ & E & _)]. congruence.
  - rewrite (Process_limit s cc Hge) in H. injection H as <- _.
    right. split; [reflexivity |]. intros [Hlt _]. lia.
Qed.

(** [Process] returns on every frame whose first face can be read. *)
Lemma Process_readable (s : SmartCaptureCalculator.state)
      (cc : SmartCaptureCalculator.CalculatorContext) :
  readable cc ->
  exists s' out, SmartCaptureCalculator.Process s cc = Ok (s', out).
Proof.
  intros Hread.
  destruct (Z_lt_le_dec (SmartCaptureCalculator.current_count_ s)
                        (SmartCaptureCalculator.max_captures_ s))
    as [Hlt | Hge].
  - rewrite (Process_below s cc Hlt).
    destruct (SmartCaptureCalculator.IMAGE cc) as [img |];
      [| eexists _, _; reflexivity].
    destruct (SmartCaptureCalculator.LANDMARKS cc) as [[| l rest] |] eqn:Hl;
      try (eexists _, _; reflexivity).
    rewrite pose_in_range by (apply (Hread l rest); exact Hl).
    cbn [bind fst snd].
    destruct (SmartCaptureCalculator.gate s cc img l _ _) as [s' out].
    exists s', out. reflexivity.
  - rewrite (Process_limit s cc Hge). eexists _, _. reflexivity.
Qed.

Lemma run_readable (ccs : list SmartCaptureCalculator.CalculatorContext) :
  forall s : SmartCaptureCalculator.state,
    (forall cc, In cc ccs -> readable cc) ->
    exists s' out, SmartCaptureCalculator.run s ccs = Ok (s', out).
Proof.
  induction ccs as [| cc ccs IH]; intros s Hread.
  - eexists _, _. reflexivity.
  - destruct (Process_readable s cc) as (s1 & o1 & H1);
      [apply Hread; left; reflexivity |].
    destruct (IH s1) as (s2 & o2 & H2);
      [intros c Hc; apply Hread; right; exact Hc |].
    cbn [SmartCaptureCalculator.run]. rewrite H1. cbn [bind fst snd].
    rewrite H2. cbn [bind]. eexists _, _. reflexivity.
Qed.

(** C8, as amended.  The count starts at 0 and is never negative in a
    reachable state.  At the WASM processor, 0 <= count <= max_captures is
    preserved by every exposed call except [setMaxCaptures] with an argument
    below the current count, which leaves the count above the new limit.
    Every call returns; [initialize] and [resetCaptures] set the count to 0;
    among the other calls only a [captureFrame] on a frame that the gate
    accepts, made below the limit, changes the count, and it raises it by
    exactly 1.  At the calculator, [Open] with max_captures >= 0 establishes
    the invariant; every sequence of [Process] calls on frames whose first
    face can be read (it has the landmarks 1, 234 and 454) returns,
    preserves the invariant and never lowers the count, and so does every
    other sequence that returns; a [Process] call raises the count, by
    exactly 1, exactly when the frame is accepted below the limit. *)
Theorem counter_invariant :
  (SmartFaceProcessor.capture_count_ SmartFaceProcessor.new = 0%Z
   /\ processor_invariant SmartFaceProcessor.new)
  /\ (forall cs,
         exists s, SmartFaceProcessor.calls cs SmartFaceProcessor.new = Ok s
                   /\ (0 <= SmartFaceProcessor.capture_count_ s)%Z)
  /\ (forall c s,
         processor_invariant s -> keeps_limit c s ->
         exists s', SmartFaceProcessor.call c s = Ok s'
                    /\ processor_invariant s')
  /\ (forall cs,
         keep_limit cs SmartFaceProcessor.new ->
         exists s, SmartFaceProcessor.calls cs SmartFaceProcessor.new = Ok s
                   /\ processor_invariant s)
  /\ (forall c s,
         exists s',
           SmartFaceProcessor.call c s = Ok s'
           /\ (resets c = true ->
               SmartFaceProcessor.capture_count_ s' = 0%Z)
           /\ (resets c = false ->
               (SmartFaceProcessor.capture_count_ s'
                = (SmartFaceProcessor.capture_count_ s + 1)%Z
                /\ exists width height,
                     c = SmartFaceProcessor.CaptureFrame width height
                     /\ (SmartFaceProcessor.capture_count_ s
                         < SmartFaceProcessor.max_captures_ s)%Z
                     /\ processor_accepts s (width, height))
               \/ (SmartFaceProcessor.capture_count_ s'
                   = SmartFaceProcessor.capture_count_ s
                   /\ forall width height,
                        c = SmartFaceProcessor.CaptureFrame width height ->
                        ~ ((SmartFaceProcessor.capture_count_ s
                            < SmartFaceProcessor.max_captures_ s)%Z
                           /\ processor_accepts s (width, height)))))
  /\ (forall s count,
         (count < SmartFaceProcessor.capture_count_ s)%Z ->
         ~ processor_invariant (SmartFaceProcessor.setMaxCaptures s count))
  /\ (forall options,
         (0 <= SmartCaptureCalculator.max_captures options)%Z ->
         SmartCaptureCalculator.current_count_
           (SmartCaptureCalculator.Open options) = 0%Z
         /\ calculator_invariant (SmartCaptureCalculator.Open options))
  /\ (forall s ccs,
         calculator_invariant s ->
         (forall cc, In cc ccs -> readable cc) ->
         exists s' out,
           SmartCaptureCalculator.run s ccs = Ok (s', out)
           /\ calculator_invariant s'
           /\ (SmartCaptureCalculator.current_count_ s
               <= SmartCaptureCalculator.current_count_ s')%Z)
  /\ (forall s ccs s' out,
         calculator_invariant s ->
         SmartCaptureCalculator.run s ccs = Ok (s', out) ->
         calculator_invariant s'
         /\ (SmartCaptureCalculator.current_count_ s
             <= SmartCaptureCalculator.current_count_ s')%Z)
  /\ (forall s cc s' out,
         SmartCaptureCalculator.Process s cc = Ok (s', out) ->
         (SmartCaptureCalculator.current_count_ s'
          = (SmartCaptureCalculator.current_count_ s + 1)%Z
          /\ (SmartCaptureCalculator.current_count_ s
              < SmartCaptureCalculator.max_captures_ s)%Z
          /\ calculator_accepts s cc)
         \/ (SmartCaptureCalculator.current_count_ s'
             = SmartCaptureCalculator.current_count_ s
             /\ ~ ((SmartCaptureCalculator.current_count_ s
                    < SmartCaptureCalculator.max_captures_ s)%Z
                   /\ calculator_accepts s cc))).
Proof.
  assert (Hnew : processor_invariant SmartFaceProcessor.new)
    by (unfold processor_invariant; cbn; lia).
  split; [split; [reflexivity | exact Hnew] |].
  split; [intros cs; apply calls_nonnegative; cbn; lia |].
  split; [exact call_invariant |].
  split; [intros cs Hk; apply calls_invariant; assumption |].
  split.
  { intros c s. destruct (call_total c s) as [s' Hs]. exists s'.
    split; [exact Hs |]. split.
    - apply (call_resets c s s' Hs).
    - apply (call_raises c s s' Hs). }
  split; [intros s count Hlt [_ Hle]; cbn in Hle; lia |].
  split.
  { intros options Hmax. split; [reflexivity |].
    unfold calculator_invariant. cbn. lia. }
  split.
  { intros s ccs Hinv Hread.
    destruct (run_readable ccs s Hread) as (s' & out & Hrun).
    exists s', out. split; [exact Hrun |].
    apply (run_invariant ccs s s' out Hinv Hrun). }
  split.
  { intros s ccs s' out Hinv Hrun.
    apply (run_invariant ccs s s' out Hinv Hrun). }
  intros s cc s' out. apply Process_raises.
Qed.

Lemma counter_invariant_witness :
  (exists s',
      SmartFaceProcessor.call (SmartFaceProcessor.SetMaxCaptures 3)
        SmartFaceProcessor.new = Ok s'
      /\ processor_invariant s')
  /\ (exists s,
         SmartFaceProcessor.calls
           [SmartFaceProcessor.Initialize;
            SmartFaceProcessor.CaptureFrame 640 480;
            SmartFaceProcessor.ResetCaptures] SmartFaceProcessor.new = Ok s
         /\ processor_invariant s)
  /\ (exists s' out,
         SmartCaptureCalculator.run
           (SmartCaptureCalculator.Open example_options)
           [frame_of (blank 468); frame_of ears_example] = Ok (s', out)
         /\ calculator_invariant s'
         /\ (SmartCaptureCalculator.current_count_
               (SmartCaptureCalculator.Open example_options)
             <= SmartCaptureCalculator.current_count_ s')%Z).
Proof.
  destruct counter_invariant
    as ((_ & Hnew) & _ & Hstep & Hseq & _ & _ & _ & Hrun & _).
  split; [| split].
  - apply Hstep; [exact Hnew | cbn; lia].
  - apply Hseq. cbn. repeat split.
  - apply Hrun; [unfold calculator_invariant; cbn; lia |].
    intros cc [<- | [<- | []]]; intros l rest E;
      injection E as <- _; cbn; lia.
Defined.

(** C8, as stated, fails: after one capture, [setMaxCaptures 0] leaves the
    count at 1 with a limit of 0. *)
Lemma setMaxCaptures_breaks_invariant :
  exists s,
    SmartFaceProcessor.calls
      [SmartFaceProcessor.Initialize;
       SmartFaceProcessor.SetMaxYaw 45;
       SmartFaceProcessor.SetMaxPitch 30;
       SmartFaceProcessor.CaptureFrame 640 480;
       SmartFaceProcessor.SetMaxCaptures 0] SmartFaceProcessor.new = Ok s
    /\ SmartFaceProcessor.capture_count_ s = 1%Z
    /\ SmartFaceProcessor.max_captures_ s = 0%Z
    /\ ~ processor_invariant s.
Proof.
  destruct (captureFrame_accept lenient_processor (640, 480)%Z)
    as (s1 & Hc & _ & Hcnt).
  - apply lenient_processor_accepts. left. reflexivity.
  - cbn. lia.
  - exists (SmartFaceProcessor.setMaxCaptures s1 0).
    cbn [SmartFaceProcessor.calls SmartFaceProcessor.call bind].
    change (SmartFaceProcessor.setMaxPitch
              (SmartFaceProcessor.setMaxYaw
                 (snd (SmartFaceProcessor.initialize SmartFaceProcessor.new))
                 45) 30) with lenient_processor.
    cbn [fst snd] in Hc. rewrite Hc. cbn [bind snd].
    split; [reflexivity |].
    assert (E : SmartFaceProcessor.capture_count_
                  (SmartFaceProcessor.setMaxCaptures s1 0) = 1%Z)
      by (cbn [SmartFaceProcessor.setMaxCaptures
                 SmartFaceProcessor.capture_count_]; rewrite Hcnt; reflexivity).
    split; [exact E |]. split; [reflexivity |].
    intros [_ Hle]. rewrite E in Hle. cbn in Hle. lia.
Qed.

(** ** Decision order and reason strings *)

Lemma reason_in_reasons (d : Spec.Decision) : In (Spec.reason d) Spec.reasons.
Proof. destruct d; cbn; tauto. Qed.

Lemma CropAndSend_no_status (s : SmartCaptureCalculator.state)
      (img : SmartCaptureCalculator.ImageFrame) (l : list Landmark) (m : string) :
  ~ In (SmartCaptureCalculator.STATUS m)
       (SmartCaptureCalculator.CropAndSend s img l).
Proof.
  unfold SmartCaptureCalculator.CropAndSend.
  destruct (SmartCaptureCalculator.crop_rect _ _ _); cbn;
    [intros [H | []]; discriminate H | tauto].
Qed.

Lemma quality_message_decision (s : SmartFaceProcessor.state) (yaw pitch : R) :
  SmartFaceProcessor.quality_message s yaw pitch
  = processor_reason
      (Spec.QualityGate false (SmartFaceProcessor.max_yaw_ s)
         (SmartFaceProcessor.max_pitch_ s) yaw pitch) yaw pitch.
Proof.
  unfold SmartFaceProcessor.quality_message, SmartFaceProcessor.yaw_ok,
    SmartFaceProcessor.pitch_ok, Spec.QualityGate.
  destruct (Rle_dec (Rabs yaw) (SmartFaceProcessor.max_yaw_ s));
    destruct (Rgt_dec (Rabs yaw) (SmartFaceProcessor.max_yaw_ s));
    try lra; cbn [andb negb]; try reflexivity.
  destruct (Rle_dec (Rabs pitch) (SmartFaceProcessor.max_pitch_ s));
    destruct (Rgt_dec (Rabs pitch) (SmartFaceProcessor.max_pitch_ s));
    try lra; reflexivity.
Qed.

(** C5, as amended.  At the calculator, a frame that gets past the capture
    limit and the empty-input test, with the STATUS output connected and a
    first face (if any) whose landmarks 1, 234 and 454 exist, is checked in
    the order no-face, |yaw| against max_yaw_degrees, |pitch| against
    max_pitch_degrees * 2, and sends exactly one STATUS packet, which carries
    the reason string of the outcome: one of "No face detected",
    "Face turned too much (Yaw)", "Face tilted up/down too much (Pitch)",
    "Captured!".  At the WASM processor the checks are made in the same order
    (against max_pitch_degrees itself), but the messages are
    "No face detected", "Face turned too much (Yaw: n..)",
    "Face tilted too much (Pitch: n..)" and "Good quality face detected!". *)
Theorem gate_order_and_reasons :
  (forall (s : SmartCaptureCalculator.state)
          (cc : SmartCaptureCalculator.CalculatorContext)
          (img : SmartCaptureCalculator.ImageFrame)
          (faces : list (list Landmark)),
      (SmartCaptureCalculator.current_count_ s
       < SmartCaptureCalculator.max_captures_ s)%Z ->
      SmartCaptureCalculator.IMAGE cc = Some img ->
      SmartCaptureCalculator.LANDMARKS cc = Some faces ->
      SmartCaptureCalculator.HasTag_STATUS cc = true ->
      (forall l rest, faces = l :: rest -> (454 < List.length l)%nat) ->
      let l := hd [] faces in
      let yaw := Spec.depth_yaw (nth 234 l Landmark.default)
                   (nth 454 l Landmark.default) in
      let pitch := Spec.depth_pitch (nth 1 l Landmark.default)
                     (nth 234 l Landmark.default)
                     (nth 454 l Landmark.default) in
      let d := Spec.QualityGate
                 (match faces with [] => true | _ => false end)
                 (SmartCaptureCalculator.max_yaw_ s)
                 (SmartCaptureCalculator.max_pitch_ s * 2) yaw pitch in
      exists s' rest,
        SmartCaptureCalculator.Process s cc
        = Ok (s', SmartCaptureCalculator.STATUS (Spec.reason d) :: rest)
        /\ In (Spec.reason d) Spec.reasons
        /\ (forall m, ~ In (SmartCaptureCalculator.STATUS m) rest))
  /\ (forall (s : SmartFaceProcessor.state) (l : list Landmark),
         let yaw := Spec.ratio_yaw (nth 1 l Landmark.default)
                      (nth 33 l Landmark.default)
                      (nth 263 l Landmark.default) in
         let pitch := Spec.ratio_pitch (nth 10 l Landmark.default)
                        (nth 168 l Landmark.default)
                        (nth 152 l Landmark.default) in
         let d := Spec.QualityGate (List.length l <? 468)%nat
                    (SmartFaceProcessor.max_yaw_ s)
                    (SmartFaceProcessor.max_pitch_ s) yaw pitch in
         exists r,
           SmartFaceProcessor.assess s l = Ok r
           /\ SmartFaceProcessor.message r = processor_reason d yaw pitch).
Proof.
  split.
  - intros s cc img faces Hlt Hi Hl Hst Hlen. cbv zeta.
    rewrite (Process_below s cc Hlt), Hi, Hl.
    destruct faces as [| l rest].
    + unfold SmartCaptureCalculator.SendStatus. rewrite Hst.
      unfold Spec.QualityGate. eexists _, _.
      split; [reflexivity |]. split; [cbn; tauto |].
      intros m [].
    + specialize (Hlen l rest eq_refl).
      cbn [hd] in *. rewrite pose_in_range by exact Hlen.
      cbn [bind fst snd].
      unfold SmartCaptureCalculator.gate, Spec.QualityGate,
        SmartCaptureCalculator.SendStatus.
      rewrite Hst.
      destruct (Rgt_dec _ _).
      { eexists _, _. split; [reflexivity |]. split; [cbn; tauto |].
        intros m []. }
      destruct (Rgt_dec _ _).
      { eexists _, _. split; [reflexivity |]. split; [cbn; tauto |].
        intros m []. }
      eexists _, _. split; [reflexivity |]. split; [cbn; tauto |].
      intros m. apply CropAndSend_no_status.
  - intros s l. cbv zeta.
    destruct (Nat.ltb_spec (List.length l) 468) as [Hs | Hf].
    + rewrite assess_short by exact Hs. eexists. split; reflexivity.
    + rewrite assess_full by exact Hf. eexists. split; [reflexivity |].
      cbn [SmartFaceProcessor.message]. apply quality_message_decision.
Qed.

Lemma gate_order_and_reasons_witness :
  (exists s' rest,
      SmartCaptureCalculator.Process
        (SmartCaptureCalculator.Open example_options) (frame_of ears_example)
      = Ok (s', SmartCaptureCalculator.STATUS "Face turned too much (Yaw)"
                  :: rest))
  /\ (exists r,
         SmartFaceProcessor.assess SmartFaceProcessor.new (blank 100) = Ok r
         /\ SmartFaceProcessor.message r = "No face detected"%string).
Proof.
  destruct gate_order_and_reasons as [Hcalc Hwasm].
  split.
  - assert (H1 : (SmartCaptureCalculator.current_count_
                    (SmartCaptureCalculator.Open example_options)
                  < SmartCaptureCalculator.max_captures_
                      (SmartCaptureCalculator.Open example_options))%Z)
      by (cbn; lia).
    assert (H5 : forall (l : list Landmark) (rest : list (list Landmark)),
               [ears_example] = l :: rest -> (454 < List.length l)%nat).
    { intros l rest E. injection E as <- _. cbn. lia. }
    pose proof (Hcalc (SmartCaptureCalculator.Open example_options)
                  (frame_of ears_example)
                  (SmartCaptureCalculator.mkImage 1000 1000) [ears_example]
                  H1 eq_refl eq_refl eq_refl H5) as H.
    cbv zeta in H. destruct H as (s' & rest & HP & _).
    exists s', rest. unfold Spec.QualityGate in HP.
    destruct (Rgt_dec (Rabs (Spec.depth_yaw _ _)) _) as [_ | N] in HP;
      [exact HP |].
    exfalso. apply N.
    change (nth 234 (hd [] [ears_example]) Landmark.default)
      with (Landmark.mk (-0.3) 0 0.1).
    change (nth 454 (hd [] [ears_example]) Landmark.default)
      with (Landmark.mk 0.3 0 (-0.1)).
    unfold Spec.depth_yaw. cbn [Landmark.x Landmark.z].
    replace (0.1 - -0.1) with 0.2 by lra.
    replace (-0.3 - 0.3) with (-0.6) by lra.
    pose proof yaw_example_value as [Hl Hu].
    rewrite Rabs_pos_eq by lra. cbn. lra.
  - exact (Hwasm SmartFaceProcessor.new (blank 100)).
Defined.

(** C5, as stated, fails at the WASM call site: an initialized processor
    with thresholds of 45 and 30 degrees reports a 640x480 frame with the
    message "Good quality face detected!", which is none of the four reason
    strings. *)
Lemma processor_message_counterexample :
  exists r s',
    SmartFaceProcessor.detectFace lenient_processor 640 480 = Ok (r, s')
    /\ SmartFaceProcessor.detected r = true
    /\ SmartFaceProcessor.message r = "Good quality face detected!"%string
    /\ ~ In (SmartFaceProcessor.message r) Spec.reasons.
Proof.
  assert (Hy : 45 <= SmartFaceProcessor.max_yaw_ lenient_processor)
    by (cbn; lra).
  assert (Hp : 30 <= SmartFaceProcessor.max_pitch_ lenient_processor)
    by (cbn; lra).
  destruct (detectFace_lenient lenient_processor 640 480 eq_refl Hy Hp)
    as (r & s' & Hd & Hdet & _ & Hm); [lia | lia |].
  exists r, s'. split; [exact Hd |]. split; [exact Hdet |].
  split; [exact Hm |]. rewrite Hm. cbn.
  intros [H | [H | [H | [H | []]]]]; discriminate H.
Qed.

(** ** The crop rectangle *)

Lemma min_finite_left (a x : R) :
  a <= x ->
  Binary32.min (Binary32.finite a) (Binary32.finite x) = Binary32.finite a.
Proof.
  intros H. unfold Binary32.min, Binary32.lt.
  destruct (Rlt_dec x a); [lra | reflexivity].
Qed.

Lemma min_finite_right (a x : R) :
  x <= a ->
  Binary32.min (Binary32.finite a) (Binary32.finite x) = Binary32.finite x.
Proof.
  intros H. unfold Binary32.min, Binary32.lt.
  destruct (Rlt_dec x a); [reflexivity | f_equal; lra].
Qed.

Lemma max_finite_left (b x : R) :
  x <= b ->
  Binary32.max (Binary32.finite b) (Binary32.finite x) = Binary32.finite b.
Proof.
  intros H. unfold Binary32.max, Binary32.lt.
  destruct (Rlt_dec b x); [lra | reflexivity].
Qed.

Lemma max_finite_right (b x : R) :
  b <= x ->
  Binary32.max (Binary32.finite b) (Binary32.finite x) = Binary32.finite x.
Proof.
  intros H. unfold Binary32.max, Binary32.lt.
  destruct (Rlt_dec b x); [reflexivity | f_equal; lra].
Qed.

Lemma fold_min_repeat (a x : R) (n : nat) :
  a <= x ->
  fold_left Binary32.min (repeat (Binary32.finite x) n) (Binary32.finite a)
  = Binary32.finite a.
Proof.
  intros H. induction n as [| n IH]; [reflexivity |].
  cbn [repeat fold_left]. rewrite min_finite_left by exact H. exact IH.
Qed.

Lemma fold_max_repeat (b x : R) (n : nat) :
  x <= b ->
  fold_left Binary32.max (repeat (Binary32.finite x) n) (Binary32.finite b)
  = Binary32.finite b.
Proof.
  intros H. induction n as [| n IH]; [reflexivity |].
  cbn [repeat fold_left]. rewrite max_finite_left by exact H. exact IH.
Qed.

(** The coordinates of the examples, read as floats. *)
Lemma round_0_2 :
  Binary32.round 0.2 = Binary32.finite (13421773 / 67108864).
Proof. round_to (-26)%Z 13421773%Z. Qed.

Lemma round_0_6 : Binary32.round 0.6 = Binary32.finite (5033165 / 8388608).
Proof. round_to (-24)%Z 10066330%Z. Qed.

Lemma round_0_7 :
  Binary32.round 0.7 = Binary32.finite (11744051 / 16777216).
Proof. round_to (-24)%Z 11744051%Z. Qed.

Lemma round_0_4 :
  Binary32.round 0.4 = Binary32.finite (13421773 / 33554432).
Proof. round_to (-25)%Z 13421773%Z. Qed.

Lemma round_0_45 :
  Binary32.round 0.45 = Binary32.finite (7549747 / 16777216).
Proof. round_to (-25)%Z 15099494%Z. Qed.

Lemma round_0_5996 :
  Binary32.round 0.5996 = Binary32.finite (10059619 / 16777216).
Proof. round_to (-24)%Z 10059619%Z. Qed.

Lemma round_0_01 :
  Binary32.round 0.01 = Binary32.finite (5368709 / 536870912).
Proof. round_to (-30)%Z 10737418%Z. Qed.

Lemma round_0_5 : Binary32.round 0.5 = Binary32.finite (1 / 2).
Proof. round_to (-24)%Z 8388608%Z. Qed.

Lemma round_0_25 : Binary32.round 0.25 = Binary32.finite (1 / 4).
Proof. round_to (-25)%Z 8388608%Z. Qed.

Lemma round_0_75 : Binary32.round 0.75 = Binary32.finite (3 / 4).
Proof. round_to (-24)%Z 12582912%Z. Qed.

Lemma round_1_25 : Binary32.round 1.25 = Binary32.finite (5 / 4).
Proof. round_to (-23)%Z 10485760%Z. Qed.

Lemma round_1_375 : Binary32.round 1.375 = Binary32.finite (11 / 8).
Proof. round_to (-23)%Z 11534336%Z. Qed.

Lemma round_1_5 : Binary32.round 1.5 = Binary32.finite (3 / 2).
Proof. round_to (-23)%Z 12582912%Z. Qed.

Section Bounds.
Import SmartCaptureCalculator.

Lemma bounds_fold (l : list Landmark) :
  forall a b c d : Binary32.t,
    fold_left bounds_step l (a, b, c, d)
    = (fold_left Binary32.min (Spec.xs l) a,
       fold_left Binary32.max (Spec.xs l) b,
       fold_left Binary32.min (Spec.ys l) c,
       fold_left Binary32.max (Spec.ys l) d).
Proof.
  unfold Spec.xs, Spec.ys.
  induction l as [| lm l IH]; intros a b c d; [reflexivity |].
  cbn [fold_left map bounds_step]. apply IH.
Qed.

(** The loop computes the minimum of 1.0 and all x, the maximum of 0.0 and
    all x, and likewise for y. *)
Lemma bounds_seeds (l : list Landmark) :
  bounds l
  = (Spec.minimum (Binary32.finite 1 :: Spec.xs l),
     Spec.maximum (Binary32.finite 0 :: Spec.xs l),
     Spec.minimum (Binary32.finite 1 :: Spec.ys l),
     Spec.maximum (Binary32.finite 0 :: Spec.ys l)).
Proof. unfold bounds. rewrite bounds_fold. reflexivity. Qed.

(** On normalized landmarks the starting values 1.0 and 0.0 of the loop do
    not show: the result is the minimum and maximum over the landmarks. *)
Lemma bounds_normalized (l : list Landmark) :
  l <> [] -> Forall Spec.normalized l ->
  bounds l
  = (Spec.minimum (Spec.xs l), Spec.maximum (Spec.xs l),
     Spec.minimum (Spec.ys l), Spec.maximum (Spec.ys l)).
Proof.
  intros Hne Hn. destruct l as [| lm l]; [contradiction |].
  apply Forall_inv in Hn. destruct Hn as [Hx Hy].
  destruct (round_unit _ Hx) as (rx & Ex & Hrx).
  destruct (round_unit _ Hy) as (ry & Ey & Hry).
  unfold bounds. rewrite bounds_fold.
  unfold Spec.xs, Spec.ys.
  cbn [map fold_left Spec.minimum Spec.maximum].
  rewrite Ex, Ey.
  rewrite !min_finite_right, !max_finite_right by lra.
  reflexivity.
Qed.

Lemma bounds_repeat (lm : Landmark) (n : nat) (a b c d x y : R) :
  Binary32.round (Landmark.x lm) = Binary32.finite x ->
  Binary32.round (Landmark.y lm) = Binary32.finite y ->
  a <= x <= b -> c <= y <= d ->
  fold_left bounds_step (repeat lm n)
    (Binary32.finite a, Binary32.finite b,
     Binary32.finite c, Binary32.finite d)
  = (Binary32.finite a, Binary32.finite b,
     Binary32.finite c, Binary32.finite d).
Proof.
  intros Ex Ey [Ha Hb] [Hc Hd]. induction n as [| n IH]; [reflexivity |].
  cbn [repeat fold_left bounds_step]. rewrite Ex, Ey.
  rewrite !min_finite_left, !max_finite_left by assumption.
  exact IH.
Qed.

Lemma crop_rect_spec (padding_ : R) (input_img : ImageFrame)
      (l : list Landmark) :
  l <> [] -> Forall Spec.normalized l ->
  crop_rect padding_ input_img l
  = Spec.RegionCropper l (cols input_img) (rows input_img) padding_.
Proof.
  intros Hne Hn. unfold crop_rect, Spec.RegionCropper.
  rewrite (bounds_normalized l Hne Hn). reflexivity.
Qed.

(** The rectangle from the six values that [CropAndSend] stores in its
    [int] variables. *)
Lemma crop_rect_steps (padding_ : R) (input_img : ImageFrame)
      (l : list Landmark) (min_x max_x min_y max_y : Binary32.t)
      (w h cx cy pad_w pad_h : Z) :
  bounds l = (min_x, max_x, min_y, max_y) ->
  Binary32.to_int32
    (Binary32.mul (Binary32.sub max_x min_x)
                  (Binary32.of_int (cols input_img))) = w ->
  Binary32.to_int32
    (Binary32.mul (Binary32.sub max_y min_y)
                  (Binary32.of_int (rows input_img))) = h ->
  Binary32.to_int32
    (Binary32.add (Binary32.mul min_x (Binary32.of_int (cols input_img)))
                  (Binary32.of_int (Z.quot w 2))) = cx ->
  Binary32.to_int32
    (Binary32.add (Binary32.mul min_y (Binary32.of_int (rows input_img)))
                  (Binary32.of_int (Z.quot h 2))) = cy ->
  Binary32.to_int32
    (Binary32.mul (Binary32.of_int w)
       (Binary32.add (Binary32.finite 1) (Binary32.round padding_)))
  = pad_w ->
  Binary32.to_int32
    (Binary32.mul (Binary32.of_int h)
       (Binary32.add (Binary32.finite 1) (Binary32.round padding_)))
  = pad_h ->
  crop_rect padding_ input_img l
  = (let x := Z.max 0 (wrap_int (cx - Z.quot pad_w 2)) in
     let y := Z.max 0 (wrap_int (cy - Z.quot pad_h 2)) in
     let pad_w' := Z.min pad_w (cols input_img - x) in
     let pad_h' := Z.min pad_h (rows input_img - y) in
     if ((0 <? pad_w') && (0 <? pad_h'))%Z%bool
     then Some (mkRect x y pad_w' pad_h')
     else None).
Proof.
  intros Hb <- <- <- <- <- <-. unfold crop_rect. rewrite Hb. reflexivity.
Qed.

(** The last steps of [CropAndSend], from the values of its [int]
    variables: an emitted rectangle is not empty and lies inside the
    image. *)
Lemma clamp_inside (cx cy pad_w pad_h img_w img_h : Z) (roi : Rect) :
  (let x := Z.max 0 (wrap_int (cx - Z.quot pad_w 2)) in
   let y := Z.max 0 (wrap_int (cy - Z.quot pad_h 2)) in
   let pad_w' := Z.min pad_w (img_w - x) in
   let pad_h' := Z.min pad_h (img_h - y) in
   if ((0 <? pad_w') && (0 <? pad_h'))%Z%bool
   then Some (mkRect x y pad_w' pad_h')
   else None) = Some roi ->
  (0 <= rect_x roi /\ 0 <= rect_y roi
   /\ 0 < rect_width roi /\ 0 < rect_height roi
   /\ rect_x roi + rect_width roi <= img_w
   /\ rect_y roi + rect_height roi <= img_h)%Z.
Proof.
  generalize (wrap_int (cx - Z.quot pad_w 2)) as x0.
  generalize (wrap_int (cy - Z.quot pad_h 2)) as y0.
  intros y0 x0. cbv zeta.
  destruct (Z.ltb_spec 0 (Z.min pad_w (img_w - Z.max 0 x0)));
    [| discriminate].
  destruct (Z.ltb_spec 0 (Z.min pad_h (img_h - Z.max 0 y0)));
    [| discriminate].
  cbn [andb]. intros E. injection E as <-.
  cbn [rect_x rect_y rect_width rect_height]. lia.
Qed.

(** An emitted rectangle is not empty and lies inside the image. *)
Lemma crop_rect_inside (padding_ : R) (input_img : ImageFrame)
      (l : list Landmark) (roi : Rect) :
  crop_rect padding_ input_img l = Some roi ->
  (0 <= rect_x roi /\ 0 <= rect_y roi
   /\ 0 < rect_width roi /\ 0 < rect_height roi
   /\ rect_x roi + rect_width roi <= cols input_img
   /\ rect_y roi + rect_height roi <= rows input_img)%Z.
Proof.
  destruct (bounds l) as [[[min_x max_x] min_y] max_y] eqn:Hb.
  rewrite (crop_rect_steps padding_ input_img l _ _ _ _ _ _ _ _ _ _ Hb
             eq_refl eq_refl eq_refl eq_refl eq_refl eq_refl).
  apply clamp_inside.
Qed.

Lemma RegionCropper_steps (padding : R) (imgW imgH : Z)
      (l : list Landmark) (w h cx cy padW padH : Z) :
  Binary32.to_int32
    (Binary32.mul
       (Binary32.sub (Spec.maximum (Spec.xs l)) (Spec.minimum (Spec.xs l)))
       (Binary32.of_int imgW)) = w ->
  Binary32.to_int32
    (Binary32.mul
       (Binary32.sub (Spec.maximum (Spec.ys l)) (Spec.minimum (Spec.ys l)))
       (Binary32.of_int imgH)) = h ->
  Binary32.to_int32
    (Binary32.add
       (Binary32.mul (Spec.minimum (Spec.xs l)) (Binary32.of_int imgW))
       (Binary32.of_int (Z.quot w 2))) = cx ->
  Binary32.to_int32
    (Binary32.add
       (Binary32.mul (Spec.minimum (Spec.ys l)) (Binary32.of_int imgH))
       (Binary32.of_int (Z.quot h 2))) = cy ->
  Binary32.to_int32
    (Binary32.mul (Binary32.of_int w)
       (Binary32.add (Binary32.finite 1) (Binary32.round padding)))
  = padW ->
  Binary32.to_int32
    (Binary32.mul (Binary32.of_int h)
       (Binary32.add (Binary32.finite 1) (Binary32.round padding)))
  = padH ->
  Spec.RegionCropper l imgW imgH padding
  = (let x := Z.max 0 (wrap_int (cx - Z.quot padW 2)) in
     let y := Z.max 0 (wrap_int (cy - Z.quot padH 2)) in
     let padW' := Z.min padW (imgW - x) in
     let padH' := Z.min padH (imgH - y) in
     if ((0 <? padW') && (0 <? padH'))%Z%bool
     then Some (mkRect x y padW' padH')
     else None).
Proof.
  intros <- <- <- <- <- <-. reflexivity.
Qed.

Lemma bounds_box_example :
  bounds box_example
  = (Binary32.finite (13421773 / 67108864),
     Binary32.finite (5033165 / 8388608),
     Binary32.finite (13421773 / 67108864),
     Binary32.finite (11744051 / 16777216)).
Proof.
  unfold bounds, box_example.
  cbn [fold_left bounds_step Landmark.x Landmark.y].
  rewrite round_0_2, round_0_6, round_0_7.
  rewrite (min_finite_right 1), (max_finite_right 0) by lra.
  rewrite (min_finite_left (13421773 / 67108864) (5033165 / 8388608)),
    (max_finite_right (13421773 / 67108864) (5033165 / 8388608)) by lra.
  rewrite (min_finite_left (13421773 / 67108864) (11744051 / 16777216)),
    (max_finite_right (13421773 / 67108864) (11744051 / 16777216)) by lra.
  apply (bounds_repeat (Landmark.mk 0.4 0.45 0) 466 _ _ _ _ _ _
           round_0_4 round_0_45); lra.
Qed.

Lemma bounds_narrow_box_example :
  bounds narrow_box_example
  = (Binary32.finite (13421773 / 67108864),
     Binary32.finite (10059619 / 16777216),
     Binary32.finite (13421773 / 67108864),
     Binary32.finite (11744051 / 16777216)).
Proof.
  unfold bounds, narrow_box_example.
  cbn [fold_left bounds_step Landmark.x Landmark.y].
  rewrite round_0_2, round_0_5996, round_0_7.
  rewrite (min_finite_right 1), (max_finite_right 0) by lra.
  rewrite (min_finite_left (13421773 / 67108864) (10059619 / 16777216)),
    (max_finite_right (13421773 / 67108864) (10059619 / 16777216)) by lra.
  rewrite (min_finite_left (13421773 / 67108864) (11744051 / 16777216)),
    (max_finite_right (13421773 / 67108864) (11744051 / 16777216)) by lra.
  apply (bounds_repeat (Landmark.mk 0.4 0.45 0) 466 _ _ _ _ _ _
           round_0_4 round_0_45); lra.
Qed.

Lemma crop_rect_box (l : list Landmark) :
  bounds l
  = (Binary32.finite (13421773 / 67108864),
     Binary32.finite (5033165 / 8388608),
     Binary32.finite (13421773 / 67108864),
     Binary32.finite (11744051 / 16777216)) ->
  crop_rect 0.2 (mkImage 1000 1000) l = Some (mkRect 160 150 480 600).
Proof.
  intros Hb.
  rewrite (crop_rect_steps 0.2 (mkImage 1000 1000) l _ _ _ _
             400 500 400 450 480 600 Hb); cbn [cols rows].
  - reflexivity.
  - rewrite of_int_small by (cbn; lia).
    cbn [Binary32.sub Binary32.opp Binary32.add].
    f32 (-25)%Z 13421774%Z (6710887 / 16777216).
    f32 (-15)%Z 13107201%Z (13107201 / 32768).
    apply to_int32_floor; [unfold Binary32.INT_MAX; lia | lra].
  - rewrite of_int_small by (cbn; lia).
    cbn [Binary32.sub Binary32.opp Binary32.add].
    f32 (-25)%Z 16777216%Z (1 / 2).
    f32 (-15)%Z 16384000%Z 500.
    apply to_int32_floor; [unfold Binary32.INT_MAX; lia | lra].
  - change (Z.quot 400 2) with 200%Z. rewrite !of_int_small by (cbn; lia).
    cbn [Binary32.mul].
    f32 (-16)%Z 13107200%Z 200.
    f32 (-15)%Z 13107200%Z 400.
    apply to_int32_floor; [unfold Binary32.INT_MAX; lia | lra].
  - change (Z.quot 500 2) with 250%Z. rewrite !of_int_small by (cbn; lia).
    cbn [Binary32.mul].
    f32 (-16)%Z 13107200%Z 200.
    f32 (-15)%Z 14745600%Z 450.
    apply to_int32_floor; [unfold Binary32.INT_MAX; lia | lra].
  - rewrite of_int_small by (cbn; lia).
    f32 (-26)%Z 13421773%Z (13421773 / 67108864).
    f32 (-23)%Z 10066330%Z (5033165 / 4194304).
    f32 (-15)%Z 15728641%Z (15728641 / 32768).
    apply to_int32_floor; [unfold Binary32.INT_MAX; lia | lra].
  - rewrite of_int_small by (cbn; lia).
    f32 (-26)%Z 13421773%Z (13421773 / 67108864).
    f32 (-23)%Z 10066330%Z (5033165 / 4194304).
    f32 (-14)%Z 9830400%Z 600.
    apply to_int32_floor; [unfold Binary32.INT_MAX; lia | lra].
Qed.

(** Truncation, not rounding: a box 399.6 pixels wide has w = 399, and its
    padded width 478.8 becomes 478. *)
Lemma crop_rect_narrow_box (l : list Landmark) :
  bounds l
  = (Binary32.finite (13421773 / 67108864),
     Binary32.finite (10059619 / 16777216),
     Binary32.finite (13421773 / 67108864),
     Binary32.finite (11744051 / 16777216)) ->
  crop_rect 0.2 (mkImage 1000 1000) l = Some (mkRect 160 150 478 600).
Proof.
  intros Hb.
  rewrite (crop_rect_steps 0.2 (mkImage 1000 1000) l _ _ _ _
             399 500 399 450 478 600 Hb); cbn [cols rows].
  - reflexivity.
  - rewrite of_int_small by (cbn; lia).
    cbn [Binary32.sub Binary32.opp Binary32.add].
    f32 (-25)%Z 13408352%Z (419011 / 1048576).
    f32 (-15)%Z 13094094%Z (6547047 / 16384).
    apply to_int32_floor; [unfold Binary32.INT_MAX; lia | lra].
  - rewrite of_int_small by (cbn; lia).
    cbn [Binary32.sub Binary32.opp Binary32.add].
    f32 (-25)%Z 16777216%Z (1 / 2).
    f32 (-15)%Z 16384000%Z 500.
    apply to_int32_floor; [unfold Binary32.INT_MAX; lia | lra].
  - change (Z.quot 399 2) with 199%Z. rewrite !of_int_small by (cbn; lia).
    cbn [Binary32.mul].
    f32 (-16)%Z 13107200%Z 200.
    f32 (-15)%Z 13074432%Z 399.
    apply to_int32_floor; [unfold Binary32.INT_MAX; lia | lra].
  - change (Z.quot 500 2) with 250%Z. rewrite !of_int_small by (cbn; lia).
    cbn [Binary32.mul].
    f32 (-16)%Z 13107200%Z 200.
    f32 (-15)%Z 14745600%Z 450.
    apply to_int32_floor; [unfold Binary32.INT_MAX; lia | lra].
  - rewrite of_int_small by (cbn; lia).
    f32 (-26)%Z 13421773%Z (13421773 / 67108864).
    f32 (-23)%Z 10066330%Z (5033165 / 4194304).
    f32 (-15)%Z 15689319%Z (15689319 / 32768).
    apply to_int32_floor; [unfold Binary32.INT_MAX; lia | lra].
  - rewrite of_int_small by (cbn; lia).
    f32 (-26)%Z 13421773%Z (13421773 / 67108864).
    f32 (-23)%Z 10066330%Z (5033165 / 4194304).
    f32 (-14)%Z 9830400%Z 600.
    apply to_int32_floor; [unfold Binary32.INT_MAX; lia | lra].
Qed.

Lemma bounds_tiny_box_example :
  bounds tiny_box_example
  = (Binary32.finite 0, Binary32.finite (5368709 / 536870912),
     Binary32.finite 0, Binary32.finite (1 / 2)).
Proof.
  unfold bounds, tiny_box_example, blank, Landmark.default.
  cbn [fold_left bounds_step Landmark.x Landmark.y].
  rewrite round_0, round_0_01, round_0_5.
  rewrite (min_finite_right 1), (max_finite_left 0) by lra.
  rewrite (min_finite_left 0 (5368709 / 536870912)),
    (max_finite_right 0 (5368709 / 536870912)) by lra.
  rewrite (min_finite_left 0 (1 / 2)), (max_finite_right 0 (1 / 2)) by lra.
  apply (bounds_repeat (Landmark.mk 0 0 0) 466 _ _ _ _ _ _
           round_0 round_0); lra.
Qed.

(** Rounding before truncation: a box of 0.01 of a 100-pixel image measures
    0.99999998 pixels; the product is the float 1.0, and w = 1. *)
Lemma crop_rect_tiny_box (l : list Landmark) :
  bounds l
  = (Binary32.finite 0, Binary32.finite (5368709 / 536870912),
     Binary32.finite 0, Binary32.finite (1 / 2)) ->
  crop_rect 0.2 (mkImage 100 100) l = Some (mkRect 0 0 1 60).
Proof.
  intros Hb.
  rewrite (crop_rect_steps 0.2 (mkImage 100 100) l _ _ _ _
             1 50 0 25 1 60 Hb); cbn [cols rows].
  - reflexivity.
  - rewrite of_int_small by (cbn; lia).
    cbn [Binary32.sub Binary32.opp Binary32.add].
    f32 (-30)%Z 10737418%Z (5368709 / 536870912).
    f32 (-24)%Z 16777216%Z 1.
    apply to_int32_floor; [unfold Binary32.INT_MAX; lia | lra].
  - rewrite of_int_small by (cbn; lia).
    cbn [Binary32.sub Binary32.opp Binary32.add].
    f32 (-24)%Z 8388608%Z (1 / 2).
    f32 (-18)%Z 13107200%Z 50.
    apply to_int32_floor; [unfold Binary32.INT_MAX; lia | lra].
  - change (Z.quot 1 2) with 0%Z. rewrite !of_int_small by (cbn; lia).
    cbn [Binary32.mul].
    f32 (-149)%Z 0%Z 0.
    f32 (-149)%Z 0%Z 0.
    apply to_int32_floor; [unfold Binary32.INT_MAX; lia | lra].
  - change (Z.quot 50 2) with 25%Z. rewrite !of_int_small by (cbn; lia).
    cbn [Binary32.mul].
    f32 (-149)%Z 0%Z 0.
    f32 (-19)%Z 13107200%Z 25.
    apply to_int32_floor; [unfold Binary32.INT_MAX; lia | lra].
  - rewrite of_int_small by (cbn; lia).
    f32 (-26)%Z 13421773%Z (13421773 / 67108864).
    f32 (-23)%Z 10066330%Z (5033165 / 4194304).
    f32 (-23)%Z 10066330%Z (5033165 / 4194304).
    apply to_int32_floor; [unfold Binary32.INT_MAX; lia | lra].
  - rewrite of_int_small by (cbn; lia).
    f32 (-26)%Z 13421773%Z (13421773 / 67108864).
    f32 (-23)%Z 10066330%Z (5033165 / 4194304).
    f32 (-18)%Z 15728641%Z (15728641 / 262144).
    apply to_int32_floor; [unfold Binary32.INT_MAX; lia | lra].
Qed.

Lemma bounds_off_image_example :
  bounds off_image_example
  = (Binary32.finite 1, Binary32.finite (3 / 2),
     Binary32.finite (1 / 4), Binary32.finite (3 / 4)).
Proof.
  unfold bounds, off_image_example.
  cbn [fold_left bounds_step Landmark.x Landmark.y].
  rewrite round_1_25, round_1_5, round_0_25, round_0_75.
  rewrite (min_finite_left 1 (5 / 4)), (max_finite_right 0 (5 / 4)) by lra.
  rewrite (min_finite_right 1 (1 / 4)), (max_finite_right 0 (1 / 4)) by lra.
  rewrite (min_finite_left 1 (3 / 2)), (max_finite_right (5 / 4) (3 / 2))
    by lra.
  rewrite (min_finite_left (1 / 4) (3 / 4)),
    (max_finite_right (1 / 4) (3 / 4)) by lra.
  apply (bounds_repeat (Landmark.mk 1.375 0.5 0) 466 _ _ _ _ _ _
           round_1_375 round_0_5); lra.
Qed.

(** The landmarks of [off_image_example] lie to the right of the image; the
    minimum that the loop computes for x is its starting value 1.0, and a
    strip at the right border is cropped. *)
Lemma crop_rect_off_image :
  crop_rect 0.25 (mkImage 1000 1000) off_image_example
  = Some (mkRect 938 188 62 625).
Proof.
  rewrite (crop_rect_steps 0.25 (mkImage 1000 1000) off_image_example
             _ _ _ _ 500 500 1250 500 625 625 bounds_off_image_example);
    cbn [cols rows].
  - reflexivity.
  - rewrite of_int_small by (cbn; lia).
    cbn [Binary32.sub Binary32.opp Binary32.add].
    f32 (-24)%Z 8388608%Z (1 / 2).
    f32 (-15)%Z 16384000%Z 500.
    apply to_int32_floor; [unfold Binary32.INT_MAX; lia | lra].
  - rewrite of_int_small by (cbn; lia).
    cbn [Binary32.sub Binary32.opp Binary32.add].
    f32 (-24)%Z 8388608%Z (1 / 2).
    f32 (-15)%Z 16384000%Z 500.
    apply to_int32_floor; [unfold Binary32.INT_MAX; lia | lra].
  - change (Z.quot 500 2) with 250%Z. rewrite !of_int_small by (cbn; lia).
    cbn [Binary32.mul].
    f32 (-14)%Z 16384000%Z 1000.
    f32 (-13)%Z 10240000%Z 1250.
    apply to_int32_floor; [unfold Binary32.INT_MAX; lia | lra].
  - change (Z.quot 500 2) with 250%Z. rewrite !of_int_small by (cbn; lia).
    cbn [Binary32.mul].
    f32 (-16)%Z 16384000%Z 250.
    f32 (-15)%Z 16384000%Z 500.
    apply to_int32_floor; [unfold Binary32.INT_MAX; lia | lra].
  - rewrite of_int_small by (cbn; lia).
    f32 (-25)%Z 8388608%Z (1 / 4).
    f32 (-23)%Z 10485760%Z (5 / 4).
    f32 (-14)%Z 10240000%Z 625.
    apply to_int32_floor; [unfold Binary32.INT_MAX; lia | lra].
  - rewrite of_int_small by (cbn; lia).
    f32 (-25)%Z 8388608%Z (1 / 4).
    f32 (-23)%Z 10485760%Z (5 / 4).
    f32 (-14)%Z 10240000%Z 625.
    apply to_int32_floor; [unfold Binary32.INT_MAX; lia | lra].
Qed.

Lemma xs_cons (lm : Landmark) (l : list Landmark) :
  Spec.xs (lm :: l) = Binary32.round (Landmark.x lm) :: Spec.xs l.
Proof. reflexivity. Qed.

Lemma ys_cons (lm : Landmark) (l : list Landmark) :
  Spec.ys (lm :: l) = Binary32.round (Landmark.y lm) :: Spec.ys l.
Proof. reflexivity. Qed.

Lemma xs_repeat (lm : Landmark) (n : nat) :
  Spec.xs (repeat lm n) = repeat (Binary32.round (Landmark.x lm)) n.
Proof. apply map_repeat. Qed.

Lemma ys_repeat (lm : Landmark) (n : nat) :
  Spec.ys (repeat lm n) = repeat (Binary32.round (Landmark.y lm)) n.
Proof. apply map_repeat. Qed.

Lemma minimum_cons (a b : Binary32.t) (l : list Binary32.t) :
  Spec.minimum (a :: b :: l) = Spec.minimum (Binary32.min a b :: l).
Proof. reflexivity. Qed.

Lemma maximum_cons (a b : Binary32.t) (l : list Binary32.t) :
  Spec.maximum (a :: b :: l) = Spec.maximum (Binary32.max a b :: l).
Proof. reflexivity. Qed.

Lemma minimum_repeat (a x : R) (n : nat) :
  a <= x ->
  Spec.minimum (Binary32.finite a :: repeat (Binary32.finite x) n)
  = Binary32.finite a.
Proof. apply fold_min_repeat. Qed.

Lemma maximum_repeat (b x : R) (n : nat) :
  x <= b ->
  Spec.maximum (Binary32.finite b :: repeat (Binary32.finite x) n)
  = Binary32.finite b.
Proof. apply fold_max_repeat. Qed.

Lemma extrema_off_image_example :
  Spec.minimum (Spec.xs off_image_example) = Binary32.finite (5 / 4)
  /\ Spec.maximum (Spec.xs off_image_example) = Binary32.finite (3 / 2)
  /\ Spec.minimum (Spec.ys off_image_example) = Binary32.finite (1 / 4)
  /\ Spec.maximum (Spec.ys off_image_example) = Binary32.finite (3 / 4).
Proof.
  unfold off_image_example.
  rewrite !xs_cons, !ys_cons, xs_repeat, ys_repeat.
  cbn [Landmark.x Landmark.y].
  rewrite round_1_25, round_1_5, round_1_375, round_0_25, round_0_75,
    round_0_5.
  rewrite !minimum_cons, !maximum_cons.
  rewrite (min_finite_left (5 / 4) (3 / 2)),
    (max_finite_right (5 / 4) (3 / 2)) by lra.
  rewrite (min_finite_left (1 / 4) (3 / 4)),
    (max_finite_right (1 / 4) (3 / 4)) by lra.
  rewrite !minimum_repeat, !maximum_repeat by lra.
  repeat split.
Qed.

(** The contract, which takes the minimum over the landmarks, yields a box
    that lies outside the image, and nothing is emitted. *)
Lemma RegionCropper_off_image :
  Spec.RegionCropper off_image_example 1000 1000 0.25 = None.
Proof.
  destruct extrema_off_image_example as (Ex0 & Ex1 & Ey0 & Ey1).
  rewrite (RegionCropper_steps 0.25 1000 1000 off_image_example
             250 500 1375 500 312 625); rewrite ?Ex0, ?Ex1, ?Ey0, ?Ey1.
  - reflexivity.
  - rewrite of_int_small by (cbn; lia).
    cbn [Binary32.sub Binary32.opp Binary32.add].
    f32 (-25)%Z 8388608%Z (1 / 4).
    f32 (-16)%Z 16384000%Z 250.
    apply to_int32_floor; [unfold Binary32.INT_MAX; lia | lra].
  - rewrite of_int_small by (cbn; lia).
    cbn [Binary32.sub Binary32.opp Binary32.add].
    f32 (-24)%Z 8388608%Z (1 / 2).
    f32 (-15)%Z 16384000%Z 500.
    apply to_int32_floor; [unfold Binary32.INT_MAX; lia | lra].
  - change (Z.quot 250 2) with 125%Z. rewrite !of_int_small by (cbn; lia).
    cbn [Binary32.mul].
    f32 (-13)%Z 10240000%Z 1250.
    f32 (-13)%Z 11264000%Z 1375.
    apply to_int32_floor; [unfold Binary32.INT_MAX; lia | lra].
  - change (Z.quot 500 2) with 250%Z. rewrite !of_int_small by (cbn; lia).
    cbn [Binary32.mul].
    f32 (-16)%Z 16384000%Z 250.
    f32 (-15)%Z 16384000%Z 500.
    apply to_int32_floor; [unfold Binary32.INT_MAX; lia | lra].
  - rewrite of_int_small by (cbn; lia).
    f32 (-25)%Z 8388608%Z (1 / 4).
    f32 (-23)%Z 10485760%Z (5 / 4).
    f32 (-15)%Z 10240000%Z (625 / 2).
    apply to_int32_floor; [unfold Binary32.INT_MAX; lia | lra].
  - rewrite of_int_small by (cbn; lia).
    f32 (-25)%Z 8388608%Z (1 / 4).
    f32 (-23)%Z 10485760%Z (5 / 4).
    f32 (-14)%Z 10240000%Z 625.
    apply to_int32_floor; [unfold Binary32.INT_MAX; lia | lra].
Qed.

End Bounds.

Lemma box_example_normalized : Forall Spec.normalized box_example.
Proof.
  unfold box_example. apply Forall_cons; [| apply Forall_cons].
  - unfold Spec.normalized. cbn. lra.
  - unfold Spec.normalized. cbn. lra.
  - apply Forall_forall. intros lm H. apply repeat_spec in H. subst lm.
    unfold Spec.normalized. cbn. lra.
Qed.

(** C6, as amended.  For a 468-element landmark set the loop of
    [CropAndSend] computes min_x as the minimum of 1.0 and all x, max_x as
    the maximum of 0.0 and all x, and min_y and max_y likewise.  When the
    coordinates are normalized to [0,1] these are the minimum and maximum
    over the landmarks and the rectangle is the one of the RegionCropper
    contract, computed in single precision: pixel extents converted to
    int by truncation, padding by (1 + padding) about the box center,
    top-left clamped to (0,0), extents clamped to the image, and a crop
    emitted exactly when both extents are positive (otherwise nothing is
    sent).  Every emitted rectangle lies inside the image.  For landmarks
    that span [0.2,0.2]-[0.6,0.7] in a 1000x1000 image with padding 0.2 the
    rectangle is (160,150,480,600); a box 399.6 pixels wide is truncated to
    399, which gives (160,150,478,600); a product is rounded to the nearest
    float before it is truncated, so that a box of 0.01 of a 100-pixel
    image has a width of 1 pixel. *)
Theorem crop_rectangle (s : SmartCaptureCalculator.state)
        (input_img : SmartCaptureCalculator.ImageFrame)
        (landmarks : list Landmark) :
  List.length landmarks = 468%nat ->
  SmartCaptureCalculator.bounds landmarks
  = (Spec.minimum (Binary32.finite 1 :: Spec.xs landmarks),
     Spec.maximum (Binary32.finite 0 :: Spec.xs landmarks),
     Spec.minimum (Binary32.finite 1 :: Spec.ys landmarks),
     Spec.maximum (Binary32.finite 0 :: Spec.ys landmarks))
  /\ (Forall Spec.normalized landmarks ->
      SmartCaptureCalculator.CropAndSend s input_img landmarks
      = match Spec.RegionCropper landmarks
                (SmartCaptureCalculator.cols input_img)
                (SmartCaptureCalculator.rows input_img)
                (SmartCaptureCalculator.padding_ s) with
        | Some roi => [SmartCaptureCalculator.CROPPED_FACE roi]
        | None => []
        end)
  /\ (forall roi,
         SmartCaptureCalculator.crop_rect
           (SmartCaptureCalculator.padding_ s) input_img landmarks
         = Some roi ->
         (0 <= SmartCaptureCalculator.rect_x roi
          /\ 0 <= SmartCaptureCalculator.rect_y roi
          /\ 0 < SmartCaptureCalculator.rect_width roi
          /\ 0 < SmartCaptureCalculator.rect_height roi
          /\ SmartCaptureCalculator.rect_x roi
               + SmartCaptureCalculator.rect_width roi
             <= SmartCaptureCalculator.cols input_img
          /\ SmartCaptureCalculator.rect_y roi
               + SmartCaptureCalculator.rect_height roi
             <= SmartCaptureCalculator.rows input_img)%Z)
  /\ SmartCaptureCalculator.crop_rect 0.2
       (SmartCaptureCalculator.mkImage 1000 1000) box_example
     = Some (SmartCaptureCalculator.mkRect 160 150 480 600)
  /\ SmartCaptureCalculator.crop_rect 0.2
       (SmartCaptureCalculator.mkImage 1000 1000) narrow_box_example
     = Some (SmartCaptureCalculator.mkRect 160 150 478 600)
  /\ SmartCaptureCalculator.crop_rect 0.2
       (SmartCaptureCalculator.mkImage 100 100) tiny_box_example
     = Some (SmartCaptureCalculator.mkRect 0 0 1 60).
Proof.
  intros Hlen.
  assert (Hne : landmarks <> []) by (intros ->; discriminate Hlen).
  split; [apply bounds_seeds |].
  split; [| split; [| split; [| split]]].
  - intros Hn. unfold SmartCaptureCalculator.CropAndSend.
    rewrite (crop_rect_spec _ input_img landmarks Hne Hn). reflexivity.
  - intros roi H. apply (crop_rect_inside _ _ _ _ H).
  - apply crop_rect_box, bounds_box_example.
  - apply crop_rect_narrow_box, bounds_narrow_box_example.
  - apply crop_rect_tiny_box, bounds_tiny_box_example.
Qed.

Lemma crop_rectangle_witness :
  List.length box_example = 468%nat
  /\ Forall Spec.normalized box_example
  /\ SmartCaptureCalculator.CropAndSend
       (SmartCaptureCalculator.Open example_options)
       (SmartCaptureCalculator.mkImage 1000 1000) box_example
     = match Spec.RegionCropper box_example 1000 1000 0.2 with
       | Some roi => [SmartCaptureCalculator.CROPPED_FACE roi]
       | None => []
       end.
Proof.
  split; [reflexivity |]. split; [exact box_example_normalized |].
  exact (proj1 (proj2 (crop_rectangle
                         (SmartCaptureCalculator.Open example_options)
                         (SmartCaptureCalculator.mkImage 1000 1000)
                         box_example eq_refl))
           box_example_normalized).
Defined.

(** C6, as stated, fails for landmarks outside [0,1]: the 468 landmarks of
    [off_image_example] have x in [1.25, 1.5], to the right of a 1000x1000
    image.  The contract takes the minimum over the landmarks and emits
    nothing; [CropAndSend] starts its minimum at 1.0 and crops the strip
    (938,188,62,625) at the right border. *)
Lemma crop_off_image_counterexample :
  List.length off_image_example = 468%nat
  /\ Spec.RegionCropper off_image_example 1000 1000 0.25 = None
  /\ SmartCaptureCalculator.crop_rect 0.25
       (SmartCaptureCalculator.mkImage 1000 1000) off_image_example
     = Some (SmartCaptureCalculator.mkRect 938 188 62 625)
  /\ SmartCaptureCalculator.CropAndSend
       (SmartCaptureCalculator.mkState 5 15 15 0.25 0)
       (SmartCaptureCalculator.mkImage 1000 1000) off_image_example
     <> match Spec.RegionCropper off_image_example 1000 1000 0.25 with
        | Some roi => [SmartCaptureCalculator.CROPPED_FACE roi]
        | None => []
        end.
Proof.
  split; [reflexivity |]. split; [exact RegionCropper_off_image |].
  split; [exact crop_rect_off_image |].
  unfold SmartCaptureCalculator.CropAndSend.
  cbn [SmartCaptureCalculator.padding_].
  rewrite crop_rect_off_image, RegionCropper_off_image. discriminate.
Qed.

(** * Further properties of the code *)

(** ** Ranges of the estimated angles *)

Lemma atan_nonpos (t : R) : t <= 0 -> atan t <= 0.
Proof.
  intros [Hlt | ->].
  - rewrite <- atan_0. left. apply atan_increasing. exact Hlt.
  - rewrite atan_0. lra.
Qed.

Lemma atan_pos (t : R) : 0 < t -> 0 < atan t.
Proof.
  intros H. rewrite <- atan_0. apply atan_increasing. exact H.
Qed.

Lemma quotient_sign_neg (y x : R) : x < 0 -> 0 <= y -> y / x <= 0.
Proof.
  intros Hx Hy. unfold Rdiv.
  assert (Hi : / x < 0) by (apply Rinv_lt_0_compat; exact Hx).
  nra.
Qed.

Lemma quotient_sign_pos (y x : R) : x < 0 -> y < 0 -> 0 < y / x.
Proof.
  intros Hx Hy. unfold Rdiv.
  assert (Hi : / x < 0) by (apply Rinv_lt_0_compat; exact Hx).
  nra.
Qed.

(** [atan2] takes its values in (-pi, pi]. *)
Lemma atan2_range (y x : R) : - PI < atan2 y x <= PI.
Proof.
  pose proof PI_RGT_0 as Hpi. unfold atan2.
  destruct (Rlt_dec 0 x) as [Hx | Hx].
  - pose proof (atan_bound (y / x)). lra.
  - destruct (Rlt_dec x 0) as [Hn | Hn].
    + pose proof (atan_bound (y / x)) as Hb.
      destruct (Rle_dec 0 y) as [Hy | Hy].
      * pose proof (atan_nonpos _ (quotient_sign_neg y x Hn Hy)). lra.
      * assert (Hy' : y < 0) by lra.
        pose proof (atan_pos _ (quotient_sign_pos y x Hn Hy')). lra.
    + destruct (Rlt_dec 0 y); [lra |]. destruct (Rlt_dec y 0); lra.
Qed.


Lemma degrees_range (r : R) :
  - PI < r <= PI -> -180 < Spec.degrees r <= 180.
Proof.
  intros [Hl Hu]. pose proof PI_RGT_0 as Hpi.
  assert (Hk : 0 < 180 / PI) by (apply Rdiv_lt_0_compat; lra).
  assert (E : PI * (180 / PI) = 180) by (field; lra).
  unfold Spec.degrees. nra.
Qed.


Lemma estimates_bounded (landmarks : list Landmark) :
  exists yaw pitch roll,
    SmartFaceProcessor.EstimateYaw landmarks = Ok yaw
    /\ SmartFaceProcessor.EstimatePitch landmarks = Ok pitch
    /\ SmartFaceProcessor.EstimateRoll landmarks = Ok roll
    /\ Rabs yaw < 45 /\ Rabs pitch < 30 /\ -180 < roll <= 180.
Proof.
  destruct (Nat.ltb_spec (List.length landmarks) 468) as [Hs | Hf].
  - exists 0, 0, 0.
    rewrite EstimateYaw_short, EstimatePitch_short, EstimateRoll_short
      by exact Hs.
    rewrite Rabs_R0. repeat split; lra.
  - eexists _, _, _.
    rewrite EstimateYaw_full, EstimatePitch_full, EstimateRoll_full
      by exact Hf.
    split; [reflexivity |]. split; [reflexivity |]. split; [reflexivity |].
    split; [apply ratio_yaw_bound |]. split; [apply ratio_pitch_bound |].
    apply degrees_range, atan2_range.
Qed.

(** X1.  For every list of landmarks, of any length, the three WASM
    estimators return: the yaw lies within 45 degrees, the pitch within 30
    degrees, and the roll between -180 and 180 degrees (bounds included). *)
Theorem estimator_ranges (landmarks : list Landmark) :
  exists yaw pitch roll,
    SmartFaceProcessor.EstimateYaw landmarks = Ok yaw
    /\ SmartFaceProcessor.EstimatePitch landmarks = Ok pitch
    /\ SmartFaceProcessor.EstimateRoll landmarks = Ok roll
    /\ Rabs yaw <= 45 /\ Rabs pitch <= 30 /\ -180 <= roll <= 180.
Proof.
  destruct (estimates_bounded landmarks)
    as (yaw & pitch & roll & Ey & Ep & Er & Hy & Hp & Hr).
  exists yaw, pitch, roll.
  split; [exact Ey |]. split; [exact Ep |]. split; [exact Er |].
  split; [lra |]. split; lra.
Qed.

(** X2.  When landmarks 1, 234 and 454 exist, the yaw and the pitch that
    the calculator computes lie between -180 and 180 degrees (bounds
    included). *)
Theorem pose_range (landmarks : list Landmark) :
  (454 < List.length landmarks)%nat ->
  exists yaw pitch,
    SmartCaptureCalculator.pose landmarks = Ok (yaw, pitch)
    /\ -180 <= yaw <= 180 /\ -180 <= pitch <= 180.
Proof.
  intros H. rewrite pose_in_range by exact H.
  eexists _, _. split; [reflexivity |].
  split.
  - pose proof (degrees_range _ (atan2_range
        (Landmark.z (nth 234 landmarks Landmark.default)
         - Landmark.z (nth 454 landmarks Landmark.default))
        (Landmark.x (nth 234 landmarks Landmark.default)
         - Landmark.x (nth 454 landmarks Landmark.default)))) as Hr.
    unfold Spec.depth_yaw. lra.
  - match goal with
    | |- _ <= Spec.depth_pitch ?n ?a ?b <= _ =>
        unfold Spec.depth_pitch;
        match goal with
        | |- _ <= Spec.degrees (atan2 ?y ?x) <= _ =>
            pose proof (degrees_range _ (atan2_range y x)) as Hr; lra
        end
    end.
Qed.

Lemma pose_range_witness :
  exists yaw pitch,
    SmartCaptureCalculator.pose ears_example = Ok (yaw, pitch)
    /\ -180 <= yaw <= 180 /\ -180 <= pitch <= 180.
Proof.
  apply (pose_range ears_example). cbn. lia.
Defined.



(** ** The landmark accessors of the WASM processor *)

Lemma push_landmarks_in_range (v : list Landmark) (indices : list nat) :
  forall landmarks_array,
    Forall (fun i => (i < List.length v)%nat) indices ->
    SmartFaceProcessor.push_landmarks v indices landmarks_array
    = Ok (landmarks_array
            ++ map (fun i => as_object (nth i v Landmark.default)) indices).
Proof.
  induction indices as [| i indices IH]; intros acc Hall.
  - cbn. rewrite app_nil_r. reflexivity.
  - apply Forall_cons_iff in Hall. destruct Hall as [Hi Hrest].
    cbn [SmartFaceProcessor.push_landmarks map].
    rewrite at_in_range by exact Hi. cbn [bind].
    rewrite IH by exact Hrest. rewrite <- app_assoc. reflexivity.
Qed.

Lemma objects_by_index (v : list Landmark) :
  map (fun i => as_object (nth i v Landmark.default)) (seq 0 (List.length v))
  = map as_object v.
Proof.
  induction v as [| lm v IH]; [reflexivity |].
  cbn [List.length seq map nth]. f_equal.
  rewrite <- seq_shift, map_map. exact IH.
Qed.

Lemma getLandmarks_all (s : SmartFaceProcessor.state) :
  SmartFaceProcessor.getLandmarks s
  = Ok (map as_object (SmartFaceProcessor.last_landmarks_ s)).
Proof.
  unfold SmartFaceProcessor.getLandmarks.
  rewrite push_landmarks_in_range.
  - cbn [app]. rewrite objects_by_index. reflexivity.
  - apply Forall_forall. intros i Hi. apply in_seq in Hi. lia.
Qed.

(** X4.  [getLandmarks] returns for every processor state: its loop stays
    inside the stored vector, it yields one object per stored landmark, in
    order, and the object at index i has the coordinates of the landmark
    that [getLandmark] returns for i. *)
Theorem getLandmarks_agrees_with_getLandmark
        (s : SmartFaceProcessor.state) :
  exists objects,
    SmartFaceProcessor.getLandmarks s = Ok objects
    /\ List.length objects
       = List.length (SmartFaceProcessor.last_landmarks_ s)
    /\ forall i : Z,
         (0 <= i < Z.of_nat (List.length objects))%Z ->
         exists lm,
           SmartFaceProcessor.getLandmark s i = Ok lm
           /\ nth_error objects (Z.to_nat i) = Some (as_object lm).
Proof.
  exists (map as_object (SmartFaceProcessor.last_landmarks_ s)).
  split; [apply getLandmarks_all |]. split; [apply length_map |].
  intros i Hi. rewrite length_map in Hi.
  rewrite getLandmark_in_range by exact Hi.
  eexists. split; [reflexivity |].
  rewrite nth_error_map.
  rewrite (nth_error_nth' _ Landmark.default) by lia. reflexivity.
Qed.

Lemma getLandmarks_agrees_with_getLandmark_witness :
  exists objects lm,
    SmartFaceProcessor.getLandmarks three_landmarks = Ok objects
    /\ SmartFaceProcessor.getLandmark three_landmarks 1 = Ok lm
    /\ nth_error objects 1 = Some (as_object lm).
Proof.
  destruct (getLandmarks_agrees_with_getLandmark three_landmarks)
    as (objects & Hobj & Hlen & Hat).
  destruct (Hat 1%Z) as (lm & Hlm & Hnth).
  - rewrite Hlen. cbn. lia.
  - exists objects, lm. split; [exact Hobj |]. split; [exact Hlm | exact Hnth].
Defined.

(** ** Calls that [detectFace] refuses or that find no face *)

Section Refused.
Import SmartFaceProcessor.

Lemma detectFace_refused (s : state) (width height : Z) :
  initialized_ s = false \/ (width < 100)%Z \/ (height < 100)%Z ->
  exists r,
    detectFace s width height = Ok (r, s)
    /\ detected r = false /\ quality_good r = false /\ landmarks r = []
    /\ (message r = "Error: Not initialized"%string
        \/ message r = "Image too small"%string).
Proof.
  intros H. unfold detectFace.
  destruct (initialized_ s); cbn [negb].
  - destruct (Z.ltb_spec width 100); destruct (Z.ltb_spec height 100);
      cbn [orb];
      try (eexists; split; [reflexivity |]; cbn; tauto).
    destruct H as [H | [H | H]]; [discriminate | lia | lia].
  - eexists. split; [reflexivity |]. cbn. tauto.
Qed.

Lemma captureFrame_refused (s : state) (width height : Z) :
  initialized_ s = false \/ (width < 100)%Z \/ (height < 100)%Z ->
  captureFrame s width height = Ok (false, s).
Proof.
  intros H. unfold captureFrame.
  destruct (capture_count_ s >=? max_captures_ s)%Z; [reflexivity |].
  destruct (detectFace_refused s width height H) as (r & Hd & Hdet & _).
  rewrite Hd. cbn [bind]. rewrite Hdet. reflexivity.
Qed.

Lemma captures_uninitialized (frames : list (Z * Z)) (s : state) :
  initialized_ s = false ->
  captures s frames = Ok (repeat false (List.length frames), s).
Proof.
  intros H. induction frames as [| [w h] frames IH]; [reflexivity |].
  cbn [captures]. rewrite captureFrame_refused by (left; exact H).
  cbn [bind fst snd]. rewrite IH. reflexivity.
Qed.

End Refused.

(** X5.  A call that is refused before detection, because the processor is
    not initialized or the image is narrower or lower than 100 pixels,
    changes nothing: [detectFace] reports no face, and both [detectFace] and
    [captureFrame] leave the whole processor, stored landmarks included, as
    it was. *)
Theorem refused_call_changes_nothing
        (s : SmartFaceProcessor.state) (width height : Z) :
  SmartFaceProcessor.initialized_ s = false
  \/ (width < 100)%Z \/ (height < 100)%Z ->
  (exists r,
      SmartFaceProcessor.detectFace s width height = Ok (r, s)
      /\ SmartFaceProcessor.detected r = false
      /\ SmartFaceProcessor.quality_good r = false
      /\ SmartFaceProcessor.landmarks r = [])
  /\ SmartFaceProcessor.captureFrame s width height = Ok (false, s).
Proof.
  intros H. split.
  - destruct (detectFace_refused s width height H)
      as (r & Hd & Hdet & Hq & Hl & _).
    exists r. repeat split; assumption.
  - apply captureFrame_refused. exact H.
Qed.

Lemma refused_call_changes_nothing_witness :
  SmartFaceProcessor.captureFrame three_landmarks 99 480
  = Ok (false, three_landmarks)
  /\ SmartFaceProcessor.captureFrame SmartFaceProcessor.new 640 480
     = Ok (false, SmartFaceProcessor.new).
Proof.
  split.
  - apply (refused_call_changes_nothing three_landmarks 99 480).
    right. left. lia.
  - apply (refused_call_changes_nothing SmartFaceProcessor.new 640 480).
    left. reflexivity.
Defined.

(** X6.  Before [initialize], no sequence of [captureFrame] calls captures
    anything: every call returns false and the processor stays as it was. *)
Theorem uninitialized_never_captures
        (s : SmartFaceProcessor.state) (frames : list (Z * Z)) :
  SmartFaceProcessor.initialized_ s = false ->
  SmartFaceProcessor.captures s frames
  = Ok (repeat false (List.length frames), s).
Proof. apply captures_uninitialized. Qed.

Lemma uninitialized_never_captures_witness :
  SmartFaceProcessor.captures SmartFaceProcessor.new
    [(640, 480); (1920, 1080); (50, 50)]%Z
  = Ok ([false; false; false], SmartFaceProcessor.new).
Proof.
  apply (uninitialized_never_captures SmartFaceProcessor.new
           [(640, 480); (1920, 1080); (50, 50)]%Z).
  reflexivity.
Defined.

(** X7.  On an initialized processor, an image of at least 100x100 pixels
    that is narrower than 320 or lower than 240 pixels yields
    "No face detected" and empties the stored landmarks: afterwards
    [getLandmark] returns (0, 0, 0) for every index and [getLandmarks] is
    empty, whatever was stored before. *)
Theorem undersized_image_discards_landmarks
        (s : SmartFaceProcessor.state) (width height : Z) :
  SmartFaceProcessor.initialized_ s = true ->
  (100 <= width)%Z -> (100 <= height)%Z ->
  (width < 320 \/ height < 240)%Z ->
  exists r s',
    SmartFaceProcessor.detectFace s width height = Ok (r, s')
    /\ SmartFaceProcessor.detected r = false
    /\ SmartFaceProcessor.message r = "No face detected"%string
    /\ SmartFaceProcessor.last_landmarks_ s' = []
    /\ (forall i, SmartFaceProcessor.getLandmark s' i = Ok Landmark.default)
    /\ SmartFaceProcessor.getLandmarks s' = Ok [].
Proof.
  intros Hi Hw Hh Hsmall. unfold SmartFaceProcessor.detectFace.
  rewrite Hi. cbn [negb].
  destruct (Z.ltb_spec width 100); [lia |].
  destruct (Z.ltb_spec height 100); [lia |]. cbn [orb].
  pose proof (processImageData_small s width height Hsmall) as Hnone.
  assert (Hstored :
            SmartFaceProcessor.last_landmarks_
              (snd (SmartFaceProcessor.processImageData s width height))
            = fst (SmartFaceProcessor.processImageData s width height))
    by reflexivity.
  destruct (SmartFaceProcessor.processImageData s width height) as [l s'].
  cbn [fst snd] in Hnone, Hstored. subst l.
  rewrite assess_short by (cbn; lia). cbn [bind].
  eexists _, _. split; [reflexivity |].
  split; [reflexivity |]. split; [reflexivity |]. split; [exact Hstored |].
  split.
  - intros i. unfold SmartFaceProcessor.getLandmark. rewrite Hstored.
    cbn [List.length Z.of_nat].
    destruct (Z.leb_spec 0 i); destruct (Z.ltb_spec i 0); cbn [andb];
      try reflexivity; lia.
  - rewrite getLandmarks_all, Hstored. reflexivity.
Qed.

Lemma undersized_image_discards_landmarks_witness :
  exists r s',
    SmartFaceProcessor.detectFace three_landmarks 200 200 = Ok (r, s')
    /\ SmartFaceProcessor.detected r = false
    /\ SmartFaceProcessor.message r = "No face detected"%string
    /\ SmartFaceProcessor.last_landmarks_ s' = []
    /\ (forall i, SmartFaceProcessor.getLandmark s' i = Ok Landmark.default)
    /\ SmartFaceProcessor.getLandmarks s' = Ok [].
Proof.
  apply (undersized_image_discards_landmarks three_landmarks 200 200);
    [reflexivity | lia | lia | left; lia].
Defined.

(** ** Results of [detectFace] *)

Lemma yaw_ok_true (s : SmartFaceProcessor.state) (yaw : R) :
  SmartFaceProcessor.yaw_ok s yaw = true ->
  Rabs yaw <= SmartFaceProcessor.max_yaw_ s.
Proof.
  unfold SmartFaceProcessor.yaw_ok.
  destruct (Rle_dec _ _); [tauto | discriminate].
Qed.

Lemma pitch_ok_true (s : SmartFaceProcessor.state) (pitch : R) :
  SmartFaceProcessor.pitch_ok s pitch = true ->
  Rabs pitch <= SmartFaceProcessor.max_pitch_ s.
Proof.
  unfold SmartFaceProcessor.pitch_ok.
  destruct (Rle_dec _ _); [tauto | discriminate].
Qed.

Lemma well_formed_no_face (s : SmartFaceProcessor.state) (msg : string) :
  well_formed_result s
    (SmartFaceProcessor.mkFaceResult false 0 msg 0 0 0 false []).
Proof.
  unfold well_formed_result. cbn. rewrite Rabs_R0.
  repeat split; try discriminate; try lra.
Qed.

Lemma well_formed_face (s : SmartFaceProcessor.state) (l : list Landmark) :
  List.length l = 468%nat ->
  exists r, SmartFaceProcessor.assess s l = Ok r
            /\ SmartFaceProcessor.landmarks r = l
            /\ SmartFaceProcessor.detected r = true
            /\ well_formed_result s r.
Proof.
  intros Hlen. rewrite assess_full by lia.
  eexists. split; [reflexivity |]. split; [reflexivity |].
  split; [reflexivity |].
  unfold well_formed_result. cbn.
  split; [reflexivity |].
  split; [split; [intros _; exact Hlen | reflexivity] |].
  split; [discriminate |].
  split.
  - intros Hq. apply andb_true_iff in Hq. destruct Hq as [Hy Hp].
    split; [reflexivity |].
    split; [apply yaw_ok_true, Hy | apply pitch_ok_true, Hp].
  - split; [apply ratio_yaw_bound |]. split; [apply ratio_pitch_bound |].
    apply degrees_range, atan2_range.
Qed.

(** X8.  Every call of [detectFace] returns a result that is consistent:
    landmark_count is the number of landmarks attached, a face is detected
    exactly when 468 landmarks are attached, an undetected result has zero
    angles, no landmarks and no quality flag, a result of good quality is a
    detected one whose yaw and pitch are within the thresholds, and the
    angles are bounded (45, 30 and 180 degrees). *)
Theorem detectFace_result_well_formed
        (s : SmartFaceProcessor.state) (width height : Z) :
  exists r s',
    SmartFaceProcessor.detectFace s width height = Ok (r, s')
    /\ well_formed_result s r.
Proof.
  unfold SmartFaceProcessor.detectFace.
  destruct (SmartFaceProcessor.initialized_ s); cbn [negb];
    [| eexists _, _; split; [reflexivity | apply well_formed_no_face]].
  destruct ((width <? 100) || (height <? 100))%Z%bool;
    [eexists _, _; split; [reflexivity | apply well_formed_no_face] |].
  pose proof (processImageData_state s width height)
    as [(_ & Hy & Hp & _) _].
  destruct (Z_lt_le_dec width 320) as [Hw | Hw];
    [| destruct (Z_lt_le_dec height 240) as [Hh | Hh]].
  - pose proof (processImageData_small s width height (or_introl Hw)) as E.
    destruct (SmartFaceProcessor.processImageData s width height) as [l s'].
    cbn [fst] in E. subst l. rewrite assess_short by (cbn; lia).
    eexists _, _. split; [reflexivity | apply well_formed_no_face].
  - pose proof (processImageData_small s width height (or_intror Hh)) as E.
    destruct (SmartFaceProcessor.processImageData s width height) as [l s'].
    cbn [fst] in E. subst l. rewrite assess_short by (cbn; lia).
    eexists _, _. split; [reflexivity | apply well_formed_no_face].
  - pose proof (processImageData_large s width height Hw Hh) as Hlen.
    destruct (SmartFaceProcessor.processImageData s width height) as [l s'].
    cbn [fst snd] in Hlen, Hy, Hp.
    destruct (well_formed_face s' l Hlen) as (r & Hr & _ & _ & Hwf).
    rewrite Hr. cbn [bind]. exists r, s'. split; [reflexivity |].
    unfold well_formed_result in *. rewrite <- Hy, <- Hp. exact Hwf.
Qed.

(** X9.  On an initialized processor, an image of at least 320x240 pixels
    yields a detected face of 468 landmarks, and the landmarks of the result
    are the ones stored: [getLandmark] returns the i-th landmark of the
    result for every i below 468, and [getLandmarks] lists them all. *)
Theorem detected_landmarks_are_stored
        (s : SmartFaceProcessor.state) (width height : Z) :
  SmartFaceProcessor.initialized_ s = true ->
  (320 <= width)%Z -> (240 <= height)%Z ->
  exists r s',
    SmartFaceProcessor.detectFace s width height = Ok (r, s')
    /\ SmartFaceProcessor.detected r = true
    /\ SmartFaceProcessor.landmark_count r = 468%Z
    /\ List.length (SmartFaceProcessor.landmarks r) = 468%nat
    /\ (forall i : Z,
           (0 <= i < 468)%Z ->
           SmartFaceProcessor.getLandmark s' i
           = Ok (nth (Z.to_nat i) (SmartFaceProcessor.landmarks r)
                     Landmark.default))
    /\ SmartFaceProcessor.getLandmarks s'
       = Ok (map as_object (SmartFaceProcessor.landmarks r)).
Proof.
  intros Hi Hw Hh. unfold SmartFaceProcessor.detectFace.
  rewrite Hi. cbn [negb].
  destruct (Z.ltb_spec width 100); [lia |].
  destruct (Z.ltb_spec height 100); [lia |]. cbn [orb].
  pose proof (processImageData_large s width height Hw Hh) as Hlen.
  assert (Hstored :
            SmartFaceProcessor.last_landmarks_
              (snd (SmartFaceProcessor.processImageData s width height))
            = fst (SmartFaceProcessor.processImageData s width height))
    by reflexivity.
  destruct (SmartFaceProcessor.processImageData s width height) as [l s'].
  cbn [fst snd] in Hlen, Hstored.
  destruct (well_formed_face s' l Hlen) as (r & Hr & Hl & Hdet & Hcount & _).
  rewrite Hr. cbn [bind]. exists r, s'. split; [reflexivity |].
  split; [exact Hdet |]. rewrite Hl in *.
  split; [rewrite Hcount, Hlen; reflexivity |].
  split; [exact Hlen |]. split.
  - intros i Hi'. rewrite getLandmark_in_range by (rewrite Hstored; lia).
    rewrite Hstored. reflexivity.
  - rewrite getLandmarks_all, Hstored. reflexivity.
Qed.

Lemma detected_landmarks_are_stored_witness :
  exists r s',
    SmartFaceProcessor.detectFace default_processor 640 480 = Ok (r, s')
    /\ SmartFaceProcessor.detected r = true
    /\ SmartFaceProcessor.landmark_count r = 468%Z
    /\ List.length (SmartFaceProcessor.landmarks r) = 468%nat
    /\ (forall i : Z,
           (0 <= i < 468)%Z ->
           SmartFaceProcessor.getLandmark s' i
           = Ok (nth (Z.to_nat i) (SmartFaceProcessor.landmarks r)
                     Landmark.default))
    /\ SmartFaceProcessor.getLandmarks s'
       = Ok (map as_object (SmartFaceProcessor.landmarks r)).
Proof.
  apply (detected_landmarks_are_stored default_processor 640 480);
    [reflexivity | lia | lia].
Defined.

(** ** Translation of the landmarks *)

Lemma at_map (f : Landmark -> Landmark) (l : list Landmark) (i : nat) :
  SmartFaceProcessor.at_ (map f l) i
  = match SmartFaceProcessor.at_ l i with
    | Ok lm => Ok (f lm)
    | OutOfRange => OutOfRange
    end.
Proof.
  unfold SmartFaceProcessor.at_. rewrite nth_error_map.
  destruct (nth_error l i); reflexivity.
Qed.

Lemma estimators_shift (dx dy dz : R) (landmarks : list Landmark) :
  SmartFaceProcessor.EstimateYaw (map (shift dx dy dz) landmarks)
  = SmartFaceProcessor.EstimateYaw landmarks
  /\ SmartFaceProcessor.EstimatePitch (map (shift dx dy dz) landmarks)
     = SmartFaceProcessor.EstimatePitch landmarks
  /\ SmartFaceProcessor.EstimateRoll (map (shift dx dy dz) landmarks)
     = SmartFaceProcessor.EstimateRoll landmarks.
Proof.
  unfold SmartFaceProcessor.EstimateYaw, SmartFaceProcessor.EstimatePitch,
    SmartFaceProcessor.EstimateRoll.
  rewrite length_map, !at_map.
  destruct (List.length landmarks <? 468)%nat; [repeat split |].
  split; [| split].
  - destruct (SmartFaceProcessor.at_ landmarks 33) as [a |]; [| reflexivity].
    destruct (SmartFaceProcessor.at_ landmarks 263) as [b |]; [| reflexivity].
    destruct (SmartFaceProcessor.at_ landmarks 1) as [c |]; [| reflexivity].
    cbn [bind shift Landmark.x].
    replace (Landmark.x c + dx - (Landmark.x a + dx))
      with (Landmark.x c - Landmark.x a) by ring.
    replace (Landmark.x b + dx - (Landmark.x c + dx))
      with (Landmark.x b - Landmark.x c) by ring.
    reflexivity.
  - destruct (SmartFaceProcessor.at_ landmarks 168) as [a |]; [| reflexivity].
    destruct (SmartFaceProcessor.at_ landmarks 152) as [b |]; [| reflexivity].
    destruct (SmartFaceProcessor.at_ landmarks 10) as [c |]; [| reflexivity].
    cbn [bind shift Landmark.y].
    replace (Landmark.y c + dy - (Landmark.y a + dy))
      with (Landmark.y c - Landmark.y a) by ring.
    replace (Landmark.y b + dy - (Landmark.y a + dy))
      with (Landmark.y b - Landmark.y a) by ring.
    reflexivity.
  - destruct (SmartFaceProcessor.at_ landmarks 33) as [a |]; [| reflexivity].
    destruct (SmartFaceProcessor.at_ landmarks 263) as [b |]; [| reflexivity].
    cbn [bind shift Landmark.x Landmark.y].
    replace (Landmark.x b + dx - (Landmark.x a + dx))
      with (Landmark.x b - Landmark.x a) by ring.
    replace (Landmark.y b + dy - (Landmark.y a + dy))
      with (Landmark.y b - Landmark.y a) by ring.
    reflexivity.
Qed.

Lemma assess_shift (s : SmartFaceProcessor.state) (dx dy dz : R)
      (l : list Landmark) :
  exists r r',
    SmartFaceProcessor.assess s l = Ok r
    /\ SmartFaceProcessor.assess s (map (shift dx dy dz) l) = Ok r'
    /\ same_assessment r r'.
Proof.
  destruct (estimators_shift dx dy dz l) as (Ey & Ep & Er).
  destruct (estimates_bounded l) as (yaw & pitch & roll & Hy & Hp & Hr & _).
  unfold SmartFaceProcessor.assess.
  rewrite length_map, Ey, Ep, Er, Hy, Hp, Hr. cbn [bind].
  destruct ((List.length l =? 0)%nat || (List.length l <? 468)%nat);
    eexists _, _; (split; [reflexivity |]); (split; [reflexivity |]);
    repeat split.
Qed.

Lemma simulated_shift (yaw_offset pitch_offset : R) (i : nat) :
  SmartFaceProcessor.simulated yaw_offset pitch_offset i
  = shift yaw_offset pitch_offset 0 (SmartFaceProcessor.simulated 0 0 i).
Proof.
  unfold SmartFaceProcessor.simulated, shift. cbv zeta.
  cbn [Landmark.x Landmark.y Landmark.z].
  f_equal; ring.
Qed.

Lemma processImageData_shift (s : SmartFaceProcessor.state) (width height : Z) :
  (320 <= width)%Z -> (240 <= height)%Z ->
  fst (SmartFaceProcessor.processImageData s width height)
  = map (shift ((IZR (Z.rem width 30) - 15) / 1000)
               ((IZR (Z.rem height 20) - 10) / 1000) 0) centered_face.
Proof.
  intros Hw Hh. unfold SmartFaceProcessor.processImageData. cbn [fst].
  destruct (Z.leb_spec 320 width); [| lia].
  destruct (Z.leb_spec 240 height); [| lia]. cbn [andb].
  unfold centered_face. rewrite map_map.
  apply map_ext. intros i. apply simulated_shift.
Qed.

Lemma same_assessment_sym (r r' : SmartFaceProcessor.FaceResult) :
  same_assessment r r' -> same_assessment r' r.
Proof.
  unfold same_assessment. intros (A & B & C & D & E & F & G).
  repeat split; congruence.
Qed.

Lemma same_assessment_trans (r1 r2 r3 : SmartFaceProcessor.FaceResult) :
  same_assessment r1 r2 -> same_assessment r2 r3 -> same_assessment r1 r3.
Proof.
  unfold same_assessment.
  intros (A & B & C & D & E & F & G) (A' & B' & C' & D' & E' & F' & G').
  repeat split; congruence.
Qed.

(** On a frame of at least 320x240 pixels [detectFace] assesses the
    centered face, moved by the offsets. *)
Lemma detectFace_centered (s : SmartFaceProcessor.state) (width height : Z) :
  SmartFaceProcessor.initialized_ s = true ->
  (320 <= width)%Z -> (240 <= height)%Z ->
  exists r0 r s',
    SmartFaceProcessor.assess s centered_face = Ok r0
    /\ SmartFaceProcessor.detectFace s width height = Ok (r, s')
    /\ same_assessment r0 r.
Proof.
  intros Hi Hw Hh. unfold SmartFaceProcessor.detectFace.
  rewrite Hi. cbn [negb].
  destruct (Z.ltb_spec width 100); [lia |].
  destruct (Z.ltb_spec height 100); [lia |]. cbn [orb].
  pose proof (processImageData_shift s width height Hw Hh) as Hl.
  pose proof (processImageData_state s width height) as [Hcfg _].
  destruct (SmartFaceProcessor.processImageData s width height) as [l s'].
  cbn [fst snd] in Hl, Hcfg. subst l.
  rewrite (assess_config s s' _ Hcfg).
  destruct (assess_shift s ((IZR (Z.rem width 30) - 15) / 1000)
              ((IZR (Z.rem height 20) - 10) / 1000) 0 centered_face)
    as (r0 & r & Hr0 & Hr & Hsame).
  rewrite Hr. cbn [bind]. exists r0, r, s'.
  split; [exact Hr0 |]. split; [reflexivity | exact Hsame].
Qed.

(** ** The simulated landmarks *)

Lemma simulated_in_range (yaw_offset pitch_offset : R) (i : nat) :
  -0.015 <= yaw_offset <= 0.014 -> -0.01 <= pitch_offset <= 0.009 ->
  let lm := SmartFaceProcessor.simulated yaw_offset pitch_offset i in
  0.185 <= Landmark.x lm <= 0.814
  /\ 0.09 <= Landmark.y lm <= 0.909
  /\ -0.05 <= Landmark.z lm <= -0.041.
Proof.
  intros Hyo Hpo. unfold SmartFaceProcessor.simulated. cbv zeta.
  cbn [Landmark.x Landmark.y Landmark.z].
  pose proof (COS_bound (INR i * 2 * M_PI / 468)) as Hc.
  pose proof (SIN_bound (INR i * 2 * M_PI / 468)) as Hs.
  assert (Hrem : (0 <= Z.rem (Z.of_nat i) 10 <= 9)%Z).
  { pose proof (Z.rem_bound_pos (Z.of_nat i) 10). lia. }
  assert (Hz : 0 <= IZR (Z.rem (Z.of_nat i) 10) <= 9).
  { destruct Hrem as [H0 H9]. apply IZR_le in H0, H9. lra. }
  split; [| split].
  - destruct (i <? 234)%nat; nra.
  - nra.
  - lra.
Qed.

Lemma offset_ranges (width height : Z) :
  (0 <= width)%Z -> (0 <= height)%Z ->
  -0.015 <= (IZR (Z.rem width 30) - 15) / 1000 <= 0.014
  /\ -0.01 <= (IZR (Z.rem height 20) - 10) / 1000 <= 0.009.
Proof.
  intros Hw Hh.
  assert (Hrw : (0 <= Z.rem width 30 <= 29)%Z)
    by (pose proof (Z.rem_bound_pos width 30); lia).
  assert (Hrh : (0 <= Z.rem height 20 <= 19)%Z)
    by (pose proof (Z.rem_bound_pos height 20); lia).
  destruct Hrw as [A B], Hrh as [C D].
  apply IZR_le in A, B, C, D. split; lra.
Qed.

(** X12.  For a frame of at least 320x240 pixels [processImageData] produces
    468 landmarks and stores exactly these; every one of them lies well
    inside the image and in a thin layer of depth: x in [0.18, 0.82], y in
    [0.08, 0.92] and z in [-0.051, -0.04]. *)
Theorem simulated_landmarks_normalized
        (s : SmartFaceProcessor.state) (width height : Z) :
  (320 <= width)%Z -> (240 <= height)%Z ->
  let l := fst (SmartFaceProcessor.processImageData s width height) in
  List.length l = 468%nat
  /\ SmartFaceProcessor.last_landmarks_
       (snd (SmartFaceProcessor.processImageData s width height)) = l
  /\ Forall (fun lm => 0.18 <= Landmark.x lm <= 0.82
                       /\ 0.08 <= Landmark.y lm <= 0.92
                       /\ -0.051 <= Landmark.z lm <= -0.04) l.
Proof.
  intros Hw Hh. cbv zeta.
  split; [apply processImageData_large; assumption |].
  split; [reflexivity |].
  unfold SmartFaceProcessor.processImageData. cbn [fst].
  destruct (Z.leb_spec 320 width); [| lia].
  destruct (Z.leb_spec 240 height); [| lia]. cbn [andb].
  apply Forall_forall. intros lm Hin. apply in_map_iff in Hin.
  destruct Hin as (i & <- & _).
  destruct (offset_ranges width height) as [Hyo Hpo]; [lia | lia |].
  pose proof (simulated_in_range _ _ i Hyo Hpo) as (Hx & Hy & Hz).
  repeat split; lra.
Qed.

Lemma simulated_landmarks_normalized_witness :
  let l := fst (SmartFaceProcessor.processImageData default_processor
                  640 480) in
  List.length l = 468%nat
  /\ SmartFaceProcessor.last_landmarks_
       (snd (SmartFaceProcessor.processImageData default_processor 640 480))
     = l
  /\ Forall (fun lm => 0.18 <= Landmark.x lm <= 0.82
                       /\ 0.08 <= Landmark.y lm <= 0.92
                       /\ -0.051 <= Landmark.z lm <= -0.04) l.
Proof.
  apply (simulated_landmarks_normalized default_processor 640 480); lia.
Defined.

(** *** The yaw of the simulated face *)

Lemma cos_lower_bound (t : R) : 0 <= t <= PI -> 1 - t * t / 2 <= cos t.
Proof.
  intros [H0 H1].
  replace (cos t) with (cos (2 * (t / 2))) by (apply f_equal; field).
  rewrite cos_2a_sin.
  assert (Hs0 : 0 <= sin (t / 2)) by (apply sin_ge_0; lra).
  assert (Hs1 : sin (t / 2) <= t / 2).
  { destruct H0 as [Hpos | <-].
    - left. apply sin_lt_x. lra.
    - replace (0 / 2) with 0 by field. rewrite sin_0. lra. }
  nra.
Qed.

Lemma nth_centered_face (i : nat) :
  (i < 468)%nat ->
  nth i centered_face Landmark.default = SmartFaceProcessor.simulated 0 0 i.
Proof.
  intros H. unfold centered_face.
  rewrite (nth_indep _ Landmark.default (SmartFaceProcessor.simulated 0 0 0))
    by (rewrite length_map, length_seq; exact H).
  rewrite map_nth, seq_nth by exact H. reflexivity.
Qed.

Lemma cos_simulated_1 : 0.999 <= cos (INR 1 * 2 * M_PI / 468) <= 1.
Proof.
  pose proof PI_bounds as [P1 P2]. unfold M_PI.
  rewrite INR_IZR_INZ. change (Z.of_nat 1) with 1%Z.
  split; [| apply COS_bound].
  assert (Ht : 0 <= 1 * 2 * PI / 468 <= 0.02) by lra.
  pose proof (cos_lower_bound (1 * 2 * PI / 468)) as Hc.
  assert (Hsq : 1 * 2 * PI / 468 * (1 * 2 * PI / 468) <= 0.0004) by nra.
  lra.
Qed.

Lemma cos_simulated_33 : 0.9 <= cos (INR 33 * 2 * M_PI / 468) <= 1.
Proof.
  pose proof PI_bounds as [P1 P2]. unfold M_PI.
  rewrite INR_IZR_INZ. change (Z.of_nat 33) with 33%Z.
  split; [| apply COS_bound].
  assert (Ht : 0 <= 33 * 2 * PI / 468 <= 0.4431) by lra.
  pose proof (cos_lower_bound (33 * 2 * PI / 468)) as Hc.
  assert (Hsq : 33 * 2 * PI / 468 * (33 * 2 * PI / 468) <= 0.2) by nra.
  lra.
Qed.

Lemma cos_simulated_263 : -1 <= cos (INR 263 * 2 * M_PI / 468) <= 0.
Proof.
  pose proof PI_RGT_0 as Hpi. unfold M_PI.
  rewrite INR_IZR_INZ. change (Z.of_nat 263) with 263%Z.
  split; [apply COS_bound |].
  apply cos_le_0; lra.
Qed.

(** The yaw of the centered face is below -36 degrees. *)
Lemma centered_face_yaw :
  Spec.ratio_yaw (nth 1 centered_face Landmark.default)
    (nth 33 centered_face Landmark.default)
    (nth 263 centered_face Landmark.default) <= -36.
Proof.
  rewrite !nth_centered_face by lia.
  unfold Spec.ratio_yaw, SmartFaceProcessor.simulated. cbv zeta.
  change (1 <? 234)%nat with true. change (33 <? 234)%nat with true.
  change (263 <? 234)%nat with false.
  cbn [Landmark.x].
  pose proof cos_simulated_1 as [A1 A2].
  pose proof cos_simulated_33 as [B1 B2].
  pose proof cos_simulated_263 as [C1 C2].
  set (c1 := cos (INR 1 * 2 * M_PI / 468)) in *.
  set (c33 := cos (INR 33 * 2 * M_PI / 468)) in *.
  set (c263 := cos (INR 263 * 2 * M_PI / 468)) in *.
  set (a := Rabs (0.5 + 0.3 * c1 + 0 - (0.5 + 0.3 * c33 + 0))).
  set (b := Rabs (0.5 + 0.3 * 0.8 * c263 + 0 - (0.5 + 0.3 * c1 + 0))).
  assert (Ha : 0 <= a <= 0.03).
  { split; [apply Rabs_pos |]. apply Rabs_le. lra. }
  assert (Hb : 0.2997 <= b).
  { unfold b. rewrite Rabs_left by nra. nra. }
  unfold Spec.ratio, Spec.epsilon.
  assert (Hd : 0 < a + b + 0.001) by lra.
  assert (Hq : (a - b) / (a + b + 0.001) <= -0.8).
  { apply Rmult_le_reg_r with (a + b + 0.001); [exact Hd |].
    unfold Rdiv. rewrite Rmult_assoc, Rinv_l by lra. lra. }
  lra.
Qed.


Lemma detectFace_detected_only_large
      (s s' : SmartFaceProcessor.state) (width height : Z)
      (r : SmartFaceProcessor.FaceResult) :
  SmartFaceProcessor.detectFace s width height = Ok (r, s') ->
  SmartFaceProcessor.detected r = true ->
  SmartFaceProcessor.initialized_ s = true
  /\ (320 <= width)%Z /\ (240 <= height)%Z.
Proof.
  intros Hd Hdet.
  destruct (SmartFaceProcessor.initialized_ s) eqn:Hi.
  - destruct (Z_lt_le_dec width 100) as [Hw | Hw].
    { destruct (detectFace_refused s width height
                  (or_intror (or_introl Hw))) as (r' & Hd' & Hn & _).
      rewrite Hd in Hd'. injection Hd' as <- _. congruence. }
    destruct (Z_lt_le_dec height 100) as [Hh | Hh].
    { destruct (detectFace_refused s width height
                  (or_intror (or_intror Hh))) as (r' & Hd' & Hn & _).
      rewrite Hd in Hd'. injection Hd' as <- _. congruence. }
    destruct (Z_lt_le_dec width 320) as [Hw2 | Hw2];
      [| destruct (Z_lt_le_dec height 240) as [Hh2 | Hh2]];
      [| | repeat split; assumption].
    + exfalso. unfold SmartFaceProcessor.detectFace in Hd.
      rewrite Hi in Hd. cbn [negb] in Hd.
      destruct (Z.ltb_spec width 100); [lia |].
      destruct (Z.ltb_spec height 100); [lia |]. cbn [orb] in Hd.
      pose proof (processImageData_small s width height (or_introl Hw2)) as E.
      destruct (SmartFaceProcessor.processImageData s width height) as [l t].
      cbn [fst] in E. subst l. rewrite assess_short in Hd by (cbn; lia).
      injection Hd as <- _. discriminate Hdet.
    + exfalso. unfold SmartFaceProcessor.detectFace in Hd.
      rewrite Hi in Hd. cbn [negb] in Hd.
      destruct (Z.ltb_spec width 100); [lia |].
      destruct (Z.ltb_spec height 100); [lia |]. cbn [orb] in Hd.
      pose proof (processImageData_small s width height (or_intror Hh2)) as E.
      destruct (SmartFaceProcessor.processImageData s width height) as [l t].
      cbn [fst] in E. subst l. rewrite assess_short in Hd by (cbn; lia).
      injection Hd as <- _. discriminate Hdet.
  - destruct (detectFace_refused s width height (or_introl Hi))
      as (r' & Hd' & Hn & _).
    rewrite Hd in Hd'. injection Hd' as <- _. congruence.
Qed.

Lemma simulated_face_rejected
      (s : SmartFaceProcessor.state) (width height : Z) :
  SmartFaceProcessor.initialized_ s = true ->
  SmartFaceProcessor.max_yaw_ s < 36 ->
  (320 <= width)%Z -> (240 <= height)%Z ->
  exists r s',
    SmartFaceProcessor.detectFace s width height = Ok (r, s')
    /\ SmartFaceProcessor.detected r = true
    /\ SmartFaceProcessor.yaw r <= -36
    /\ SmartFaceProcessor.quality_good r = false.
Proof.
  intros Hi Hmax Hw Hh.
  destruct (detectFace_centered s width height Hi Hw Hh)
    as (r0 & r & s' & H0 & Hd & (Sd & _ & _ & Sy & _ & _ & Sq)).
  rewrite assess_full in H0
    by (unfold centered_face; rewrite length_map, length_seq; lia).
  injection H0 as <-.
  cbn [SmartFaceProcessor.detected SmartFaceProcessor.yaw
         SmartFaceProcessor.quality_good] in Sd, Sy, Sq.
  exists r, s'. split; [exact Hd |]. split; [exact Sd |].
  pose proof centered_face_yaw as Hyaw.
  rewrite !nth_centered_face in Hyaw by lia.
  split; [rewrite Sy; exact Hyaw |].
  rewrite Sq. unfold SmartFaceProcessor.yaw_ok.
  destruct (Rle_dec _ _) as [Hle | _]; [| reflexivity].
  exfalso. rewrite Rabs_left in Hle by lra. lra.
Qed.

Lemma captureFrame_below_36 (s : SmartFaceProcessor.state) (width height : Z) :
  SmartFaceProcessor.max_yaw_ s < 36 ->
  exists s',
    SmartFaceProcessor.captureFrame s width height = Ok (false, s')
    /\ same_config s s'
    /\ SmartFaceProcessor.capture_count_ s'
       = SmartFaceProcessor.capture_count_ s.
Proof.
  intros Hmax.
  destruct (captureFrame_effect s width height)
    as (b & s' & Hc & Hcfg & Hcnt & _ & Hdet).
  destruct b.
  - exfalso. destruct (Hdet eq_refl) as (r & s1 & Hd & Hface & Hq).
    destruct (detectFace_detected_only_large s s1 width height r Hd Hface)
      as (Hi & Hw & Hh).
    destruct (simulated_face_rejected s width height Hi Hmax Hw Hh)
      as (r' & s1' & Hd' & _ & _ & Hq').
    rewrite Hd in Hd'. injection Hd' as <- _. congruence.
  - exists s'. split; [exact Hc |]. split; [exact Hcfg | exact Hcnt].
Qed.

(** X13.  With a yaw threshold below 36 degrees, as with the 15 degrees of
    the constructor, the face that [processImageData] simulates is always
    turned too far: on every frame of at least 320x240 pixels [detectFace]
    reports a detected face with a yaw of at most -36 degrees and without
    the quality flag. *)
Theorem simulated_face_fails_yaw_check
        (s : SmartFaceProcessor.state) (width height : Z) :
  SmartFaceProcessor.initialized_ s = true ->
  SmartFaceProcessor.max_yaw_ s < 36 ->
  (320 <= width)%Z -> (240 <= height)%Z ->
  exists r s',
    SmartFaceProcessor.detectFace s width height = Ok (r, s')
    /\ SmartFaceProcessor.detected r = true
    /\ SmartFaceProcessor.yaw r <= -36
    /\ SmartFaceProcessor.quality_good r = false.
Proof. exact (simulated_face_rejected s width height). Qed.

Lemma simulated_face_fails_yaw_check_witness :
  exists r s',
    SmartFaceProcessor.detectFace default_processor 640 480 = Ok (r, s')
    /\ SmartFaceProcessor.detected r = true
    /\ SmartFaceProcessor.yaw r <= -36
    /\ SmartFaceProcessor.quality_good r = false.
Proof.
  apply (simulated_face_fails_yaw_check default_processor 640 480);
    [reflexivity | cbn; lra | lia | lia].
Defined.

(** X14.  As long as the yaw threshold stays below 36 degrees, no sequence
    of [captureFrame] calls captures anything, whatever the frame sizes:
    every call returns false and the count keeps its value. *)
Theorem no_capture_below_36
        (frames : list (Z * Z)) (s : SmartFaceProcessor.state) :
  SmartFaceProcessor.max_yaw_ s < 36 ->
  exists s',
    SmartFaceProcessor.captures s frames
    = Ok (repeat false (List.length frames), s')
    /\ SmartFaceProcessor.capture_count_ s'
       = SmartFaceProcessor.capture_count_ s.
Proof.
  revert s. induction frames as [| [w h] frames IH]; intros s Hmax.
  - exists s. split; reflexivity.
  - destruct (captureFrame_below_36 s w h Hmax)
      as (s1 & Hc & (_ & Hy & _) & Hcnt).
    destruct (IH s1) as (s2 & Hrest & Hcnt2); [rewrite Hy; exact Hmax |].
    exists s2. cbn [SmartFaceProcessor.captures]. rewrite Hc.
    cbn [bind fst snd]. rewrite Hrest. cbn [bind fst snd].
    split; [reflexivity | congruence].
Qed.

Lemma no_capture_below_36_witness :
  exists s',
    SmartFaceProcessor.captures default_processor
      [(640, 480); (1920, 1080); (320, 240)]%Z
    = Ok ([false; false; false], s')
    /\ SmartFaceProcessor.capture_count_ s' = 0%Z.
Proof.
  apply (no_capture_below_36 [(640, 480); (1920, 1080); (320, 240)]%Z
           default_processor).
  cbn. lra.
Defined.

(** ** What [Process] sends *)

Section ProcessOutputs.
Import SmartCaptureCalculator.

(** The three ways in which a [Process] call ends: nothing happens, a
    reject status is sent, or the frame is captured. *)
Lemma Process_cases (s s' : state) (cc : CalculatorContext)
      (out : list Packet) :
  Process s cc = Ok (s', out) ->
  (s' = s /\ out = [])
  \/ (s' = s
      /\ exists m, out = SendStatus cc m
                   /\ In m ["No face detected"; "Face turned too much (Yaw)";
                            "Face tilted up/down too much (Pitch)"]%string)
  \/ (exists img l rest,
         IMAGE cc = Some img /\ LANDMARKS cc = Some (l :: rest)
         /\ (current_count_ s < max_captures_ s)%Z
         /\ s' = mkState (max_captures_ s) (max_yaw_ s) (max_pitch_ s)
                   (padding_ s) (current_count_ s + 1)
         /\ out = SendStatus cc "Captured!" ++ CropAndSend s img l).
Proof.
  intros H.
  destruct (Z_lt_le_dec (current_count_ s) (max_captures_ s)) as [Hlt | Hge].
  - rewrite (Process_below s cc Hlt) in H.
    destruct (IMAGE cc) as [img |] eqn:Hi;
      [| injection H as <- <-; left; split; reflexivity].
    destruct (LANDMARKS cc) as [[| l rest] |] eqn:Hl.
    + injection H as <- <-. right. left. split; [reflexivity |].
      eexists. split; [reflexivity |]. cbn. tauto.
    + destruct (pose l) as [[yaw pitch] |]; cbn [bind fst snd] in H;
        [| discriminate].
      unfold gate in H.
      destruct (Rgt_dec _ _).
      { injection H as <- <-. right. left. split; [reflexivity |].
        eexists. split; [reflexivity |]. cbn. tauto. }
      destruct (Rgt_dec _ _).
      { injection H as <- <-. right. left. split; [reflexivity |].
        eexists. split; [reflexivity |]. cbn. tauto. }
      injection H as <- <-. right. right. exists img, l, rest.
      repeat split. exact Hlt.
    + injection H as <- <-. left. split; reflexivity.
  - rewrite (Process_limit s cc Hge) in H. injection H as <- <-.
    left. split; reflexivity.
Qed.

Lemma SendStatus_crops (cc : CalculatorContext) (m : string) :
  filter is_crop (SendStatus cc m) = [].
Proof. unfold SendStatus. destruct (HasTag_STATUS cc); reflexivity. Qed.

Lemma SendStatus_in (cc : CalculatorContext) (m : string) (p : Packet) :
  In p (SendStatus cc m) -> p = STATUS m /\ HasTag_STATUS cc = true.
Proof.
  unfold SendStatus. destruct (HasTag_STATUS cc); cbn; [| tauto].
  intros [<- | []]. split; reflexivity.
Qed.

Lemma CropAndSend_packets (s : state) (img : ImageFrame) (l : list Landmark) :
  CropAndSend s img l = []
  \/ exists roi, CropAndSend s img l = [CROPPED_FACE roi] /\ inside roi img.
Proof.
  unfold CropAndSend.
  destruct (crop_rect (padding_ s) img l) as [roi |] eqn:E;
    [right | left; reflexivity].
  exists roi. split; [reflexivity |].
  apply (crop_rect_inside _ _ _ _ E).
Qed.

End ProcessOutputs.

(** X15.  A [Process] call that returns never changes the options
    (max_captures, the two thresholds, the padding).  It sends at most one
    cropped face; a STATUS packet is sent only when the STATUS output is
    connected and carries one of the four reason strings; a cropped face is
    sent only for a frame that is counted (the count grows by 1 and was
    below max_captures), and its rectangle is not empty and lies inside the
    input image. *)
Theorem Process_sends
        (s s' : SmartCaptureCalculator.state)
        (cc : SmartCaptureCalculator.CalculatorContext)
        (out : list SmartCaptureCalculator.Packet) :
  SmartCaptureCalculator.Process s cc = Ok (s', out) ->
  same_options s s'
  /\ (crops out <= 1)%nat
  /\ (forall m, In (SmartCaptureCalculator.STATUS m) out ->
                In m Spec.reasons
                /\ SmartCaptureCalculator.HasTag_STATUS cc = true)
  /\ (forall roi,
         In (SmartCaptureCalculator.CROPPED_FACE roi) out ->
         (SmartCaptureCalculator.current_count_ s
          < SmartCaptureCalculator.max_captures_ s)%Z
         /\ SmartCaptureCalculator.current_count_ s'
            = (SmartCaptureCalculator.current_count_ s + 1)%Z
         /\ exists img, SmartCaptureCalculator.IMAGE cc = Some img
                        /\ inside roi img).
Proof.
  intros H. apply Process_cases in H.
  destruct H as [[-> ->] | [[-> (m & -> & Hm)] | H]].
  - split; [repeat split |]. split; [cbn; lia |].
    split; intros ? [].
  - split; [repeat split |].
    split; [unfold crops; rewrite SendStatus_crops; cbn; lia |].
    split.
    + intros m' Hin. apply SendStatus_in in Hin. destruct Hin as [E Hst].
      injection E as ->. split; [| exact Hst].
      cbn in Hm |- *. tauto.
    + intros roi Hin. apply SendStatus_in in Hin. destruct Hin as [E _].
      discriminate E.
  - destruct H as (img & l & rest & Hi & Hl & Hlt & -> & ->).
    split; [repeat split |].
    destruct (CropAndSend_packets s img l) as [E | (roi & E & Hin)];
      rewrite E.
    + rewrite app_nil_r. split;
        [unfold crops; rewrite SendStatus_crops; cbn; lia |].
      split.
      * intros m Hm. apply SendStatus_in in Hm. destruct Hm as [E' Hst].
        injection E' as ->. split; [cbn; tauto | exact Hst].
      * intros roi Hr. apply SendStatus_in in Hr. destruct Hr as [E' _].
        discriminate E'.
    + split.
      { unfold crops. rewrite filter_app, SendStatus_crops. cbn. lia. }
      split.
      * intros m Hm. apply in_app_or in Hm. destruct Hm as [Hm | Hm].
        -- apply SendStatus_in in Hm. destruct Hm as [E' Hst].
           injection E' as ->. split; [cbn; tauto | exact Hst].
        -- destruct Hm as [E' | []]. discriminate E'.
      * intros roi' Hr. apply in_app_or in Hr. destruct Hr as [Hr | Hr].
        -- apply SendStatus_in in Hr. destruct Hr as [E' _]. discriminate E'.
        -- destruct Hr as [E' | []]. injection E' as <-.
           split; [exact Hlt |]. split; [reflexivity |].
           exists img. split; [exact Hi | exact Hin].
Qed.

Lemma Process_sends_witness :
  exists s' out,
    SmartCaptureCalculator.Process
      (SmartCaptureCalculator.Open example_options) (frame_of (blank 468))
    = Ok (s', out)
    /\ same_options (SmartCaptureCalculator.Open example_options) s'
    /\ (crops out <= 1)%nat.
Proof.
  assert (Hc : (SmartCaptureCalculator.current_count_
                  (SmartCaptureCalculator.Open example_options)
                < SmartCaptureCalculator.max_captures_
                    (SmartCaptureCalculator.Open example_options))%Z)
    by (cbn; lia).
  assert (Hy : 0 <= SmartCaptureCalculator.max_yaw_
                      (SmartCaptureCalculator.Open example_options))
    by (cbn; lra).
  assert (Hp : 0 <= SmartCaptureCalculator.max_pitch_
                      (SmartCaptureCalculator.Open example_options))
    by (cbn; lra).
  assert (Hn : (454 < 468)%nat) by lia.
  destruct (Process_blank _ 468 Hc Hy Hp Hn) as (s' & out & E & _).
  exists s', out. split; [exact E |].
  destruct (Process_sends _ _ _ _ E) as (Hcfg & Hcrops & _).
  split; [exact Hcfg | exact Hcrops].
Defined.

(** ** Captures without a crop *)

Section FlatBox.
Import SmartCaptureCalculator.

(** 0.0f times any [float] converts to an [int] that is not positive: the
    product is 0, or NaN when the other factor is an infinity or NaN. *)
Lemma mul_0_nonpos (p : Binary32.t) :
  (Binary32.to_int32 (Binary32.mul (Binary32.finite 0) p) <= 0)%Z.
Proof.
  destruct p as [y | sg |]; cbn [Binary32.mul].
  - replace (0 * y) with 0 by ring. rewrite round_0.
    rewrite (to_int32_IZR 0) by (unfold Binary32.INT_MAX; lia). lia.
  - destruct (Rlt_dec 0 0) as [H | _]; [lra |].
    cbn [Binary32.to_int32]. unfold Binary32.INT_MIN. lia.
  - cbn [Binary32.to_int32]. unfold Binary32.INT_MIN. lia.
Qed.

(** Every [int] converts to a finite [float]. *)
Lemma of_int_finite (n : Z) :
  (Binary32.INT_MIN <= n <= Binary32.INT_MAX)%Z ->
  exists r, Binary32.of_int n = Binary32.finite r.
Proof.
  intros H. unfold Binary32.of_int. apply round_finite_small.
  rewrite <- abs_IZR.
  change (Binary32.bpow 127) with (IZR (Z.pow_pos 2 127)).
  apply IZR_lt. unfold Binary32.INT_MIN, Binary32.INT_MAX in H.
  apply Z.lt_le_trans with (2 ^ 32)%Z; [lia |].
  apply Z.leb_le. reflexivity.
Qed.

(** A landmark box of zero width gives no rectangle: w is 0, and so pad_w
    is 0 (or INT_MIN, when 1 + padding is not finite). *)
Lemma crop_rect_flat (padding_ : R) (img : ImageFrame) (l : list Landmark)
      (v : R) (min_y max_y : Binary32.t) :
  bounds l = (Binary32.finite v, Binary32.finite v, min_y, max_y) ->
  (Binary32.INT_MIN <= cols img <= Binary32.INT_MAX)%Z ->
  crop_rect padding_ img l = None.
Proof.
  intros Hb Hc.
  destruct (of_int_finite _ Hc) as [r Er].
  assert (Hw : Binary32.to_int32
                 (Binary32.mul
                    (Binary32.sub (Binary32.finite v) (Binary32.finite v))
                    (Binary32.of_int (cols img))) = 0%Z).
  { rewrite Er. cbn [Binary32.sub Binary32.opp Binary32.add].
    replace (v + - v) with 0 by ring. rewrite round_0.
    cbn [Binary32.mul]. replace (0 * r) with 0 by ring. rewrite round_0.
    apply (to_int32_IZR 0). unfold Binary32.INT_MAX. lia. }
  rewrite (crop_rect_steps padding_ img l _ _ _ _ 0 _ _ _ _ _
             Hb Hw eq_refl eq_refl eq_refl eq_refl eq_refl).
  cbv zeta. rewrite (of_int_small 0) by (cbn; lia).
  pose proof (mul_0_nonpos
                (Binary32.add (Binary32.finite 1) (Binary32.round padding_)))
    as Hp.
  match goal with
  | |- (if (?a && ?b)%bool then _ else _) = None =>
      destruct a eqn:Ha; [| reflexivity]
  end.
  apply Z.ltb_lt in Ha. lia.
Qed.

Lemma xs_uniform (l : list Landmark) (c : R) :
  Forall (fun lm => Landmark.x lm = c) l ->
  Spec.xs l = repeat (Binary32.round c) (List.length l).
Proof.
  unfold Spec.xs. induction 1 as [| lm l Hx _ IH]; [reflexivity |].
  cbn [map List.length repeat]. rewrite Hx, IH. reflexivity.
Qed.

(** When all landmarks have the same x in [0,1], the loop ends with
    min_x = max_x. *)
Lemma bounds_flat (l : list Landmark) (c : R) :
  l <> [] -> 0 <= c <= 1 -> Forall (fun lm => Landmark.x lm = c) l ->
  exists v min_y max_y,
    bounds l = (Binary32.finite v, Binary32.finite v, min_y, max_y).
Proof.
  intros Hne Hc Hall. destruct (round_unit c Hc) as (v & Ev & Hv).
  exists v. unfold bounds. rewrite bounds_fold, (xs_uniform l c Hall), Ev.
  destruct l as [| lm l]; [contradiction |].
  cbn [List.length repeat fold_left].
  rewrite min_finite_right, max_finite_right by lra.
  rewrite fold_min_repeat, fold_max_repeat by lra.
  eexists _, _. reflexivity.
Qed.

Lemma line_face_uniform : Forall (fun lm => Landmark.x lm = 0.5) line_face.
Proof.
  apply Forall_forall. intros lm H. apply repeat_spec in H. subst lm.
  reflexivity.
Qed.

Lemma crop_rect_line_face :
  crop_rect 0.2 (mkImage 1000 1000) line_face = None.
Proof.
  destruct (bounds_flat line_face 0.5) as (v & min_y & max_y & Hb);
    [discriminate | lra | exact line_face_uniform |].
  apply (crop_rect_flat _ _ _ _ _ _ Hb).
  unfold Binary32.INT_MIN, Binary32.INT_MAX. cbn. lia.
Qed.

End FlatBox.

Lemma pose_line_face : SmartCaptureCalculator.pose line_face = Ok (0, 0).
Proof.
  rewrite pose_in_range by (unfold line_face; rewrite repeat_length; lia).
  unfold line_face. rewrite !nth_repeat_lt by lia.
  unfold Spec.depth_yaw, Spec.depth_pitch.
  cbn [Landmark.x Landmark.y Landmark.z].
  replace (0 - 0) with 0 by ring. replace (0.5 - 0.5) with 0 by ring.
  replace (0.5 - (0.5 + 0.5) / 2) with 0 by lra.
  rewrite atan2_0_0, degrees_0. reflexivity.
Qed.

(** X16.  A frame that passes both checks is counted as a capture and
    reported with "Captured!" even when nothing is cropped: if all
    landmarks of the face have the same x, in [0,1], so that the landmark
    box has no width, [Process] increments the count and sends the status,
    but no cropped face. *)
Theorem captured_without_crop
        (s : SmartCaptureCalculator.state)
        (cc : SmartCaptureCalculator.CalculatorContext)
        (img : SmartCaptureCalculator.ImageFrame)
        (l : list Landmark) (rest : list (list Landmark))
        (yaw pitch c : R) :
  (SmartCaptureCalculator.current_count_ s
   < SmartCaptureCalculator.max_captures_ s)%Z ->
  SmartCaptureCalculator.IMAGE cc = Some img ->
  SmartCaptureCalculator.LANDMARKS cc = Some (l :: rest) ->
  SmartCaptureCalculator.pose l = Ok (yaw, pitch) ->
  Rabs yaw <= SmartCaptureCalculator.max_yaw_ s ->
  Rabs pitch <= SmartCaptureCalculator.max_pitch_ s * 2 ->
  (0 <= SmartCaptureCalculator.cols img <= Binary32.INT_MAX)%Z ->
  0 <= c <= 1 ->
  Forall (fun lm => Landmark.x lm = c) l ->
  exists s',
    SmartCaptureCalculator.Process s cc
    = Ok (s', SmartCaptureCalculator.SendStatus cc "Captured!")
    /\ SmartCaptureCalculator.current_count_ s'
       = (SmartCaptureCalculator.current_count_ s + 1)%Z.
Proof.
  intros Hlt Hi Hl Hp Hy Hpi Hcols Hc Hall.
  assert (Hne : l <> []) by (intros ->; discriminate Hp).
  destruct (bounds_flat l c Hne Hc Hall) as (v & min_y & max_y & Hb).
  rewrite (Process_below s cc Hlt), Hi, Hl, Hp. cbn [bind fst snd].
  rewrite gate_accept by assumption.
  unfold SmartCaptureCalculator.CropAndSend.
  rewrite (crop_rect_flat _ img l _ _ _ Hb), app_nil_r
    by (unfold Binary32.INT_MIN; lia).
  eexists. split; reflexivity.
Qed.

Lemma captured_without_crop_witness :
  exists s',
    SmartCaptureCalculator.Process
      (SmartCaptureCalculator.Open example_options) (frame_of line_face)
    = Ok (s', [SmartCaptureCalculator.STATUS "Captured!"])
    /\ SmartCaptureCalculator.current_count_ s' = 1%Z.
Proof.
  assert (Hc : (SmartCaptureCalculator.current_count_
                  (SmartCaptureCalculator.Open example_options)
                < SmartCaptureCalculator.max_captures_
                    (SmartCaptureCalculator.Open example_options))%Z)
    by (cbn; lia).
  assert (Hy : Rabs 0 <= SmartCaptureCalculator.max_yaw_
                           (SmartCaptureCalculator.Open example_options))
    by (rewrite Rabs_R0; cbn; lra).
  assert (Hp : Rabs 0 <= SmartCaptureCalculator.max_pitch_
                           (SmartCaptureCalculator.Open example_options) * 2)
    by (rewrite Rabs_R0; cbn; lra).
  assert (Hcols : (0 <= SmartCaptureCalculator.cols
                          (SmartCaptureCalculator.mkImage 1000 1000)
                   <= Binary32.INT_MAX)%Z)
    by (unfold Binary32.INT_MAX; cbn; lia).
  assert (Hu : 0 <= 0.5 <= 1) by lra.
  exact (captured_without_crop
           (SmartCaptureCalculator.Open example_options)
           (frame_of line_face) (SmartCaptureCalculator.mkImage 1000 1000)
           line_face [] 0 0 0.5 Hc eq_refl eq_refl
           pose_line_face Hy Hp Hcols Hu line_face_uniform).
Defined.

(** ** The STATUS output *)

(** X17.  Whether the STATUS output is connected changes neither the state
    after [Process] nor the cropped faces it sends: for two contexts with
    the same inputs, the resulting states and the CROPPED_FACE packets are
    the same; without the connection no STATUS packet is sent. *)
Theorem status_wiring_is_irrelevant
        (s s' : SmartCaptureCalculator.state)
        (image : option SmartCaptureCalculator.ImageFrame)
        (faces : option (list (list Landmark)))
        (out : list SmartCaptureCalculator.Packet) :
  SmartCaptureCalculator.Process s
    (SmartCaptureCalculator.mkContext image faces true) = Ok (s', out) ->
  SmartCaptureCalculator.Process s
    (SmartCaptureCalculator.mkContext image faces false)
  = Ok (s', filter is_crop out).
Proof.
  unfold SmartCaptureCalculator.Process.
  destruct (SmartCaptureCalculator.current_count_ s
            >=? SmartCaptureCalculator.max_captures_ s)%Z;
    [intros H; injection H as <- <-; reflexivity |].
  cbn [SmartCaptureCalculator.IMAGE SmartCaptureCalculator.LANDMARKS].
  destruct image as [img |]; [| intros H; injection H as <- <-; reflexivity].
  destruct faces as [[| l rest] |];
    try (intros H; injection H as <- <-; reflexivity).
  destruct (SmartCaptureCalculator.pose l) as [[yaw pitch] |];
    cbn [bind fst snd]; [| discriminate].
  unfold SmartCaptureCalculator.gate.
  destruct (Rgt_dec _ _); [intros H; injection H as <- <-; reflexivity |].
  destruct (Rgt_dec _ _); [intros H; injection H as <- <-; reflexivity |].
  intros H. injection H as <- <-.
  unfold SmartCaptureCalculator.SendStatus, SmartCaptureCalculator.CropAndSend.
  cbn [SmartCaptureCalculator.HasTag_STATUS app filter is_crop].
  destruct (SmartCaptureCalculator.crop_rect _ _ _); reflexivity.
Qed.

Lemma status_wiring_is_irrelevant_witness :
  exists s',
    SmartCaptureCalculator.Process
      (SmartCaptureCalculator.Open example_options)
      (SmartCaptureCalculator.mkContext
         (Some (SmartCaptureCalculator.mkImage 1000 1000))
         (Some [line_face]) false)
    = Ok (s', [])
    /\ SmartCaptureCalculator.current_count_ s' = 1%Z.
Proof.
  assert (Hc : (SmartCaptureCalculator.current_count_
                  (SmartCaptureCalculator.Open example_options)
                < SmartCaptureCalculator.max_captures_
                    (SmartCaptureCalculator.Open example_options))%Z)
    by (cbn; lia).
  assert (E : SmartCaptureCalculator.Process
                (SmartCaptureCalculator.Open example_options)
                (frame_of line_face)
              = Ok (SmartCaptureCalculator.mkState 5 15 15 0.2 1,
                    [SmartCaptureCalculator.STATUS "Captured!"])).
  { rewrite (Process_below _ _ Hc).
    cbn [frame_of SmartCaptureCalculator.IMAGE
           SmartCaptureCalculator.LANDMARKS].
    rewrite pose_line_face. cbn [bind fst snd].
    rewrite gate_accept by (rewrite Rabs_R0; cbn; lra).
    unfold SmartCaptureCalculator.CropAndSend.
    cbn [SmartCaptureCalculator.Open SmartCaptureCalculator.padding_
           SmartCaptureCalculator.padding example_options].
    rewrite crop_rect_line_face. reflexivity. }
  exists (SmartCaptureCalculator.mkState 5 15 15 0.2 1).
  split; [| reflexivity].
  exact (status_wiring_is_irrelevant _ _ _ _ _ E).
Defined.

(** ** The capture budget *)

Lemma Process_crops (s s' : SmartCaptureCalculator.state)
      (cc : SmartCaptureCalculator.CalculatorContext)
      (out : list SmartCaptureCalculator.Packet) :
  SmartCaptureCalculator.Process s cc = Ok (s', out) ->
  (Z.of_nat (crops out)
   <= SmartCaptureCalculator.current_count_ s'
      - SmartCaptureCalculator.current_count_ s)%Z.
Proof.
  intros H. apply Process_cases in H.
  destruct H as [[-> ->] | [[-> (m & -> & _)] | H]].
  - cbn. lia.
  - unfold crops. rewrite SendStatus_crops. cbn. lia.
  - destruct H as (img & l & rest & _ & _ & _ & -> & ->).
    unfold crops. rewrite filter_app, SendStatus_crops.
    cbn [app SmartCaptureCalculator.current_count_].
    destruct (CropAndSend_packets s img l) as [E | (roi & E & _)];
      rewrite E; cbn; lia.
Qed.

Lemma run_crops (ccs : list SmartCaptureCalculator.CalculatorContext) :
  forall (s s' : SmartCaptureCalculator.state)
         (out : list SmartCaptureCalculator.Packet),
    SmartCaptureCalculator.run s ccs = Ok (s', out) ->
    (Z.of_nat (crops out)
     <= SmartCaptureCalculator.current_count_ s'
        - SmartCaptureCalculator.current_count_ s)%Z.
Proof.
  induction ccs as [| cc ccs IH]; intros s s' out H.
  - injection H as <- <-. cbn. lia.
  - cbn [SmartCaptureCalculator.run] in H.
    destruct (SmartCaptureCalculator.Process s cc) as [[s1 o1] |] eqn:HP;
      cbn [bind fst snd] in H; [| discriminate].
    destruct (SmartCaptureCalculator.run s1 ccs) as [[s2 o2] |] eqn:HR;
      cbn [bind fst snd] in H; [| discriminate].
    injection H as <- <-.
    apply Process_crops in HP. apply IH in HR.
    unfold crops in *. rewrite filter_app, length_app. lia.
Qed.

Section FramedFace.
Import SmartCaptureCalculator.

Lemma bounds_framed_face :
  bounds framed_face
  = (Binary32.finite 0, Binary32.finite (3 / 4),
     Binary32.finite 0, Binary32.finite (3 / 4)).
Proof.
  unfold bounds, framed_face, blank, Landmark.default.
  cbn [app fold_left bounds_step Landmark.x Landmark.y].
  rewrite round_0, round_0_75.
  rewrite (min_finite_right 1 0), (max_finite_left 0 0) by lra.
  rewrite (min_finite_left 0 0), (max_finite_left 0 0) by lra.
  rewrite (min_finite_left 0 (3 / 4)), (max_finite_right 0 (3 / 4)) by lra.
  apply (bounds_repeat (Landmark.mk 0 0 0) 465 _ _ _ _ _ _
           round_0 round_0); lra.
Qed.

(** The box measures 750x750 pixels about (375,375); padded to 900x900 its
    corner (-75,-75) is clamped to (0,0). *)
Lemma crop_rect_framed_face :
  crop_rect 0.2 (mkImage 1000 1000) framed_face
  = Some (mkRect 0 0 900 900).
Proof.
  rewrite (crop_rect_steps 0.2 (mkImage 1000 1000) framed_face _ _ _ _
             750 750 375 375 900 900 bounds_framed_face); cbn [cols rows].
  - reflexivity.
  - rewrite of_int_small by (cbn; lia).
    cbn [Binary32.sub Binary32.opp Binary32.add].
    f32 (-24)%Z 12582912%Z (3 / 4).
    f32 (-14)%Z 12288000%Z 750.
    apply to_int32_floor; [unfold Binary32.INT_MAX; lia | lra].
  - rewrite of_int_small by (cbn; lia).
    cbn [Binary32.sub Binary32.opp Binary32.add].
    f32 (-24)%Z 12582912%Z (3 / 4).
    f32 (-14)%Z 12288000%Z 750.
    apply to_int32_floor; [unfold Binary32.INT_MAX; lia | lra].
  - change (Z.quot 750 2) with 375%Z. rewrite !of_int_small by (cbn; lia).
    cbn [Binary32.mul].
    f32 (-149)%Z 0%Z 0.
    f32 (-15)%Z 12288000%Z 375.
    apply to_int32_floor; [unfold Binary32.INT_MAX; lia | lra].
  - change (Z.quot 750 2) with 375%Z. rewrite !of_int_small by (cbn; lia).
    cbn [Binary32.mul].
    f32 (-149)%Z 0%Z 0.
    f32 (-15)%Z 12288000%Z 375.
    apply to_int32_floor; [unfold Binary32.INT_MAX; lia | lra].
  - rewrite of_int_small by (cbn; lia).
    f32 (-26)%Z 13421773%Z (13421773 / 67108864).
    f32 (-23)%Z 10066330%Z (5033165 / 4194304).
    f32 (-14)%Z 14745601%Z (14745601 / 16384).
    apply to_int32_floor; [unfold Binary32.INT_MAX; lia | lra].
  - rewrite of_int_small by (cbn; lia).
    f32 (-26)%Z 13421773%Z (13421773 / 67108864).
    f32 (-23)%Z 10066330%Z (5033165 / 4194304).
    f32 (-14)%Z 14745601%Z (14745601 / 16384).
    apply to_int32_floor; [unfold Binary32.INT_MAX; lia | lra].
Qed.

Lemma nth_framed_face (i : nat) :
  i <> 2%nat -> nth i framed_face Landmark.default = Landmark.default.
Proof.
  intros H. unfold framed_face.
  destruct i as [| [| [| i]]];
    [reflexivity | reflexivity | contradiction |].
  cbn [app nth]. apply nth_blank.
Qed.

Lemma pose_framed_face : pose framed_face = Ok (0, 0).
Proof.
  rewrite pose_in_range
    by (unfold framed_face; rewrite length_app, blank_length; cbn; lia).
  rewrite !nth_framed_face by lia.
  unfold Spec.depth_yaw, Spec.depth_pitch, Landmark.default; cbn.
  replace (0 - 0) with 0 by ring.
  replace (0 - (0 + 0) / 2) with 0 by field.
  rewrite atan2_0_0, degrees_0. reflexivity.
Qed.

(** Below the limit, the framed face is captured and cropped to
    (0,0,900,900). *)
Lemma Process_framed_face (s : state) :
  (current_count_ s < max_captures_ s)%Z ->
  0 <= max_yaw_ s -> 0 <= max_pitch_ s -> padding_ s = 0.2 ->
  Process s (frame_of framed_face)
  = Ok (mkState (max_captures_ s) (max_yaw_ s) (max_pitch_ s) (padding_ s)
                (current_count_ s + 1),
        captured (mkRect 0 0 900 900)).
Proof.
  intros Hc Hy Hp Hpad.
  rewrite (Process_below s _ Hc).
  cbn [frame_of IMAGE LANDMARKS].
  rewrite pose_framed_face. cbn [bind fst snd].
  rewrite gate_accept by (rewrite Rabs_R0; lra).
  unfold CropAndSend. rewrite Hpad, crop_rect_framed_face.
  reflexivity.
Qed.

(** Seven frames with the framed face, from [Open] with max_captures = 5:
    five are captured and cropped, the last two are not looked at. *)
Lemma run_framed_faces :
  run (Open example_options) (repeat (frame_of framed_face) 7)
  = Ok (mkState 5 15 15 0.2 5,
        captured (mkRect 0 0 900 900) ++ captured (mkRect 0 0 900 900)
          ++ captured (mkRect 0 0 900 900) ++ captured (mkRect 0 0 900 900)
          ++ captured (mkRect 0 0 900 900)).
Proof.
  cbn [repeat run].
  do 5 (rewrite Process_framed_face by (cbn; first [lia | lra | reflexivity]);
        cbn [bind fst snd max_captures_ max_yaw_ max_pitch_ padding_
               current_count_ Open example_options max_captures
               max_yaw_degrees max_pitch_degrees padding Z.add Pos.add
               Pos.succ]).
  rewrite !Process_limit by (cbn; lia).
  reflexivity.
Qed.

End FramedFace.

(** X18.  Over any sequence of [Process] calls on a calculator whose count
    is within its limit, the number of cropped faces sent is at most
    max_captures minus the count at the start; from [Open] with
    max_captures >= 0 it is at most max_captures. *)
Theorem crops_within_budget
        (s s' : SmartCaptureCalculator.state)
        (ccs : list SmartCaptureCalculator.CalculatorContext)
        (out : list SmartCaptureCalculator.Packet) :
  calculator_invariant s ->
  SmartCaptureCalculator.run s ccs = Ok (s', out) ->
  (Z.of_nat (crops out)
   <= SmartCaptureCalculator.max_captures_ s
      - SmartCaptureCalculator.current_count_ s)%Z.
Proof.
  intros Hinv H.
  pose proof (run_crops ccs s s' out H) as Hc.
  destruct (run_invariant ccs s s' out Hinv H) as [[_ Hle] _].
  assert (Hm : SmartCaptureCalculator.max_captures_ s'
               = SmartCaptureCalculator.max_captures_ s).
  { clear Hc Hle Hinv. revert s s' out H.
    induction ccs as [| cc ccs IH]; intros s s' out H.
    - injection H as <- _. reflexivity.
    - cbn [SmartCaptureCalculator.run] in H.
      destruct (SmartCaptureCalculator.Process s cc) as [[s1 o1] |] eqn:HP;
        cbn [bind fst snd] in H; [| discriminate].
      destruct (SmartCaptureCalculator.run s1 ccs) as [[s2 o2] |] eqn:HR;
        cbn [bind fst snd] in H; [| discriminate].
      injection H as <- _.
      apply Process_counter in HP. destruct HP as [Hm1 _].
      rewrite (IH s1 s2 o2 HR). exact Hm1. }
  lia.
Qed.

Lemma crops_within_budget_witness :
  exists s' out,
    SmartCaptureCalculator.run
      (SmartCaptureCalculator.Open example_options)
      (repeat (frame_of framed_face) 7) = Ok (s', out)
    /\ crops out = 5%nat
    /\ (Z.of_nat (crops out) <= 5 - 0)%Z.
Proof.
  assert (Hinv : calculator_invariant
                   (SmartCaptureCalculator.Open example_options))
    by (unfold calculator_invariant; cbn; lia).
  pose proof run_framed_faces as H.
  eexists _, _. split; [exact H |]. split; [reflexivity |].
  exact (crops_within_budget _ _ _ _ Hinv H).
Defined.

Section ProcessorBudget.
Import SmartFaceProcessor.

Lemma captures_count (frames : list (Z * Z)) :
  forall s : state,
    exists results s',
      captures s frames = Ok (results, s')
      /\ List.length results = List.length frames
      /\ same_config s s'
      /\ capture_count_ s'
         = (capture_count_ s + Z.of_nat (successes results))%Z
      /\ (capture_count_ s <= max_captures_ s ->
          capture_count_ s' <= max_captures_ s)%Z.
Proof.
  induction frames as [| [w h] frames IH]; intros s.
  - exists [], s. split; [reflexivity |]. split; [reflexivity |].
    split; [apply same_config_refl |]. cbn. split; lia.
  - destruct (captureFrame_effect s w h)
      as (b & s1 & Hc & Hcfg & Hcnt & Hlt & _).
    destruct (IH s1) as (results & s2 & Hrest & Hlen & Hcfg2 & Hcnt2 & Hle2).
    exists (b :: results), s2. cbn [captures]. rewrite Hc.
    cbn [bind fst snd]. rewrite Hrest. cbn [bind fst snd].
    split; [reflexivity |]. split; [cbn; lia |].
    split; [apply (same_config_trans s s1 s2); assumption |].
    destruct Hcfg as (_ & _ & _ & Hm). rewrite Hm in Hle2.
    unfold successes in *. destruct b; cbn [filter List.length]; split.
    + lia.
    + intros _. apply Hle2. specialize (Hlt eq_refl). lia.
    + lia.
    + intros Hle. apply Hle2. lia.
Qed.

End ProcessorBudget.

(** X19.  Every sequence of [captureFrame] calls returns; the count grows
    by exactly the number of calls that returned true, and on a processor
    whose count is within its limit that number is at most max_captures
    minus the count at the start. *)
Theorem successes_within_budget
        (s : SmartFaceProcessor.state) (frames : list (Z * Z)) :
  processor_invariant s ->
  exists results s',
    SmartFaceProcessor.captures s frames = Ok (results, s')
    /\ List.length results = List.length frames
    /\ SmartFaceProcessor.capture_count_ s'
       = (SmartFaceProcessor.capture_count_ s
          + Z.of_nat (successes results))%Z
    /\ (Z.of_nat (successes results)
        <= SmartFaceProcessor.max_captures_ s
           - SmartFaceProcessor.capture_count_ s)%Z.
Proof.
  intros [H0 Hle].
  destruct (captures_count frames s)
    as (results & s' & Hc & Hlen & _ & Hcnt & Hmax).
  exists results, s'. split; [exact Hc |]. split; [exact Hlen |].
  split; [exact Hcnt |]. specialize (Hmax Hle). lia.
Qed.

Lemma successes_within_budget_witness :
  exists results s',
    SmartFaceProcessor.captures lenient_processor
      (repeat (640, 480)%Z 9) = Ok (results, s')
    /\ List.length results = 9%nat
    /\ SmartFaceProcessor.capture_count_ s'
       = (0 + Z.of_nat (successes results))%Z
    /\ (Z.of_nat (successes results) <= 5 - 0)%Z.
Proof.
  apply (successes_within_budget lenient_processor (repeat (640, 480)%Z 9)).
  unfold processor_invariant. cbn. lia.
Defined.

(** X20.  [resetCaptures] restores the whole budget: after it, on a
    processor with max_captures >= 0, max_captures frames that the gate
    accepts are all captured, wherever the count stood before, and the next
    call returns false. *)
Theorem reset_restores_budget
        (s : SmartFaceProcessor.state) (frames : list (Z * Z)) (last : Z * Z) :
  (0 <= SmartFaceProcessor.max_captures_ s)%Z ->
  List.length frames = Z.to_nat (SmartFaceProcessor.max_captures_ s) ->
  (forall f, In f frames -> processor_accepts s f) ->
  exists s',
    SmartFaceProcessor.captures (SmartFaceProcessor.resetCaptures s)
      (frames ++ [last])
    = Ok (repeat true (List.length frames) ++ [false], s')
    /\ SmartFaceProcessor.capture_count_ s'
       = SmartFaceProcessor.max_captures_ s.
Proof.
  intros Hmax Hlen Hacc.
  set (s0 := SmartFaceProcessor.resetCaptures s).
  assert (Hcfg : same_config s s0) by (repeat split).
  destruct (captures_accepted frames s0) as (s1 & Hc & Hcfg1 & Hcnt).
  - intros f Hf. apply (processor_accepts_config s s0 f Hcfg), Hacc, Hf.
  - cbn. lia.
  - destruct Hcfg1 as (_ & _ & _ & Hm).
    change (SmartFaceProcessor.max_captures_ s0)
      with (SmartFaceProcessor.max_captures_ s) in Hm.
    change (SmartFaceProcessor.capture_count_ s0) with 0%Z in Hcnt.
    assert (Hfull : (SmartFaceProcessor.max_captures_ s1
                     <= SmartFaceProcessor.capture_count_ s1)%Z) by lia.
    exists s1. rewrite (captures_app frames [last] s0 s1 _ Hc).
    rewrite (captures_saturated [last] s1 Hfull). cbn [bind fst snd].
    split; [reflexivity | lia].
Qed.

Lemma reset_restores_budget_witness :
  exists s',
    SmartFaceProcessor.captures
      (SmartFaceProcessor.resetCaptures full_processor)
      (repeat (640, 480)%Z 5 ++ [(640, 480)%Z])
    = Ok ([true; true; true; true; true; false], s')
    /\ SmartFaceProcessor.capture_count_ s' = 5%Z.
Proof.
  apply (reset_restores_budget full_processor
           (repeat (640, 480)%Z 5) (640, 480)%Z).
  - cbn. lia.
  - reflexivity.
  - intros f Hf. apply repeat_spec in Hf. subst f.
    assert (Hy : 45 <= SmartFaceProcessor.max_yaw_ full_processor)
      by (cbn; lra).
    assert (Hp : 30 <= SmartFaceProcessor.max_pitch_ full_processor)
      by (cbn; lra).
    destruct (detectFace_lenient full_processor 640 480 eq_refl Hy Hp)
      as (r & s' & Hd & Hdet & Hq & _); [lia | lia |].
    exists r, s'. split; [exact Hd |]. split; assumption.
Defined.
